(** * i915 hot-plug interrupt handling: storm detection and mitigation

    A shallow embedding of [drivers/gpu/drm/i915/intel_hotplug.c]
    (linux-4.18.0-80.el8) and the properties of its pin/port mapping, its
    storm detector, its interrupt dispatcher and its polling fallback.

    Conventions of the embedding.
    - C integers are [Z] with the conversion of each C type written out
      ([to_int], [to_u32], [to_ulong], [to_long]).
    - [enum hpd_pin] and [enum port] are [Z], as in C, so that enumeration
      values the switches do not name can be given to the functions.
    - [dev_priv->hotplug.stats[]] is a list read and updated by index.
    - [jiffies] is an explicit argument of every function that reads it.
    - Calls that leave this file (the [hpd_irq_setup] hook, the work queue,
      [drm_kms_helper_poll_enable]) are appended to [calls].
    - [irq_lock], [mode_config.mutex] and the runtime-PM reference are
      balanced acquire/release pairs around the bodies and are not modelled;
      neither are the [DRM_DEBUG_*], [DRM_INFO] and [WARN_ONCE] messages. *)

From stdpp Require Import base list.
From Stdlib Require Import ZArith Lia Bool.

Local Open Scope Z_scope.

(** ** C integer types *)

(** Conversion to [int] (32 bits, two's complement). *)
Definition to_int (x : Z) : Z := (x + 2 ^ 31) mod 2 ^ 32 - 2 ^ 31.

(** Conversion to [u32]. *)
Definition to_u32 (x : Z) : Z := x mod 2 ^ 32.

(** [unsigned long] and [long] have [BITS_PER_LONG] bits; every
    architecture this kernel is built for has 64. *)
Definition BITS_PER_LONG : Z := 64.
Definition to_ulong (x : Z) : Z := x mod 2 ^ BITS_PER_LONG.
Definition to_long (x : Z) : Z :=
  (x + 2 ^ (BITS_PER_LONG - 1)) mod 2 ^ BITS_PER_LONG - 2 ^ (BITS_PER_LONG - 1).

Definition INT_MAX : Z := 2 ^ 31 - 1.
Definition INT_MIN : Z := - 2 ^ 31.

(** [BIT(i)] is [1UL << i]. *)
Definition BIT (i : Z) : Z := Z.shiftl 1 i.

(** ** Enumerations

    [enum hpd_pin] and [enum port] are declared in [i915_drv.h] and
    [intel_display.h]; the enumerators keep the values they have there. *)

Definition HPD_NONE : Z := 0.
Definition HPD_CRT : Z := 1.
Definition HPD_SDVO_B : Z := 2.
Definition HPD_SDVO_C : Z := 3.
Definition HPD_PORT_A : Z := 4.
Definition HPD_PORT_B : Z := 5.
Definition HPD_PORT_C : Z := 6.
Definition HPD_PORT_D : Z := 7.
Definition HPD_PORT_E : Z := 8.
Definition HPD_PORT_F : Z := 9.
Definition HPD_NUM_PINS : Z := 10.

Definition PORT_NONE : Z := -1.
Definition PORT_A : Z := 0.
Definition PORT_B : Z := 1.
Definition PORT_C : Z := 2.
Definition PORT_D : Z := 3.
Definition PORT_E : Z := 4.
Definition PORT_F : Z := 5.
Definition I915_MAX_PORTS : Z := 6.

(** [for_each_hpd_pin(i)] runs [i] from [HPD_NONE + 1] up to, and not
    including, [HPD_NUM_PINS]. *)
Definition for_each_hpd_pin : list Z :=
  map Z.of_nat (seq 1 (Z.to_nat (HPD_NUM_PINS - 1))).

(** The state of a pin (the anonymous enum of [struct i915_hotplug]). *)
Inductive hpd_state : Type :=
  | HPD_ENABLED
  | HPD_DISABLED
  | HPD_MARK_DISABLED.

Definition hpd_state_eqb (a b : hpd_state) : bool :=
  match a, b with
  | HPD_ENABLED, HPD_ENABLED => true
  | HPD_DISABLED, HPD_DISABLED => true
  | HPD_MARK_DISABLED, HPD_MARK_DISABLED => true
  | _, _ => false
  end.

(** [DRM_CONNECTOR_POLL_*] of [drm_connector.h]. *)
Definition DRM_CONNECTOR_POLL_HPD : Z := Z.shiftl 1 0.
Definition DRM_CONNECTOR_POLL_CONNECT : Z := Z.shiftl 1 1.
Definition DRM_CONNECTOR_POLL_DISCONNECT : Z := Z.shiftl 1 2.

Definition HPD_STORM_DETECT_PERIOD : Z := 1000.
Definition HPD_STORM_REENABLE_DELAY : Z := 2 * 60 * 1000.

(** ** Pin/port mapping *)

(** [intel_hpd_pin_to_port]; [cnl_with_port_f] is
    [IS_CNL_WITH_PORT_F(dev_priv)]. *)
Definition intel_hpd_pin_to_port (cnl_with_port_f : bool) (pin : Z) : Z :=
  if pin =? HPD_PORT_A then PORT_A
  else if pin =? HPD_PORT_B then PORT_B
  else if pin =? HPD_PORT_C then PORT_C
  else if pin =? HPD_PORT_D then PORT_D
  else if pin =? HPD_PORT_E then
    (if cnl_with_port_f then PORT_F else PORT_E)
  else if pin =? HPD_PORT_F then PORT_F
  else PORT_NONE.

(** [intel_hpd_pin_default]. *)
Definition intel_hpd_pin_default (cnl_with_port_f : bool) (port : Z) : Z :=
  if port =? PORT_A then HPD_PORT_A
  else if port =? PORT_B then HPD_PORT_B
  else if port =? PORT_C then HPD_PORT_C
  else if port =? PORT_D then HPD_PORT_D
  else if port =? PORT_E then HPD_PORT_E
  else if port =? PORT_F then
    (if cnl_with_port_f then HPD_PORT_E else HPD_PORT_F)
  else HPD_NONE.

(** ** Data model *)

(** One element of [dev_priv->hotplug.stats[]]. *)
Record hpd_pin_stats : Type := mk_stats {
  last_jiffies : Z;      (* unsigned long *)
  count : Z;             (* int *)
  state : hpd_state
}.

Definition set_state (s : hpd_state) (st : hpd_pin_stats) : hpd_pin_stats :=
  mk_stats (last_jiffies st) (count st) s.

Record intel_digital_port : Type := mk_dig_port {
  dig_port_hpd_pin : Z   (* base.hpd_pin *)
}.

(** [struct i915_hotplug], without the work items. *)
Record i915_hotplug : Type := mk_hotplug {
  stats : list hpd_pin_stats;
  event_bits : Z;                               (* u32 *)
  irq_port : list (option intel_digital_port);  (* NULL is None *)
  long_port_mask : Z;                           (* u32 *)
  short_port_mask : Z;                          (* u32 *)
  poll_enabled : bool;
  hpd_storm_threshold : Z;                      (* unsigned int *)
  hpd_short_storm_enabled : bool
}.

Definition empty_stats : hpd_pin_stats := mk_stats 0 0 HPD_ENABLED.

(** [hpd->stats[pin]], read. *)
Definition pin_stats (hpd : i915_hotplug) (pin : Z) : hpd_pin_stats :=
  default empty_stats (stats hpd !! Z.to_nat pin).

Definition with_stats (l : list hpd_pin_stats) (hpd : i915_hotplug) : i915_hotplug :=
  mk_hotplug l (event_bits hpd) (irq_port hpd) (long_port_mask hpd)
    (short_port_mask hpd) (poll_enabled hpd) (hpd_storm_threshold hpd)
    (hpd_short_storm_enabled hpd).

(** [hpd->stats[pin] = st]. *)
Definition set_pin_stats (hpd : i915_hotplug) (pin : Z) (st : hpd_pin_stats)
  : i915_hotplug :=
  with_stats (<[Z.to_nat pin := st]> (stats hpd)) hpd.

Definition with_event_bits (e : Z) (hpd : i915_hotplug) : i915_hotplug :=
  mk_hotplug (stats hpd) e (irq_port hpd) (long_port_mask hpd)
    (short_port_mask hpd) (poll_enabled hpd) (hpd_storm_threshold hpd)
    (hpd_short_storm_enabled hpd).

Definition with_long_port_mask (m : Z) (hpd : i915_hotplug) : i915_hotplug :=
  mk_hotplug (stats hpd) (event_bits hpd) (irq_port hpd) m
    (short_port_mask hpd) (poll_enabled hpd) (hpd_storm_threshold hpd)
    (hpd_short_storm_enabled hpd).

Definition with_short_port_mask (m : Z) (hpd : i915_hotplug) : i915_hotplug :=
  mk_hotplug (stats hpd) (event_bits hpd) (irq_port hpd) (long_port_mask hpd)
    m (poll_enabled hpd) (hpd_storm_threshold hpd)
    (hpd_short_storm_enabled hpd).

(** [dev_priv->hotplug.irq_port[port]] is not NULL. *)
Definition irq_port_set (hpd : i915_hotplug) (port : Z) : bool :=
  match irq_port hpd !! Z.to_nat port with
  | Some (Some _) => true
  | _ => false
  end.

Record intel_encoder : Type := mk_encoder {
  hpd_pin : Z
}.

(** A connector: [polled] is [connector->polled] of the DRM core,
    [intel_polled] is [intel_connector->polled], the driver's preference. *)
Record intel_connector : Type := mk_connector {
  polled : Z;
  intel_polled : Z;
  encoder : option intel_encoder;   (* NULL is None *)
  mst_port : bool                   (* intel_connector->mst_port is not NULL *)
}.

Definition set_polled (p : Z) (c : intel_connector) : intel_connector :=
  mk_connector p (intel_polled c) (encoder c) (mst_port c).

(** What the file calls outside itself. *)
Inductive call : Type :=
  | Call_hpd_irq_setup               (* dev_priv->display.hpd_irq_setup() *)
  | Call_queue_dig_port_work         (* queue_work(dp_wq, &dig_port_work) *)
  | Call_schedule_hotplug_work       (* schedule_work(&hotplug_work) *)
  | Call_drm_kms_helper_poll_enable.

Definition call_eqb (a b : call) : bool :=
  match a, b with
  | Call_hpd_irq_setup, Call_hpd_irq_setup => true
  | Call_queue_dig_port_work, Call_queue_dig_port_work => true
  | Call_schedule_hotplug_work, Call_schedule_hotplug_work => true
  | Call_drm_kms_helper_poll_enable, Call_drm_kms_helper_poll_enable => true
  | _, _ => false
  end.

(** How often [c] was called. *)
Definition count_calls (c : call) (l : list call) : nat :=
  length (filter (fun x => call_eqb c x = true) l).

(** The part of [struct drm_i915_private] this file reads and writes.
    [reenable_work] is the timer of [hotplug.reenable_work]: [Some d] when
    the delayed work is pending and due [d] jiffies after it was armed. *)
Record drm_i915_private : Type := mk_dev_priv {
  hotplug : i915_hotplug;
  display_irqs_enabled : bool;
  has_hpd_irq_setup : bool;         (* display.hpd_irq_setup is not NULL *)
  cnl_with_port_f : bool;           (* IS_CNL_WITH_PORT_F(dev_priv) *)
  connectors : list intel_connector;
  reenable_work : option Z;
  calls : list call
}.

Definition with_hotplug (h : i915_hotplug) (d : drm_i915_private) : drm_i915_private :=
  mk_dev_priv h (display_irqs_enabled d) (has_hpd_irq_setup d)
    (cnl_with_port_f d) (connectors d) (reenable_work d) (calls d).

Definition with_connectors (cs : list intel_connector) (d : drm_i915_private)
  : drm_i915_private :=
  mk_dev_priv (hotplug d) (display_irqs_enabled d) (has_hpd_irq_setup d)
    (cnl_with_port_f d) cs (reenable_work d) (calls d).

Definition do_call (c : call) (d : drm_i915_private) : drm_i915_private :=
  mk_dev_priv (hotplug d) (display_irqs_enabled d) (has_hpd_irq_setup d)
    (cnl_with_port_f d) (connectors d) (reenable_work d) (calls d ++ [c]).

(** Modelled from the spec: [mod_delayed_work] of [kernel/workqueue.c] is not
    part of this file. It (re)schedules the delayed task with the given
    delay, replacing any existing schedule. *)
Definition mod_delayed_work (delay : Z) (d : drm_i915_private) : drm_i915_private :=
  mk_dev_priv (hotplug d) (display_irqs_enabled d) (has_hpd_irq_setup d)
    (cnl_with_port_f d) (connectors d) (Some delay) (calls d).

(** ** The functions of the file

    [time_in_range] (a macro of [linux/jiffies.h]) and [msecs_to_jiffies]
    are used, not defined, by this file: the embedding takes them as
    parameters. *)

Section Hotplug.

Variable time_in_range : Z -> Z -> Z -> bool.
Variable msecs_to_jiffies : Z -> Z.

(** [intel_hpd_irq_storm_detect]: the result is the returned [storm] and
    the hot-plug state after the call. *)
Definition intel_hpd_irq_storm_detect (hpd : i915_hotplug) (jiffies : Z)
    (pin : Z) (long_hpd : bool) : bool * i915_hotplug :=
  let start := last_jiffies (pin_stats hpd pin) in
  let end_ := to_ulong (start + msecs_to_jiffies HPD_STORM_DETECT_PERIOD) in
  let increment := if long_hpd then 10 else 1 in
  let threshold := to_int (hpd_storm_threshold hpd) in
  if (threshold =? 0) || (negb long_hpd && negb (hpd_short_storm_enabled hpd))
  then (false, hpd)
  else
    let hpd1 :=
      if negb (time_in_range jiffies start end_)
      then set_pin_stats hpd pin
             (mk_stats jiffies 0 (state (pin_stats hpd pin)))
      else hpd in
    let st1 := pin_stats hpd1 pin in
    let hpd2 :=
      set_pin_stats hpd1 pin
        (mk_stats (last_jiffies st1) (to_int (count st1 + increment)) (state st1)) in
    if count (pin_stats hpd2 pin) >? threshold
    then (true, set_pin_stats hpd2 pin (set_state HPD_MARK_DISABLED (pin_stats hpd2 pin)))
    else (false, hpd2).

(** One connector of the loop of [intel_hpd_irq_storm_switch_to_polling]:
    the state of the pins, the connector and [hpd_disabled] afterwards. *)
Definition storm_switch_connector (hpd : i915_hotplug) (hpd_disabled : bool)
    (c : intel_connector) : i915_hotplug * bool * intel_connector :=
  if negb (polled c =? DRM_CONNECTOR_POLL_HPD) then (hpd, hpd_disabled, c)
  else
    match encoder c with
    | None => (hpd, hpd_disabled, c)
    | Some enc =>
        let pin := hpd_pin enc in
        if (pin =? HPD_NONE)
           || negb (hpd_state_eqb (state (pin_stats hpd pin)) HPD_MARK_DISABLED)
        then (hpd, hpd_disabled, c)
        else
          (set_pin_stats hpd pin (set_state HPD_DISABLED (pin_stats hpd pin)),
           true,
           set_polled
             (Z.lor DRM_CONNECTOR_POLL_CONNECT DRM_CONNECTOR_POLL_DISCONNECT) c)
    end.

(** [drm_for_each_connector_iter] of the same function. *)
Fixpoint storm_switch_connectors (hpd : i915_hotplug) (hpd_disabled : bool)
    (cs : list intel_connector) : i915_hotplug * bool * list intel_connector :=
  match cs with
  | [] => (hpd, hpd_disabled, [])
  | c :: cs' =>
      let '(hpd1, dis1, c1) := storm_switch_connector hpd hpd_disabled c in
      let '(hpd2, dis2, cs2) := storm_switch_connectors hpd1 dis1 cs' in
      (hpd2, dis2, c1 :: cs2)
  end.

(** [intel_hpd_irq_storm_switch_to_polling]. *)
Definition intel_hpd_irq_storm_switch_to_polling (dev_priv : drm_i915_private)
  : drm_i915_private :=
  let '(hpd, hpd_disabled, cs) :=
    storm_switch_connectors (hotplug dev_priv) false (connectors dev_priv) in
  let d := with_connectors cs (with_hotplug hpd dev_priv) in
  if hpd_disabled
  then mod_delayed_work (msecs_to_jiffies HPD_STORM_REENABLE_DELAY)
         (do_call Call_drm_kms_helper_poll_enable d)
  else d.

(** One connector of the inner loop of [intel_hpd_irq_storm_reenable_work],
    for pin [i]. [intel_connector->encoder->hpd_pin] is read without a NULL
    check when the connector has no MST port: [None] is that fault. *)
Definition reenable_connector (i : Z) (c : intel_connector)
  : option intel_connector :=
  if mst_port c then Some c
  else
    match encoder c with
    | None => None
    | Some enc =>
        if hpd_pin enc =? i
        then
          let c1 := set_polled (intel_polled c) c in
          Some (if polled c1 =? 0
                then set_polled DRM_CONNECTOR_POLL_HPD c1
                else c1)
        else Some c
    end.

Fixpoint reenable_connectors (i : Z) (cs : list intel_connector)
  : option (list intel_connector) :=
  match cs with
  | [] => Some []
  | c :: cs' =>
      match reenable_connector i c with
      | None => None
      | Some c1 =>
          match reenable_connectors i cs' with
          | None => None
          | Some cs1 => Some (c1 :: cs1)
          end
      end
  end.

(** The body of [for_each_hpd_pin(i)] in
    [intel_hpd_irq_storm_reenable_work]. *)
Definition reenable_pin (s : i915_hotplug * list intel_connector) (i : Z)
  : option (i915_hotplug * list intel_connector) :=
  let '(hpd, cs) := s in
  if negb (hpd_state_eqb (state (pin_stats hpd i)) HPD_DISABLED) then Some s
  else
    let hpd1 := set_pin_stats hpd i (set_state HPD_ENABLED (pin_stats hpd i)) in
    match reenable_connectors i cs with
    | None => None
    | Some cs1 => Some (hpd1, cs1)
    end.

Fixpoint reenable_pins (s : i915_hotplug * list intel_connector) (pins : list Z)
  : option (i915_hotplug * list intel_connector) :=
  match pins with
  | [] => Some s
  | i :: pins' =>
      match reenable_pin s i with
      | None => None
      | Some s1 => reenable_pins s1 pins'
      end
  end.

(** [intel_hpd_irq_storm_reenable_work]. *)
Definition intel_hpd_irq_storm_reenable_work (dev_priv : drm_i915_private)
  : option drm_i915_private :=
  match reenable_pins (hotplug dev_priv, connectors dev_priv) for_each_hpd_pin with
  | None => None
  | Some (hpd, cs) =>
      let d := with_connectors cs (with_hotplug hpd dev_priv) in
      Some (if display_irqs_enabled d && has_hpd_irq_setup d
            then do_call Call_hpd_irq_setup d
            else d)
  end.

(** The locals of [intel_hpd_irq_handler] that live across its loop,
    with the hot-plug state. *)
Record irq_pass : Type := mk_pass {
  pass_hotplug : i915_hotplug;
  storm_detected : bool;
  queue_dig : bool;
  queue_hp : bool
}.

(** The body of [for_each_hpd_pin(i)] in [intel_hpd_irq_handler]. *)
Definition irq_handler_pin (cnl : bool) (jiffies pin_mask long_mask : Z)
    (a : irq_pass) (i : Z) : irq_pass :=
  if negb (Z.testbit pin_mask i) then a
  else
    let hpd := pass_hotplug a in
    let port := intel_hpd_pin_to_port cnl i in
    let is_dig_port := negb (port =? PORT_NONE) && irq_port_set hpd port in
    let long_hpd := if is_dig_port then Z.testbit long_mask i else true in
    let hpd1 :=
      if is_dig_port
      then
        if long_hpd
        then with_long_port_mask
               (to_u32 (Z.lor (long_port_mask hpd) (Z.shiftl 1 port))) hpd
        else with_short_port_mask
               (to_u32 (Z.lor (short_port_mask hpd) (Z.shiftl 1 port))) hpd
      else hpd in
    let qd := if is_dig_port then true else queue_dig a in
    match state (pin_stats hpd1 i) with
    | HPD_DISABLED => mk_pass hpd1 (storm_detected a) qd (queue_hp a)
    | HPD_MARK_DISABLED => mk_pass hpd1 (storm_detected a) qd (queue_hp a)
    | HPD_ENABLED =>
        let hpd2 :=
          if negb is_dig_port
          then with_event_bits (to_u32 (Z.lor (event_bits hpd1) (BIT i))) hpd1
          else hpd1 in
        let qh := if negb is_dig_port then true else queue_hp a in
        let '(storm, hpd3) := intel_hpd_irq_storm_detect hpd2 jiffies i long_hpd in
        if storm
        then mk_pass
               (with_event_bits
                  (to_u32 (Z.land (event_bits hpd3) (Z.lnot (BIT i)))) hpd3)
               true qd true
        else mk_pass hpd3 (storm_detected a) qd qh
    end.

(** The loop of [intel_hpd_irq_handler] over the pins [pins]. *)
Definition irq_handler_loop (cnl : bool) (jiffies pin_mask long_mask : Z)
    (a : irq_pass) (pins : list Z) : irq_pass :=
  fold_left (irq_handler_pin cnl jiffies pin_mask long_mask) pins a.

(** [intel_hpd_irq_handler]. *)
Definition intel_hpd_irq_handler (dev_priv : drm_i915_private) (jiffies : Z)
    (pin_mask long_mask : Z) : drm_i915_private :=
  if pin_mask =? 0 then dev_priv
  else
    let a :=
      irq_handler_loop (cnl_with_port_f dev_priv) jiffies pin_mask long_mask
        (mk_pass (hotplug dev_priv) false false false) for_each_hpd_pin in
    let d0 := with_hotplug (pass_hotplug a) dev_priv in
    let d1 :=
      if storm_detected a && display_irqs_enabled d0
      then do_call Call_hpd_irq_setup d0 else d0 in
    let d2 := if queue_dig a then do_call Call_queue_dig_port_work d1 else d1 in
    if queue_hp a then do_call Call_schedule_hotplug_work d2 else d2.

End Hotplug.

(** [intel_hpd_disable]: the returned [ret] and the state afterwards. *)
Definition intel_hpd_disable (dev_priv : drm_i915_private) (pin : Z)
  : bool * drm_i915_private :=
  if pin =? HPD_NONE then (false, dev_priv)
  else
    let hpd := hotplug dev_priv in
    if hpd_state_eqb (state (pin_stats hpd pin)) HPD_ENABLED
    then (true,
          with_hotplug
            (set_pin_stats hpd pin (set_state HPD_DISABLED (pin_stats hpd pin)))
            dev_priv)
    else (false, dev_priv).

(** [intel_hpd_enable]. *)
Definition intel_hpd_enable (dev_priv : drm_i915_private) (pin : Z)
  : drm_i915_private :=
  if pin =? HPD_NONE then dev_priv
  else
    let hpd := hotplug dev_priv in
    with_hotplug
      (set_pin_stats hpd pin (set_state HPD_ENABLED (pin_stats hpd pin)))
      dev_priv.

(** ** The jiffies macros the storm detector is built with

    [linux/jiffies.h] compares two [unsigned long] times through the sign of
    their difference, so that the comparison survives the wrap of the
    counter: [time_after_eq(a,b)] is [(long)((a) - (b)) >= 0],
    [time_before_eq(a,b)] is [time_after_eq(b,a)], and [time_in_range(a,b,c)],
    "whether a is in the range of [b, c]", is
    [time_after_eq(a,b) && time_before_eq(a,c)]. *)

Definition time_after_eq (a b : Z) : bool := 0 <=? to_long (a - b).
Definition time_before_eq (a b : Z) : bool := time_after_eq b a.
Definition time_in_range (a b c : Z) : bool :=
  time_after_eq a b && time_before_eq a c.

(** [msecs_to_jiffies] when [HZ] divides 1000 (and [m] is not negative as an
    [int]): [(m + (MSEC_PER_SEC / HZ) - 1) / (MSEC_PER_SEC / HZ)]. *)
Definition msecs_to_jiffies (HZ : Z) (m : Z) : Z :=
  (m + (1000 / HZ) - 1) / (1000 / HZ).

(** The storm detector as the kernel builds it, for a given [HZ]. *)
Definition storm_detect (HZ : Z) :=
  intel_hpd_irq_storm_detect time_in_range (msecs_to_jiffies HZ).

(** The elapsed time from [start] to [now] on the jiffies counter. *)
Definition elapsed (start now : Z) : Z := to_ulong (now - start).

(** ** Vocabulary of the statements *)

(** [pin] indexes an element of [stats[]]. *)
Definition valid_pin (hpd : i915_hotplug) (pin : Z) : Prop :=
  0 <= pin < Z.of_nat (length (stats hpd)).

(** The weight of a pulse in the count. *)
Definition pulse_weight (long_hpd : bool) : Z := if long_hpd then 10 else 1.

(** The count the new pulse is added to: the pin's count inside the
    window, 0 when the window is restarted. *)
Definition window_count (in_range : Z -> Z -> Z -> bool) (to_jiffies : Z -> Z)
    (hpd : i915_hotplug) (jiffies pin : Z) : Z :=
  let st := pin_stats hpd pin in
  if in_range jiffies (last_jiffies st)
       (to_ulong (last_jiffies st + to_jiffies HPD_STORM_DETECT_PERIOD))
  then count st else 0.

(** The storm detector called once per pulse of [pulses] (the time and the
    length of each) on one pin: whether any call reported a storm, and the
    state after the last. *)
Fixpoint detect_pulses (in_range : Z -> Z -> Z -> bool) (to_jiffies : Z -> Z)
    (hpd : i915_hotplug) (pin : Z) (pulses : list (Z * bool))
  : bool * i915_hotplug :=
  match pulses with
  | [] => (false, hpd)
  | (t, long_hpd) :: rest =>
      let '(storm, hpd1) :=
        intel_hpd_irq_storm_detect in_range to_jiffies hpd t pin long_hpd in
      let '(storms, hpd2) := detect_pulses in_range to_jiffies hpd1 pin rest in
      (storm || storms, hpd2)
  end.

(** Whether the dispatcher treats pin [i] as a digital port, and the pulse
    length it gives the storm detector for it. *)
Definition is_dig_port (cnl : bool) (hpd : i915_hotplug) (i : Z) : bool :=
  negb (intel_hpd_pin_to_port cnl i =? PORT_NONE)
  && irq_port_set hpd (intel_hpd_pin_to_port cnl i).

Definition pulse_is_long (cnl : bool) (hpd : i915_hotplug) (long_mask i : Z) : bool :=
  if is_dig_port cnl hpd i then Z.testbit long_mask i else true.

(** The connector is one the polling fallback acts on for [pin]. *)
Definition storm_candidate (pin : Z) (c : intel_connector) : bool :=
  (polled c =? DRM_CONNECTOR_POLL_HPD)
  && match encoder c with
     | Some enc => hpd_pin enc =? pin
     | None => false
     end.

(** Every connector without an MST port has an encoder. *)
Definition connectors_have_encoder (cs : list intel_connector) : Prop :=
  Forall (fun c => mst_port c = false -> encoder c <> None) cs.

(** The connector hangs on a pin that the re-enable work finds disabled. *)
Definition reenabled_connector (hpd : i915_hotplug) (c : intel_connector) : bool :=
  negb (mst_port c)
  && match encoder c with
     | Some enc =>
         (1 <=? hpd_pin enc) && (hpd_pin enc <? HPD_NUM_PINS)
         && hpd_state_eqb (state (pin_stats hpd (hpd_pin enc))) HPD_DISABLED
     | None => false
     end.

(** The polling mode the re-enable work gives a connector. *)
Definition restored_polled (c : intel_connector) : Z :=
  if intel_polled c =? 0 then DRM_CONNECTOR_POLL_HPD else intel_polled c.

(** The detection period in jiffies. *)
Definition detect_period (HZ : Z) : Z := msecs_to_jiffies HZ HPD_STORM_DETECT_PERIOD.

(** Threshold and short-pulse gate let a pulse of this length be counted. *)
Definition detector_counts (hpd : i915_hotplug) (long_hpd : bool) : Prop :=
  to_int (hpd_storm_threshold hpd) <> 0
  /\ (long_hpd = false -> hpd_short_storm_enabled hpd = true).

(** What the dispatcher's loop keeps of pin [i] while it handles other
    pins: the pin's stats and its pending event bit, the tunables and the
    registered ports; bits set in the port masks and the three flags, once
    set, stay set. *)
Definition pass_frame (i : Z) (a a' : irq_pass) : Prop :=
  let h := pass_hotplug a in
  let h' := pass_hotplug a' in
  pin_stats h' i = pin_stats h i
  /\ Z.testbit (event_bits h') i = Z.testbit (event_bits h) i
  /\ irq_port h' = irq_port h
  /\ hpd_storm_threshold h' = hpd_storm_threshold h
  /\ hpd_short_storm_enabled h' = hpd_short_storm_enabled h
  /\ length (stats h') = length (stats h)
  /\ (forall p, p < 32 -> Z.testbit (long_port_mask h) p = true ->
                Z.testbit (long_port_mask h') p = true)
  /\ (forall p, p < 32 -> Z.testbit (short_port_mask h) p = true ->
                Z.testbit (short_port_mask h') p = true)
  /\ (queue_dig a = true -> queue_dig a' = true)
  /\ (queue_hp a = true -> queue_hp a' = true)
  /\ (storm_detected a = true -> storm_detected a' = true).

(** The calls one run of the dispatcher makes, from the flags of its loop. *)
Definition dispatch_calls (irqs_enabled storm dig hp : bool) : list call :=
  (if storm && irqs_enabled then [Call_hpd_irq_setup] else [])
  ++ (if dig then [Call_queue_dig_port_work] else [])
  ++ (if hp then [Call_schedule_hotplug_work] else []).

(** The polling mode of the storm fallback. *)
Definition POLL_CONNECT_DISCONNECT : Z :=
  Z.lor DRM_CONNECTOR_POLL_CONNECT DRM_CONNECTOR_POLL_DISCONNECT.

(** The connector, without an MST port, hangs on pin [i]. *)
Definition connector_on_pin (i : Z) (c : intel_connector) : bool :=
  negb (mst_port c)
  && match encoder c with
     | Some enc => hpd_pin enc =? i
     | None => false
     end.

(** The connector with the polling mode the re-enable work gives it. *)
Definition restore_connector (c : intel_connector) : intel_connector :=
  set_polled (restored_polled c) c.

(** A device for the examples: every pin has the stats [st], no digital
    port is registered, no event is pending. *)
Definition example_hotplug (st : hpd_pin_stats) (threshold : Z)
    (short_storm_enabled : bool) : i915_hotplug :=
  mk_hotplug (replicate (Z.to_nat HPD_NUM_PINS) st) 0
    (replicate (Z.to_nat I915_MAX_PORTS) None) 0 0 false threshold
    short_storm_enabled.

Definition example_dev_priv (hpd : i915_hotplug) (irqs_enabled : bool)
    (cs : list intel_connector) : drm_i915_private :=
  mk_dev_priv hpd irqs_enabled true false cs None [].

(** ** The rest of the file: initialisation, the work functions, shutdown

    Calls out of the file that [call] does not list are returned beside the
    device, in the order they are made. *)

Definition with_poll_enabled (b : bool) (hpd : i915_hotplug) : i915_hotplug :=
  mk_hotplug (stats hpd) (event_bits hpd) (irq_port hpd) (long_port_mask hpd)
    (short_port_mask hpd) b (hpd_storm_threshold hpd)
    (hpd_short_storm_enabled hpd).

(** [enum irqreturn] of [linux/irqreturn.h]. *)
Inductive irqreturn : Type :=
  | IRQ_NONE
  | IRQ_HANDLED
  | IRQ_WAKE_THREAD.

(** The work items of [struct i915_hotplug]. *)
Inductive work_item : Type :=
  | Hotplug_work
  | Dig_port_work
  | Poll_init_work
  | Reenable_work.

Inductive outside_call : Type :=
  | Out_hpd_pulse (port : Z) (long_hpd : bool)  (* irq_port[port]->hpd_pulse() *)
  | Out_encoder_hotplug (connector : nat)       (* intel_encoder->hotplug() on the
                                                   connector at this place of the list *)
  | Out_hotplug_event                           (* drm_kms_helper_hotplug_event() *)
  | Out_hpd_irq_event                           (* drm_helper_hpd_irq_event() *)
  | Out_schedule_poll_init_work                 (* schedule_work(&poll_init_work) *)
  | Out_cancel_work_sync (w : work_item)
  | Out_cancel_delayed_work_sync (w : work_item).

(** The ports of [for (i = 0; i < I915_MAX_PORTS; i++)]. *)
Definition for_each_port : list Z :=
  map Z.of_nat (seq 0 (Z.to_nat I915_MAX_PORTS)).

(** The body of [for_each_hpd_pin(i)] in [intel_hpd_init]. *)
Definition hpd_init_pin (hpd : i915_hotplug) (i : Z) : i915_hotplug :=
  let hpd1 :=
    set_pin_stats hpd i
      (mk_stats (last_jiffies (pin_stats hpd i)) 0 (state (pin_stats hpd i))) in
  set_pin_stats hpd1 i (set_state HPD_ENABLED (pin_stats hpd1 i)).

(** [intel_hpd_init]. *)
Definition intel_hpd_init (dev_priv : drm_i915_private)
  : drm_i915_private * list outside_call :=
  let hpd := fold_left hpd_init_pin for_each_hpd_pin (hotplug dev_priv) in
  let d := with_hotplug (with_poll_enabled false hpd) dev_priv in
  let d1 :=
    if display_irqs_enabled d && has_hpd_irq_setup d
    then (if display_irqs_enabled d then do_call Call_hpd_irq_setup d else d)
    else d in
  (d1, [Out_schedule_poll_init_work]).

(** [intel_hpd_poll_init]. *)
Definition intel_hpd_poll_init (dev_priv : drm_i915_private)
  : drm_i915_private * list outside_call :=
  (with_hotplug (with_poll_enabled true (hotplug dev_priv)) dev_priv,
   [Out_schedule_poll_init_work]).

(** One connector of the loop of [i915_hpd_poll_init_work]; [has_hotplug] is
    [I915_HAS_HOTPLUG(dev_priv)]. The encoder is read, without a NULL check,
    only when the first two tests of the condition hold: [None] is that
    fault. *)
Definition poll_init_connector (has_hotplug enabled : bool) (c : intel_connector)
  : option intel_connector :=
  let c1 := set_polled (intel_polled c) c in
  if mst_port c then Some c1
  else if negb (polled c1 =? 0) then Some c1
  else if negb has_hotplug then Some c1
  else
    match encoder c with
    | None => None
    | Some enc =>
        if hpd_pin enc >? HPD_NONE
        then Some (set_polled
                     (if enabled
                      then Z.lor DRM_CONNECTOR_POLL_CONNECT DRM_CONNECTOR_POLL_DISCONNECT
                      else DRM_CONNECTOR_POLL_HPD) c1)
        else Some c1
    end.

Fixpoint poll_init_connectors (has_hotplug enabled : bool)
    (cs : list intel_connector) : option (list intel_connector) :=
  match cs with
  | [] => Some []
  | c :: cs' =>
      match poll_init_connector has_hotplug enabled c with
      | None => None
      | Some c1 =>
          match poll_init_connectors has_hotplug enabled cs' with
          | None => None
          | Some cs1 => Some (c1 :: cs1)
          end
      end
  end.

(** [i915_hpd_poll_init_work]. *)
Definition i915_hpd_poll_init_work (has_hotplug : bool)
    (dev_priv : drm_i915_private)
  : option (drm_i915_private * list outside_call) :=
  let enabled := poll_enabled (hotplug dev_priv) in
  match poll_init_connectors has_hotplug enabled (connectors dev_priv) with
  | None => None
  | Some cs =>
      let d := with_connectors cs dev_priv in
      Some (if enabled then do_call Call_drm_kms_helper_poll_enable d else d,
            if negb enabled then [Out_hpd_irq_event] else [])
  end.



Section Workers.

(** [port_hpd_pulse i] is [irq_port[i]->hpd_pulse]: [None] when the pointer
    is NULL, else what the hook returns for a long or a short pulse.
    [encoder_hotplug k] is what [intel_encoder->hotplug] returns for the
    connector at place [k] of the list. Each is called at most once for a
    port, respectively a connector, in one run of a work function. *)
Variable to_jiffies : Z -> Z.
Variable port_hpd_pulse : Z -> option (bool -> irqreturn).
Variable encoder_hotplug : nat -> bool.

(** The body of the loop over the ports in [i915_digport_work_func]: the
    local [old_bits] and the calls so far. *)
Definition digport_work_port (long_mask short_mask : Z) (hpd : i915_hotplug)
    (acc : Z * list outside_call) (i : Z) : Z * list outside_call :=
  let '(old_bits, log) := acc in
  match irq_port hpd !! Z.to_nat i with
  | Some (Some dig_port) =>
      match port_hpd_pulse i with
      | None => acc
      | Some hpd_pulse =>
          let long_hpd := Z.testbit long_mask i in
          let valid := long_hpd || Z.testbit short_mask i in
          if valid
          then
            match hpd_pulse long_hpd with
            | IRQ_NONE =>
                (to_u32 (Z.lor old_bits (Z.shiftl 1 (dig_port_hpd_pin dig_port))),
                 log ++ [Out_hpd_pulse i long_hpd])
            | _ => (old_bits, log ++ [Out_hpd_pulse i long_hpd])
            end
          else acc
      end
  | _ => acc
  end.

(** [i915_digport_work_func]. *)
Definition i915_digport_work_func (dev_priv : drm_i915_private)
  : drm_i915_private * list outside_call :=
  let hpd := hotplug dev_priv in
  let long_mask := long_port_mask hpd in
  let short_mask := short_port_mask hpd in
  let hpd1 := with_short_port_mask 0 (with_long_port_mask 0 hpd) in
  let r := fold_left (digport_work_port long_mask short_mask hpd1)
             for_each_port (0, []) in
  if negb (fst r =? 0)
  then (do_call Call_schedule_hotplug_work
          (with_hotplug
             (with_event_bits (to_u32 (Z.lor (event_bits hpd1) (fst r))) hpd1)
             dev_priv),
        snd r)
  else (with_hotplug hpd1 dev_priv, snd r).

(** One connector, at place [k] of the list, of the loop of
    [i915_hotplug_work_func]: the local [changed] and the calls so far. *)
Definition hotplug_work_connector (hpd_event_bits : Z)
    (acc : bool * list outside_call) (kc : nat * intel_connector)
  : bool * list outside_call :=
  match encoder (snd kc) with
  | None => acc
  | Some enc =>
      if Z.testbit hpd_event_bits (hpd_pin enc)
      then (fst acc || encoder_hotplug (fst kc),
            snd acc ++ [Out_encoder_hotplug (fst kc)])
      else acc
  end.

(** [i915_hotplug_work_func]. *)
Definition i915_hotplug_work_func (dev_priv : drm_i915_private)
  : drm_i915_private * list outside_call :=
  let hpd_event_bits := event_bits (hotplug dev_priv) in
  let d1 := with_hotplug (with_event_bits 0 (hotplug dev_priv)) dev_priv in
  let d2 := intel_hpd_irq_storm_switch_to_polling to_jiffies d1 in
  let r := fold_left (hotplug_work_connector hpd_event_bits)
             (combine (seq 0 (length (connectors d2))) (connectors d2))
             (false, []) in
  (d2, if fst r then snd r ++ [Out_hotplug_event] else snd r).

End Workers.

(** ** More vocabulary *)

(** The weight of a train of pulses. *)
Definition train_weight (pulses : list (Z * bool)) : Z :=
  fold_right (fun p acc => pulse_weight (snd p) + acc) 0 pulses.

(** The fallback loop would act on the connector: it is polled by
    hot-plug interrupt and its encoder hangs on a marked pin. *)
Definition storm_switchable (hpd : i915_hotplug) (c : intel_connector) : bool :=
  (polled c =? DRM_CONNECTOR_POLL_HPD)
  && match encoder c with
     | Some enc =>
         negb (hpd_pin enc =? HPD_NONE)
         && hpd_state_eqb (state (pin_stats hpd (hpd_pin enc))) HPD_MARK_DISABLED
     | None => false
     end.

(** In one run of the dispatcher: pin [i] fired, is enabled, and the storm
    detector reports a storm on it. *)
Definition pin_storms (in_range : Z -> Z -> Z -> bool) (to_jiffies : Z -> Z)
    (cnl : bool) (hpd : i915_hotplug) (jiffies pin_mask long_mask i : Z) : bool :=
  Z.testbit pin_mask i
  && hpd_state_eqb (state (pin_stats hpd i)) HPD_ENABLED
  && fst (intel_hpd_irq_storm_detect in_range to_jiffies hpd jiffies i
            (pulse_is_long cnl hpd long_mask i)).

(** Pin [i] fired and belongs to a registered digital port. *)
Definition pin_queues_dig (cnl : bool) (hpd : i915_hotplug) (pin_mask i : Z) : bool :=
  Z.testbit pin_mask i && is_dig_port cnl hpd i.

(** Pin [i] fired, is enabled and has no registered digital port. *)
Definition pin_delivers (cnl : bool) (hpd : i915_hotplug) (pin_mask i : Z) : bool :=
  Z.testbit pin_mask i
  && hpd_state_eqb (state (pin_stats hpd i)) HPD_ENABLED
  && negb (is_dig_port cnl hpd i).

(** The hook of port [i] is called by the digital-port work. *)
Definition port_pulsed (port_hpd_pulse : Z -> option (bool -> irqreturn))
    (hpd : i915_hotplug) (i : Z) : bool :=
  irq_port_set hpd i
  && match port_hpd_pulse i with Some _ => true | None => false end
  && (Z.testbit (long_port_mask hpd) i || Z.testbit (short_port_mask hpd) i).

(** The hook of port [i] reports the pulse as not handled. *)
Definition port_not_handled (port_hpd_pulse : Z -> option (bool -> irqreturn))
    (hpd : i915_hotplug) (i : Z) : bool :=
  port_pulsed port_hpd_pulse hpd i
  && match port_hpd_pulse i with
     | Some hpd_pulse =>
         match hpd_pulse (Z.testbit (long_port_mask hpd) i) with
         | IRQ_NONE => true
         | _ => false
         end
     | None => false
     end.

(** The connector at place [k] is probed by the hot-plug work for the
    drained event bits [bits]. *)
Definition connector_probed (bits : Z) (cs : list intel_connector) (k : nat) : bool :=
  match cs !! k with
  | Some c =>
      match encoder c with
      | Some enc => Z.testbit bits (hpd_pin enc)
      | None => false
      end
  | None => false
  end.

(** The polling mode [i915_hpd_poll_init_work] gives a connector. *)
Definition poll_init_polled (has_hotplug enabled : bool) (c : intel_connector) : Z :=
  if negb (intel_polled c =? 0) then intel_polled c
  else if mst_port c then 0
  else
    match encoder c with
    | Some enc =>
        if has_hotplug && (hpd_pin enc >? HPD_NONE)
        then (if enabled then POLL_CONNECT_DISCONNECT else DRM_CONNECTOR_POLL_HPD)
        else 0
    | None => 0
    end.

(** The pin of the digital port registered for port [i]. *)
Definition port_pin (hpd : i915_hotplug) (i : Z) : Z :=
  match irq_port hpd !! Z.to_nat i with
  | Some (Some dig_port) => dig_port_hpd_pin dig_port
  | _ => HPD_NONE
  end.

(** The pins of the registered digital ports are pins of the enumeration
    (they index a bit of the 32 pending event bits). *)
Definition irq_ports_have_pins (hpd : i915_hotplug) : Prop :=
  forall i dig_port,
    irq_port hpd !! Z.to_nat i = Some (Some dig_port) ->
    0 <= dig_port_hpd_pin dig_port < 32.

(** The connector of the pair is probed for the event bits [bits]. *)
Definition pair_probed (bits : Z) (kc : nat * intel_connector) : bool :=
  match encoder (snd kc) with
  | Some enc => Z.testbit bits (hpd_pin enc)
  | None => false
  end.

(** The connectors the hot-plug work probes for [bits], by place. *)
Definition probed_connectors (bits : Z) (cs : list intel_connector) : list nat :=
  List.filter (connector_probed bits cs) (seq 0 (length cs)).

(** How often the connector at place [k] is probed in the calls [log]. *)
Definition count_probes (k : nat) (log : list outside_call) : nat :=
  length (List.filter (fun x => match x with
                                | Out_encoder_hotplug k' => Nat.eqb k' k
                                | _ => false
                                end) log).

(** * Properties *)

(** ** Integer conversions and bits *)

Lemma to_int_id (x : Z) : INT_MIN <= x <= INT_MAX -> to_int x = x.
Proof.
  unfold to_int, INT_MIN, INT_MAX. intros H.
  rewrite Z.mod_small; lia.
Qed.

Lemma testbit_BIT (i j : Z) : 0 <= j -> Z.testbit (BIT j) i = (j =? i).
Proof.
  intros Hj. unfold BIT. rewrite Z.shiftl_1_l. now apply Z.pow2_bits_eqb.
Qed.

Lemma testbit_to_u32 (x i : Z) : i < 32 -> Z.testbit (to_u32 x) i = Z.testbit x i.
Proof.
  intros Hi. unfold to_u32.
  destruct (Z.neg_nonneg_cases i) as [Hn | Hn].
  - now rewrite !Z.testbit_neg_r.
  - apply Z.mod_pow2_bits_low. lia.
Qed.

Lemma testbit_set_bit (x i j : Z) :
  0 <= j -> i < 32 ->
  Z.testbit (to_u32 (Z.lor x (BIT j))) i = Z.testbit x i || (j =? i).
Proof.
  intros Hj Hi. rewrite testbit_to_u32 by assumption.
  now rewrite Z.lor_spec, testbit_BIT.
Qed.

Lemma testbit_clear_bit (x i j : Z) :
  0 <= j -> 0 <= i < 32 ->
  Z.testbit (to_u32 (Z.land x (Z.lnot (BIT j)))) i = Z.testbit x i && negb (j =? i).
Proof.
  intros Hj Hi. rewrite testbit_to_u32 by lia.
  rewrite Z.land_spec, Z.lnot_spec by lia. now rewrite testbit_BIT.
Qed.

(** ** Reading and writing [stats[]] *)

Lemma pin_stats_set_eq (hpd : i915_hotplug) (pin : Z) (st : hpd_pin_stats) :
  valid_pin hpd pin -> pin_stats (set_pin_stats hpd pin st) pin = st.
Proof.
  unfold valid_pin, pin_stats, set_pin_stats. intros H. cbn.
  rewrite list_lookup_insert_eq by lia. reflexivity.
Qed.

Lemma pin_stats_set_ne (hpd : i915_hotplug) (i j : Z) (st : hpd_pin_stats) :
  0 <= i -> 0 <= j -> i <> j ->
  pin_stats (set_pin_stats hpd j st) i = pin_stats hpd i.
Proof.
  unfold pin_stats, set_pin_stats. intros Hi Hj Hne. cbn.
  rewrite list_lookup_insert_ne by lia. reflexivity.
Qed.

Lemma valid_pin_set (hpd : i915_hotplug) (i j : Z) (st : hpd_pin_stats) :
  valid_pin (set_pin_stats hpd j st) i <-> valid_pin hpd i.
Proof.
  unfold valid_pin, set_pin_stats. cbn. now rewrite length_insert.
Qed.

(** ** Pin/port mapping *)

(** One case of a [switch] on [x]: the case taken, with [x] replaced by its
    label, then the rest. *)
Ltac switch_case x :=
  match goal with
  | |- context [x =? ?c] => destruct (Z.eqb_spec x c) as [-> | ?]
  end.

(** C9, as stated, fails: with the alternate pairing, [PORT_E] has the pin
    [HPD_PORT_E], and that pin belongs to [PORT_F]. *)
Lemma pin_to_port_not_inverse :
  ~ (forall (cnl : bool) (port : Z),
       intel_hpd_pin_default cnl port <> HPD_NONE ->
       intel_hpd_pin_to_port cnl (intel_hpd_pin_default cnl port) = port).
Proof.
  intros H. specialize (H true PORT_E). vm_compute in H.
  assert (5 = 4) as E by (apply H; discriminate). discriminate E.
Qed.

(** C9 (amended): [intel_hpd_pin_to_port] undoes [intel_hpd_pin_default] on
    every port that has a pin, except [PORT_E] when the platform has the
    alternate pairing (there [HPD_PORT_E] belongs to [PORT_F]). With the
    alternate pairing [PORT_F] and [HPD_PORT_E] map to each other; without
    it every port A to F is paired with the pin of its name; a pin or a port
    the switch does not name gives [PORT_NONE], respectively [HPD_NONE]. *)
Theorem pin_port_mapping (cnl : bool) (port : Z) :
  intel_hpd_pin_default cnl port <> HPD_NONE ->
  (cnl = true -> port <> PORT_E) ->
  intel_hpd_pin_to_port cnl (intel_hpd_pin_default cnl port) = port
  /\ (intel_hpd_pin_default true PORT_F = HPD_PORT_E
      /\ intel_hpd_pin_to_port true HPD_PORT_E = PORT_F)
  /\ (map (intel_hpd_pin_default false)
        [PORT_A; PORT_B; PORT_C; PORT_D; PORT_E; PORT_F]
      = [HPD_PORT_A; HPD_PORT_B; HPD_PORT_C; HPD_PORT_D; HPD_PORT_E; HPD_PORT_F]
      /\ map (intel_hpd_pin_to_port false)
           [HPD_PORT_A; HPD_PORT_B; HPD_PORT_C; HPD_PORT_D; HPD_PORT_E; HPD_PORT_F]
         = [PORT_A; PORT_B; PORT_C; PORT_D; PORT_E; PORT_F])
  /\ (forall (c : bool) (pin : Z),
        ~ In pin [HPD_PORT_A; HPD_PORT_B; HPD_PORT_C; HPD_PORT_D; HPD_PORT_E; HPD_PORT_F] ->
        intel_hpd_pin_to_port c pin = PORT_NONE)
  /\ (forall (c : bool) (p : Z),
        ~ In p [PORT_A; PORT_B; PORT_C; PORT_D; PORT_E; PORT_F] ->
        intel_hpd_pin_default c p = HPD_NONE).
Proof.
  intros Hpin Halt. repeat split.
  - revert Hpin Halt. unfold intel_hpd_pin_default.
    repeat (switch_case port;
            [ destruct cnl;
              intros _ H; first [ reflexivity | exfalso; now apply H ] |]).
    intros Hpin; now elim Hpin.
  - intros c pin Hnot. unfold intel_hpd_pin_to_port.
    repeat (switch_case pin; [ exfalso; apply Hnot; simpl; tauto |]).
    reflexivity.
  - intros c p Hnot. unfold intel_hpd_pin_default.
    repeat (switch_case p; [ exfalso; apply Hnot; simpl; tauto |]).
    reflexivity.
Qed.

Lemma pin_port_mapping_witness :
  intel_hpd_pin_to_port true (intel_hpd_pin_default true PORT_F) = PORT_F.
Proof.
  apply (pin_port_mapping true PORT_F); [ discriminate | discriminate ].
Defined.

Lemma pin_to_port_range (cnl : bool) (pin : Z) :
  intel_hpd_pin_to_port cnl pin = PORT_NONE
  \/ 0 <= intel_hpd_pin_to_port cnl pin < I915_MAX_PORTS.
Proof.
  unfold intel_hpd_pin_to_port.
  repeat (destruct (_ =? _); [ right; destruct cnl; vm_compute; intuition discriminate |]).
  now left.
Qed.

Lemma set_pin_stats_twice (hpd : i915_hotplug) (pin : Z) (a b : hpd_pin_stats) :
  set_pin_stats (set_pin_stats hpd pin a) pin b = set_pin_stats hpd pin b.
Proof.
  unfold set_pin_stats, with_stats. cbn. now rewrite list_insert_insert_eq.
Qed.

(** ** The storm detector *)

Section Detector.

Variable in_range : Z -> Z -> Z -> bool.
Variable to_jiffies : Z -> Z.

Local Abbreviation detect := (intel_hpd_irq_storm_detect in_range to_jiffies).
Local Abbreviation base_count := (window_count in_range to_jiffies).

(** The detector is switched off: nothing is read or written. *)
Lemma detect_off (hpd : i915_hotplug) (jiffies pin : Z) (long_hpd : bool) :
  to_int (hpd_storm_threshold hpd) = 0
  \/ (long_hpd = false /\ hpd_short_storm_enabled hpd = false) ->
  detect hpd jiffies pin long_hpd = (false, hpd).
Proof.
  unfold intel_hpd_irq_storm_detect.
  intros [-> | [-> ->]]; cbn; [reflexivity | now rewrite orb_true_r].
Qed.

(** The detector at work, in one equation: the window is restarted or
    kept, the weight is added, the count is compared to the threshold. *)
Lemma detect_on (hpd : i915_hotplug) (jiffies pin : Z) (long_hpd : bool) :
  valid_pin hpd pin ->
  to_int (hpd_storm_threshold hpd) <> 0 ->
  (long_hpd = false -> hpd_short_storm_enabled hpd = true) ->
  let st := pin_stats hpd pin in
  let inside :=
    in_range jiffies (last_jiffies st)
      (to_ulong (last_jiffies st + to_jiffies HPD_STORM_DETECT_PERIOD)) in
  let c := to_int (base_count hpd jiffies pin + pulse_weight long_hpd) in
  let storm := c >? to_int (hpd_storm_threshold hpd) in
  detect hpd jiffies pin long_hpd
  = (storm,
     set_pin_stats hpd pin
       (mk_stats (if inside then last_jiffies st else jiffies) c
          (if storm then HPD_MARK_DISABLED else state st))).
Proof.
  intros Hpin Hthr Hshort. cbv zeta.
  unfold intel_hpd_irq_storm_detect, window_count, pulse_weight.
  apply Z.eqb_neq in Hthr. rewrite Hthr. cbn [orb].
  replace (negb long_hpd && negb (hpd_short_storm_enabled hpd)) with false
    by (destruct long_hpd; [reflexivity | now rewrite Hshort]).
  destruct (in_range jiffies _ _); cbn [negb].
  - rewrite !pin_stats_set_eq by assumption. cbn [count last_jiffies state].
    destruct (_ >? _); [rewrite set_pin_stats_twice |]; reflexivity.
  - assert (valid_pin
              (set_pin_stats hpd pin (mk_stats jiffies 0 (state (pin_stats hpd pin))))
              pin) as Hpin' by now apply valid_pin_set.
    rewrite !pin_stats_set_eq by (try apply valid_pin_set; assumption).
    cbn [count last_jiffies state].
    destruct (_ >? _); rewrite !set_pin_stats_twice; reflexivity.
Qed.

(** The detector touches [stats[pin]] and nothing else. *)
Lemma detect_frame (hpd : i915_hotplug) (jiffies pin : Z) (long_hpd : bool) :
  let hpd' := snd (detect hpd jiffies pin long_hpd) in
  event_bits hpd' = event_bits hpd
  /\ irq_port hpd' = irq_port hpd
  /\ long_port_mask hpd' = long_port_mask hpd
  /\ short_port_mask hpd' = short_port_mask hpd
  /\ hpd_storm_threshold hpd' = hpd_storm_threshold hpd
  /\ hpd_short_storm_enabled hpd' = hpd_short_storm_enabled hpd
  /\ length (stats hpd') = length (stats hpd)
  /\ (forall i, 0 <= i -> 0 <= pin -> i <> pin -> pin_stats hpd' i = pin_stats hpd i).
Proof.
  cbv zeta. unfold intel_hpd_irq_storm_detect.
  destruct (_ || _); [cbn; tauto |].
  destruct (negb _); destruct (_ >? _); cbn;
    rewrite ?length_insert; repeat split;
    intros i Hi Hp Hne; unfold pin_stats; cbn;
    rewrite ?list_lookup_insert_ne by lia; reflexivity.
Qed.

(** What the detector returns depends on the pin's own stats and on the
    two tunables only. *)
Lemma detect_storm_local (hpd hpd' : i915_hotplug) (jiffies pin : Z) (long_hpd : bool) :
  valid_pin hpd pin -> valid_pin hpd' pin ->
  pin_stats hpd' pin = pin_stats hpd pin ->
  hpd_storm_threshold hpd' = hpd_storm_threshold hpd ->
  hpd_short_storm_enabled hpd' = hpd_short_storm_enabled hpd ->
  fst (detect hpd' jiffies pin long_hpd) = fst (detect hpd jiffies pin long_hpd).
Proof.
  intros Hv Hv' Hst Hthr Hshort.
  destruct (Z.eq_dec (to_int (hpd_storm_threshold hpd)) 0) as [H0 | H0].
  { rewrite !detect_off; [reflexivity | now left | left; congruence]. }
  destruct long_hpd, (hpd_short_storm_enabled hpd) eqn:Es;
    try (rewrite !detect_off; [reflexivity | now right | right; split; congruence]).
  all: rewrite !detect_on by (try assumption; try congruence; intros; congruence).
  all: cbn [fst]; unfold window_count; now rewrite Hst, Hthr.
Qed.

(** C1: with a threshold [T > 0], and short pulses counted when the pulse is
    short, a call adds 10 for a long pulse and 1 for a short one to the
    pin's count (the count of the running window, 0 when the window is
    restarted; the sum is an [int], and is the exact sum whenever that fits),
    returns true exactly when the new count exceeds [T], sets the state to
    [HPD_MARK_DISABLED] in that case and leaves it as it was otherwise. *)
Theorem storm_detect_counts (hpd : i915_hotplug) (jiffies pin : Z) (long_hpd : bool) :
  valid_pin hpd pin ->
  0 < to_int (hpd_storm_threshold hpd) ->
  (long_hpd = false -> hpd_short_storm_enabled hpd = true) ->
  let T := to_int (hpd_storm_threshold hpd) in
  let base := base_count hpd jiffies pin in
  let storm := fst (detect hpd jiffies pin long_hpd) in
  let st' := pin_stats (snd (detect hpd jiffies pin long_hpd)) pin in
  count st' = to_int (base + (if long_hpd then 10 else 1))
  /\ (INT_MIN <= base <= INT_MAX - 10 ->
      count st' = base + (if long_hpd then 10 else 1))
  /\ storm = (count st' >? T)
  /\ (storm = true -> state st' = HPD_MARK_DISABLED)
  /\ (storm = false -> state st' = state (pin_stats hpd pin)).
Proof.
  intros Hpin HT Hshort. cbv zeta.
  rewrite detect_on by (try assumption; lia). cbn [fst snd].
  rewrite pin_stats_set_eq by assumption. cbn [count state].
  fold (pulse_weight long_hpd).
  repeat split.
  - intros Hb. apply to_int_id. unfold pulse_weight, INT_MIN, INT_MAX in *.
    destruct long_hpd; lia.
  - now intros ->.
  - now intros ->.
Qed.

(** Short pulses that are not counted leave everything as it is, however
    many of them come. *)
Lemma detect_pulses_short_off (hpd : i915_hotplug) (pin : Z) (times : list Z) :
  hpd_short_storm_enabled hpd = false ->
  detect_pulses in_range to_jiffies hpd pin (map (fun t => (t, false)) times)
  = (false, hpd).
Proof.
  intros Hoff. induction times as [| t times IH]; cbn [map detect_pulses].
  - reflexivity.
  - rewrite detect_off by (right; now split). now rewrite IH.
Qed.

(** With the threshold 0 no sequence of pulses does anything either. *)
Lemma detect_pulses_threshold_0 (hpd : i915_hotplug) (pin : Z)
    (pulses : list (Z * bool)) :
  hpd_storm_threshold hpd = 0 ->
  detect_pulses in_range to_jiffies hpd pin pulses = (false, hpd).
Proof.
  intros H0. induction pulses as [| [t l] pulses IH]; cbn [detect_pulses].
  - reflexivity.
  - rewrite detect_off by (left; now rewrite H0). now rewrite IH.
Qed.

(** C3: with the threshold 0 the detector returns false for every pulse,
    long or short, and changes nothing; with short-storm detection off, any
    number of short pulses returns false and changes nothing, while a long
    pulse is counted as ever and reports a storm as soon as the count
    exceeds the threshold (so a single one does when the threshold is below
    10). *)
Theorem storm_detect_gating (hpd : i915_hotplug) (jiffies pin : Z) :
  valid_pin hpd pin ->
  (hpd_storm_threshold hpd = 0 ->
     (forall long_hpd, detect hpd jiffies pin long_hpd = (false, hpd))
     /\ (forall pulses,
           detect_pulses in_range to_jiffies hpd pin pulses = (false, hpd)))
  /\ (hpd_short_storm_enabled hpd = false ->
        detect hpd jiffies pin false = (false, hpd)
        /\ (forall times,
              detect_pulses in_range to_jiffies hpd pin
                (map (fun t => (t, false)) times) = (false, hpd))
        /\ (0 < to_int (hpd_storm_threshold hpd) ->
              fst (detect hpd jiffies pin true)
              = (to_int (base_count hpd jiffies pin + 10)
                 >? to_int (hpd_storm_threshold hpd)))
        /\ (0 < to_int (hpd_storm_threshold hpd) < 10 ->
            0 <= base_count hpd jiffies pin <= INT_MAX - 10 ->
              fst (detect hpd jiffies pin true) = true
              /\ state (pin_stats (snd (detect hpd jiffies pin true)) pin)
                 = HPD_MARK_DISABLED)).
Proof.
  intros Hpin. split.
  - intros H0. split.
    + intros l. apply detect_off. left. now rewrite H0.
    + intros pulses. now apply detect_pulses_threshold_0.
  - intros Hoff. repeat split.
    + apply detect_off. right. now split.
    + intros times. now apply detect_pulses_short_off.
    + intros HT. rewrite detect_on by (try assumption; try lia; discriminate).
      reflexivity.
    + rewrite detect_on by (try assumption; try lia; discriminate).
      cbn [fst pulse_weight]. rewrite to_int_id by (unfold INT_MIN, INT_MAX in *; lia). lia.
    + rewrite detect_on by (try assumption; try lia; discriminate).
      cbn [snd pulse_weight]. rewrite pin_stats_set_eq by assumption. cbn [state].
      rewrite to_int_id by (unfold INT_MIN, INT_MAX in *; lia).
      replace (_ >? _) with true by lia. reflexivity.
Qed.

End Detector.

(** ** The detection window *)

(** [time_in_range(now, start, start + P)] holds exactly when at most [P]
    jiffies have passed since [start], the bound included. *)
Lemma time_in_range_elapsed (now start P : Z) :
  0 <= P < 2 ^ 63 ->
  time_in_range now start (to_ulong (start + P)) = (elapsed start now <=? P).
Proof.
  intros HP.
  unfold time_in_range, time_before_eq, time_after_eq, elapsed, to_long, to_ulong,
    BITS_PER_LONG.
  change (2 ^ (64 - 1)) with 9223372036854775808 in *.
  change (2 ^ 63) with 9223372036854775808 in *.
  change (2 ^ 64) with 18446744073709551616 in *.
  destruct (_ <=? P) eqn:E; [apply Z.leb_le in E | apply Z.leb_gt in E].
  - apply andb_true_intro; split; apply Z.leb_le;
      Z.to_euclidean_division_equations; lia.
  - apply andb_false_iff.
    destruct (Z.leb_spec 0
                ((now - start + 9223372036854775808) mod 18446744073709551616
                 - 9223372036854775808)); [right | now left].
    apply Z.leb_gt. Z.to_euclidean_division_equations; lia.
Qed.

(** The pin's stats after a counted pulse, by the time elapsed. *)
Lemma storm_detect_stats (HZ : Z) (hpd : i915_hotplug) (now pin : Z) (long_hpd : bool) :
  valid_pin hpd pin ->
  0 <= detect_period HZ < 2 ^ 63 ->
  detector_counts hpd long_hpd ->
  let st := pin_stats hpd pin in
  let st' := pin_stats (snd (storm_detect HZ hpd now pin long_hpd)) pin in
  let inside := elapsed (last_jiffies st) now <=? detect_period HZ in
  last_jiffies st' = (if inside then last_jiffies st else now)
  /\ count st' = to_int ((if inside then count st else 0) + pulse_weight long_hpd).
Proof.
  intros Hpin HP [Hthr Hshort]. cbv zeta. unfold storm_detect.
  rewrite detect_on by assumption. cbn [snd].
  rewrite pin_stats_set_eq by assumption. cbn [last_jiffies count].
  unfold window_count. fold (detect_period HZ).
  rewrite time_in_range_elapsed by assumption. split; reflexivity.
Qed.

(** C2, as stated, fails at the end of the window: a pulse that comes
    exactly one period after the start of the window is outside
    [[start, start + period)], and is still added to the running count. *)
Lemma storm_window_not_half_open :
  ~ (forall (hpd : i915_hotplug) (now pin : Z) (long_hpd : bool),
       valid_pin hpd pin ->
       detector_counts hpd long_hpd ->
       let st := pin_stats hpd pin in
       let st' := pin_stats (snd (storm_detect 1000 hpd now pin long_hpd)) pin in
       ~ (last_jiffies st <= now < last_jiffies st + detect_period 1000) ->
       last_jiffies st' = now /\ count st' = pulse_weight long_hpd).
Proof.
  intros H.
  pose (hpd := example_hotplug (mk_stats 5000 10 HPD_ENABLED) 50 false).
  assert (valid_pin hpd HPD_PORT_A) as Hv
    by (unfold valid_pin; vm_compute; split; [discriminate | reflexivity]).
  assert (detector_counts hpd true) as Hc
    by (split; [vm_compute; discriminate | discriminate]).
  destruct (H hpd 6000 HPD_PORT_A true Hv Hc) as [E _].
  - vm_compute. intros [_ Hlt]. discriminate Hlt.
  - vm_compute in E. discriminate E.
Qed.

(** As long as the counter does not wrap between [start] and the end of
    the window, the elapsed time is within the period exactly on the closed
    interval [[start, start + P]]. *)
Lemma elapsed_window (start now P : Z) :
  0 <= P ->
  0 <= start -> start + P < 2 ^ 64 -> 0 <= now < 2 ^ 64 ->
  (elapsed start now <=? P) = (start <=? now) && (now <=? start + P).
Proof.
  unfold elapsed, to_ulong, BITS_PER_LONG.
  change (2 ^ 64) with 18446744073709551616. intros HP Hs He Hn.
  destruct (Z.leb_spec start now).
  - rewrite Z.mod_small by lia. cbn [andb].
    destruct (Z.leb_spec (now - start) P), (Z.leb_spec now (start + P)); lia.
  - cbn [andb]. apply Z.leb_gt.
    replace (now - start) with (now - start + 18446744073709551616
                                + (-1) * 18446744073709551616) by lia.
    rewrite Z.mod_add by lia. rewrite Z.mod_small by lia. lia.
Qed.

(** C2 (amended): the window is closed, [[windowStart, windowStart + period]]
    in jiffies. A counted pulse at a time outside it first sets the start of
    the window to that time and the count to 0, so that the count becomes the
    weight of the pulse; a pulse inside it, the last jiffy of the period
    included, keeps the start and is added to the count. Consequently a
    pulse that comes more than one period after another never shares a count
    with it. *)
Theorem storm_detect_window (HZ : Z) (hpd : i915_hotplug) (now pin : Z)
    (long_hpd : bool) :
  valid_pin hpd pin ->
  0 <= detect_period HZ < 2 ^ 63 ->
  detector_counts hpd long_hpd ->
  0 <= last_jiffies (pin_stats hpd pin) ->
  last_jiffies (pin_stats hpd pin) + detect_period HZ < 2 ^ 64 ->
  0 <= now < 2 ^ 64 ->
  let st := pin_stats hpd pin in
  let hpd' := snd (storm_detect HZ hpd now pin long_hpd) in
  let st' := pin_stats hpd' pin in
  (~ (last_jiffies st <= now <= last_jiffies st + detect_period HZ) ->
     last_jiffies st' = now /\ count st' = pulse_weight long_hpd)
  /\ (last_jiffies st <= now <= last_jiffies st + detect_period HZ ->
        last_jiffies st' = last_jiffies st
        /\ count st' = to_int (count st + pulse_weight long_hpd))
  /\ (forall (later : Z) (long2 : bool),
        detector_counts hpd long2 ->
        now + detect_period HZ < later < 2 ^ 64 ->
        count (pin_stats (snd (storm_detect HZ hpd' later pin long2)) pin)
        = pulse_weight long2).
Proof.
  intros Hpin HP Hc Hs He Hn. cbv zeta.
  pose proof (storm_detect_stats HZ hpd now pin long_hpd Hpin HP Hc) as [Hj Hcnt].
  cbv zeta in Hj, Hcnt.
  rewrite elapsed_window in Hj, Hcnt by lia.
  assert (forall l, to_int (0 + pulse_weight l) = pulse_weight l) as Hw
    by (intros []; reflexivity).
  split; [| split].
  - intros Hout. rewrite Hj, Hcnt.
    destruct (Z.leb_spec (last_jiffies (pin_stats hpd pin)) now);
      destruct (Z.leb_spec now (last_jiffies (pin_stats hpd pin) + detect_period HZ));
      cbn [andb]; try (split; [reflexivity | apply Hw]).
    exfalso. apply Hout. lia.
  - intros Hin. rewrite Hj, Hcnt.
    replace (_ && _) with true by lia. split; reflexivity.
  - intros later long2 Hc2 Hlater.
    set (hpd' := snd (storm_detect HZ hpd now pin long_hpd)) in *.
    destruct (detect_frame time_in_range (msecs_to_jiffies HZ) hpd now pin long_hpd)
      as (_ & _ & _ & _ & Hthr & Hsh & Hlen & _).
    fold (storm_detect HZ) in Hthr, Hsh, Hlen. fold hpd' in Hthr, Hsh, Hlen.
    assert (valid_pin hpd' pin) as Hpin'
      by (unfold valid_pin in *; now rewrite Hlen).
    assert (detector_counts hpd' long2) as Hc2'
      by (unfold detector_counts in *; now rewrite Hthr, Hsh).
    destruct (storm_detect_stats HZ hpd' later pin long2 Hpin' HP Hc2') as [_ Hcnt2].
    rewrite Hcnt2.
    replace (elapsed (last_jiffies (pin_stats hpd' pin)) later <=? detect_period HZ)
      with false; [apply Hw |].
    symmetry. apply Z.leb_gt. rewrite Hj.
    destruct (_ && _) eqn:Ein.
    + apply andb_true_iff in Ein as [E1 E2]. apply Z.leb_le in E1, E2.
      unfold elapsed, to_ulong, BITS_PER_LONG.
      change (2 ^ 64) with 18446744073709551616 in *.
      rewrite Z.mod_small; lia.
    + unfold elapsed, to_ulong, BITS_PER_LONG.
      change (2 ^ 64) with 18446744073709551616 in *.
      rewrite Z.mod_small; lia.
Qed.

(** ** Administrative disable *)

(** C6, as stated, fails: a disable request on a pin that is marked for
    disabling after a storm changes nothing, and the pin stays
    [HPD_MARK_DISABLED]. *)
Lemma hpd_disable_keeps_mark_disabled :
  ~ (forall (dev_priv : drm_i915_private) (pin : Z),
       valid_pin (hotplug dev_priv) pin -> pin <> HPD_NONE ->
       state (pin_stats (hotplug (snd (intel_hpd_disable dev_priv pin))) pin)
       = HPD_DISABLED).
Proof.
  intros H.
  pose (d := example_dev_priv
               (example_hotplug (mk_stats 0 60 HPD_MARK_DISABLED) 50 false)
               true []).
  assert (valid_pin (hotplug d) HPD_PORT_B) as Hv
    by (unfold valid_pin; vm_compute; split; [discriminate | reflexivity]).
  specialize (H d HPD_PORT_B Hv). vm_compute in H.
  assert (HPD_MARK_DISABLED = HPD_DISABLED) as E by (apply H; discriminate).
  discriminate E.
Qed.

(** C6 (amended): a disable request takes an [HPD_ENABLED] pin to
    [HPD_DISABLED] and returns true; on a pin in any other state it changes
    nothing and returns false, so that an [HPD_DISABLED] pin stays disabled
    and an [HPD_MARK_DISABLED] pin stays marked. It returns true exactly when
    it changed the state; from [HPD_ENABLED] two calls in a row return true,
    then false, and leave the pin [HPD_DISABLED]. *)
Theorem hpd_disable_spec (dev_priv : drm_i915_private) (pin : Z) :
  valid_pin (hotplug dev_priv) pin ->
  pin <> HPD_NONE ->
  let s := state (pin_stats (hotplug dev_priv) pin) in
  let once := intel_hpd_disable dev_priv pin in
  let twice := intel_hpd_disable (snd once) pin in
  let state_after r := state (pin_stats (hotplug (snd r)) pin) in
  fst once = hpd_state_eqb s HPD_ENABLED
  /\ state_after once
     = match s with
       | HPD_ENABLED => HPD_DISABLED
       | HPD_DISABLED => HPD_DISABLED
       | HPD_MARK_DISABLED => HPD_MARK_DISABLED
       end
  /\ (s <> HPD_ENABLED -> once = (false, dev_priv))
  /\ twice = (false, snd once)
  /\ (s = HPD_ENABLED ->
      fst once = true /\ fst twice = false /\ state_after twice = HPD_DISABLED).
Proof.
  intros Hpin Hnone. cbv zeta. unfold intel_hpd_disable.
  apply Z.eqb_neq in Hnone. rewrite Hnone.
  destruct (state (pin_stats (hotplug dev_priv) pin)) eqn:Es; cbn [hpd_state_eqb fst snd].
  - cbn [hotplug with_hotplug]. rewrite pin_stats_set_eq by assumption.
    cbn [state set_state hpd_state_eqb fst snd hotplug with_hotplug].
    rewrite pin_stats_set_eq by assumption. cbn [state].
    repeat split; congruence.
  - rewrite Es. cbn [hpd_state_eqb]. repeat split; discriminate.
  - rewrite Es. cbn [hpd_state_eqb]. repeat split; discriminate.
Qed.

Lemma hpd_disable_spec_witness :
  let d := example_dev_priv (example_hotplug (mk_stats 0 0 HPD_ENABLED) 50 false)
             true [] in
  fst (intel_hpd_disable d HPD_PORT_B) = true
  /\ fst (intel_hpd_disable (snd (intel_hpd_disable d HPD_PORT_B)) HPD_PORT_B) = false.
Proof.
  cbv zeta.
  pose proof (hpd_disable_spec
                (example_dev_priv (example_hotplug (mk_stats 0 0 HPD_ENABLED) 50 false)
                   true [])
                HPD_PORT_B) as H.
  cbv zeta in H.
  destruct H as (_ & _ & _ & _ & H).
  - unfold valid_pin. vm_compute. split; [discriminate | reflexivity].
  - discriminate.
  - destruct H as (H1 & H2 & _); [reflexivity |]. split; assumption.
Defined.

(** ** The interrupt dispatcher *)

Section Dispatcher.

Variable in_range : Z -> Z -> Z -> bool.
Variable to_jiffies : Z -> Z.

Local Abbreviation detect := (intel_hpd_irq_storm_detect in_range to_jiffies).
Local Abbreviation handler := (intel_hpd_irq_handler in_range to_jiffies).
Local Abbreviation handler_pin := (irq_handler_pin in_range to_jiffies).
Local Abbreviation handler_loop := (irq_handler_loop in_range to_jiffies).

(** C10: the dispatcher called with no pin fired returns at once: the
    device is as it was (stats and states, pending event bits, the long and
    short port masks), the hook is not called and no work is queued,
    whatever [long_mask] is. *)
Theorem irq_handler_no_pin (dev_priv : drm_i915_private) (jiffies long_mask : Z) :
  handler dev_priv jiffies 0 long_mask = dev_priv.
Proof. reflexivity. Qed.

Lemma pass_frame_refl (i : Z) (a : irq_pass) : pass_frame i a a.
Proof. unfold pass_frame. cbv zeta. repeat split; auto. Qed.

Lemma pass_frame_trans (i : Z) (a b c : irq_pass) :
  pass_frame i a b -> pass_frame i b c -> pass_frame i a c.
Proof.
  unfold pass_frame. cbv zeta.
  intros (A1 & A2 & A3 & A4 & A5 & A6 & A7 & A8 & A9 & A10 & A11)
         (B1 & B2 & B3 & B4 & B5 & B6 & B7 & B8 & B9 & B10 & B11).
  repeat split; try congruence; auto.
Qed.

(** The port masks only gain bits. *)
Lemma testbit_or_keeps (m b p : Z) :
  p < 32 -> Z.testbit m p = true -> Z.testbit (to_u32 (Z.lor m b)) p = true.
Proof.
  intros Hp Hm. rewrite testbit_to_u32 by assumption.
  rewrite Z.lor_spec, Hm. reflexivity.
Qed.

(** The body of the loop for pin [j] keeps what belongs to another pin. *)
Lemma handler_pin_frame (cnl : bool) (jiffies pin_mask long_mask : Z)
    (a : irq_pass) (i j : Z) :
  0 <= i < 32 -> 0 <= j -> j <> i ->
  pass_frame i a (handler_pin cnl jiffies pin_mask long_mask a j).
Proof.
  intros Hi Hj Hne. unfold irq_handler_pin.
  destruct (negb (Z.testbit pin_mask j)); [apply pass_frame_refl |].
  set (port := intel_hpd_pin_to_port cnl j).
  set (dig := negb (port =? PORT_NONE) && irq_port_set (pass_hotplug a) port).
  set (long_hpd := if dig then Z.testbit long_mask j else true).
  set (hpd1 := if dig then _ else pass_hotplug a).
  assert (pass_frame i a (mk_pass hpd1 (storm_detected a)
                            (if dig then true else queue_dig a) (queue_hp a))) as F1.
  { unfold pass_frame, hpd1. cbv zeta.
    destruct dig; [destruct long_hpd |]; cbn;
      repeat split; auto using testbit_or_keeps. }
  destruct (state (pin_stats hpd1 j)); try exact F1.
  set (hpd2 := if negb dig then _ else hpd1).
  pose proof (detect_frame in_range to_jiffies hpd2 jiffies j long_hpd) as D.
  cbv zeta in D.
  destruct (detect hpd2 jiffies j long_hpd) as [storm hpd3]. cbn [snd] in D.
  destruct D as (D1 & D2 & D3 & D4 & D5 & D6 & D7 & D8).
  apply (pass_frame_trans i a _ _ F1).
  unfold pass_frame. cbv zeta. cbn [pass_hotplug storm_detected queue_dig queue_hp].
  assert (pin_stats hpd2 i = pin_stats hpd1 i /\ irq_port hpd2 = irq_port hpd1
          /\ hpd_storm_threshold hpd2 = hpd_storm_threshold hpd1
          /\ hpd_short_storm_enabled hpd2 = hpd_short_storm_enabled hpd1
          /\ length (stats hpd2) = length (stats hpd1)
          /\ long_port_mask hpd2 = long_port_mask hpd1
          /\ short_port_mask hpd2 = short_port_mask hpd1
          /\ Z.testbit (event_bits hpd2) i = Z.testbit (event_bits hpd1) i)
    as (E1 & E2 & E3 & E4 & E5 & E6 & E7 & E8).
  { unfold hpd2. destruct (negb dig); cbn; repeat split.
    rewrite testbit_set_bit by lia.
    replace (j =? i) with false by lia. apply orb_false_r. }
  assert (pin_stats hpd3 i = pin_stats hpd1 i) as S3
    by (rewrite D8 by lia; exact E1).
  destruct storm; cbn [pass_hotplug storm_detected queue_dig queue_hp];
    repeat split; cbn; try congruence; auto.
  - rewrite testbit_clear_bit by lia.
    replace (j =? i) with false by lia. cbn [negb]. rewrite andb_true_r. congruence.
  - destruct (negb dig); auto.
Qed.

Lemma handler_loop_frame (cnl : bool) (jiffies pin_mask long_mask : Z)
    (i : Z) (pins : list Z) (a : irq_pass) :
  0 <= i < 32 ->
  Forall (fun j => 0 <= j /\ j <> i) pins ->
  pass_frame i a (handler_loop cnl jiffies pin_mask long_mask a pins).
Proof.
  intros Hi Hpins. revert a. unfold irq_handler_loop.
  induction Hpins as [| j pins [Hj Hne] _ IH]; intros a; cbn [fold_left].
  - apply pass_frame_refl.
  - eapply pass_frame_trans; [| apply IH].
    now apply handler_pin_frame.
Qed.

(** A reported storm marks the pin. *)
Lemma detect_storm_marks (hpd : i915_hotplug) (jiffies pin : Z) (long_hpd : bool) :
  valid_pin hpd pin ->
  fst (detect hpd jiffies pin long_hpd) = true ->
  state (pin_stats (snd (detect hpd jiffies pin long_hpd)) pin) = HPD_MARK_DISABLED.
Proof.
  intros Hpin.
  destruct (Z.eq_dec (to_int (hpd_storm_threshold hpd)) 0) as [H0 | H0].
  { rewrite detect_off by now left. discriminate. }
  destruct long_hpd, (hpd_short_storm_enabled hpd) eqn:Es;
    try (rewrite detect_off by (right; now split); discriminate).
  all: rewrite detect_on by (try assumption; intros; congruence).
  all: cbn [fst snd]; intros ->; now rewrite pin_stats_set_eq.
Qed.

(** The pins of the loop, around one of them. *)
Lemma for_each_hpd_pin_split (i : Z) :
  1 <= i < HPD_NUM_PINS ->
  exists l1 l2,
    for_each_hpd_pin = l1 ++ i :: l2
    /\ Forall (fun j => 0 <= j /\ j <> i) l1
    /\ Forall (fun j => 0 <= j /\ j <> i) l2.
Proof.
  unfold HPD_NUM_PINS. intros Hi.
  assert (i = 1 \/ i = 2 \/ i = 3 \/ i = 4 \/ i = 5 \/ i = 6 \/ i = 7 \/ i = 8 \/ i = 9)
    as Hcases by lia.
  assert (forall l : list Z,
            forallb (fun j => (0 <=? j) && negb (j =? i)) l = true ->
            Forall (fun j => 0 <= j /\ j <> i) l) as Hall.
  { intros l Hl. apply Forall_forall. intros j Hj.
    rewrite forallb_forall in Hl. apply list_elem_of_In in Hj.
    specialize (Hl j Hj). lia. }
  destruct Hcases as [-> | [-> | [-> | [-> | [-> | [-> | [-> | [-> | ->]]]]]]]].
  - exists [], [2; 3; 4; 5; 6; 7; 8; 9]. repeat split; now apply Hall.
  - exists [1], [3; 4; 5; 6; 7; 8; 9]. repeat split; now apply Hall.
  - exists [1; 2], [4; 5; 6; 7; 8; 9]. repeat split; now apply Hall.
  - exists [1; 2; 3], [5; 6; 7; 8; 9]. repeat split; now apply Hall.
  - exists [1; 2; 3; 4], [6; 7; 8; 9]. repeat split; now apply Hall.
  - exists [1; 2; 3; 4; 5], [7; 8; 9]. repeat split; now apply Hall.
  - exists [1; 2; 3; 4; 5; 6], [8; 9]. repeat split; now apply Hall.
  - exists [1; 2; 3; 4; 5; 6; 7], [9]. repeat split; now apply Hall.
  - exists [1; 2; 3; 4; 5; 6; 7; 8], []. repeat split; now apply Hall.
Qed.

(** The dispatcher, once a pin has fired: the loop, then the calls. *)
Lemma handler_fired (dev_priv : drm_i915_private) (jiffies pin_mask long_mask : Z) :
  pin_mask <> 0 ->
  let a :=
    handler_loop (cnl_with_port_f dev_priv) jiffies pin_mask long_mask
      (mk_pass (hotplug dev_priv) false false false) for_each_hpd_pin in
  let d' := handler dev_priv jiffies pin_mask long_mask in
  hotplug d' = pass_hotplug a
  /\ connectors d' = connectors dev_priv
  /\ reenable_work d' = reenable_work dev_priv
  /\ calls d'
     = calls dev_priv
       ++ dispatch_calls (display_irqs_enabled dev_priv) (storm_detected a)
            (queue_dig a) (queue_hp a).
Proof.
  intros Hm. cbv zeta. unfold intel_hpd_irq_handler, dispatch_calls.
  apply Z.eqb_neq in Hm. rewrite Hm.
  set (a := irq_handler_loop _ _ _ _ _ _ _ _).
  cbn [display_irqs_enabled with_hotplug].
  destruct (storm_detected a && display_irqs_enabled dev_priv), (queue_dig a),
    (queue_hp a); cbn; rewrite <- ?app_assoc, ?app_nil_r; auto.
Qed.

Lemma testbit_nonzero (m i : Z) : Z.testbit m i = true -> m <> 0.
Proof. intros H ->. now rewrite Z.bits_0 in H. Qed.

Lemma pin_stats_with_long_port_mask (m : Z) (h : i915_hotplug) (i : Z) :
  pin_stats (with_long_port_mask m h) i = pin_stats h i.
Proof. reflexivity. Qed.

Lemma pin_stats_with_short_port_mask (m : Z) (h : i915_hotplug) (i : Z) :
  pin_stats (with_short_port_mask m h) i = pin_stats h i.
Proof. reflexivity. Qed.

Lemma pin_stats_with_event_bits (e : Z) (h : i915_hotplug) (i : Z) :
  pin_stats (with_event_bits e h) i = pin_stats h i.
Proof. reflexivity. Qed.

(** The body of the loop for a pin that fired and is not enabled. *)
Lemma handler_pin_not_enabled (cnl : bool) (jiffies pin_mask long_mask : Z)
    (a : irq_pass) (i : Z) :
  Z.testbit pin_mask i = true ->
  state (pin_stats (pass_hotplug a) i) <> HPD_ENABLED ->
  let h := pass_hotplug a in
  let a' := handler_pin cnl jiffies pin_mask long_mask a i in
  let h' := pass_hotplug a' in
  stats h' = stats h
  /\ event_bits h' = event_bits h
  /\ queue_hp a' = queue_hp a
  /\ storm_detected a' = storm_detected a
  /\ (is_dig_port cnl h i = true ->
      queue_dig a' = true
      /\ (if Z.testbit long_mask i
          then Z.testbit (long_port_mask h') (intel_hpd_pin_to_port cnl i)
          else Z.testbit (short_port_mask h') (intel_hpd_pin_to_port cnl i)) = true).
Proof.
  intros Hfired Hstate. cbv zeta. unfold irq_handler_pin, is_dig_port.
  rewrite Hfired. cbn [negb].
  set (port := intel_hpd_pin_to_port cnl i).
  assert (port = PORT_NONE \/ 0 <= port < I915_MAX_PORTS) as Hport
    by apply pin_to_port_range.
  destruct (negb (port =? PORT_NONE) && irq_port_set (pass_hotplug a) port) eqn:Edig.
  - assert (0 <= port < 32) as Hp.
    { apply andb_true_iff in Edig as [Hn _]. unfold PORT_NONE, I915_MAX_PORTS in *. lia. }
    assert (Z.testbit (Z.shiftl 1 port) port = true) as Hbit.
    { rewrite Z.shiftl_spec by lia. now rewrite Z.sub_diag. }
    destruct (Z.testbit long_mask i);
      rewrite ?pin_stats_with_long_port_mask, ?pin_stats_with_short_port_mask;
      (destruct (state (pin_stats (pass_hotplug a) i)); [now elim Hstate | |]);
      cbn [pass_hotplug queue_hp queue_dig storm_detected stats event_bits
           with_long_port_mask with_short_port_mask long_port_mask short_port_mask];
      repeat (split; [reflexivity |]);
      rewrite testbit_to_u32 by lia; rewrite Z.lor_spec, Hbit; apply orb_true_r.
  - destruct (state (pin_stats (pass_hotplug a) i));
      [now elim Hstate | |]; cbn [pass_hotplug queue_hp queue_dig storm_detected];
      repeat (split; [reflexivity |]); discriminate.
Qed.

(** The body of the loop for an enabled pin that fired and on which the
    detector reports a storm. *)
Lemma handler_pin_storm (cnl : bool) (jiffies pin_mask long_mask : Z)
    (a : irq_pass) (i : Z) :
  0 <= i < 32 ->
  valid_pin (pass_hotplug a) i ->
  Z.testbit pin_mask i = true ->
  state (pin_stats (pass_hotplug a) i) = HPD_ENABLED ->
  fst (detect (pass_hotplug a) jiffies i
         (pulse_is_long cnl (pass_hotplug a) long_mask i)) = true ->
  let a' := handler_pin cnl jiffies pin_mask long_mask a i in
  Z.testbit (event_bits (pass_hotplug a')) i = false
  /\ state (pin_stats (pass_hotplug a') i) = HPD_MARK_DISABLED
  /\ queue_hp a' = true
  /\ storm_detected a' = true.
Proof.
  intros Hi Hpin Hfired Hstate Hstorm. cbv zeta.
  unfold irq_handler_pin. rewrite Hfired. cbn [negb].
  unfold pulse_is_long, is_dig_port in Hstorm.
  set (port := intel_hpd_pin_to_port cnl i) in *.
  set (dig := negb (port =? PORT_NONE) && irq_port_set (pass_hotplug a) port) in *.
  set (long_hpd := if dig then Z.testbit long_mask i else true) in *.
  set (hpd1 := if dig then _ else pass_hotplug a).
  assert (stats hpd1 = stats (pass_hotplug a)
          /\ hpd_storm_threshold hpd1 = hpd_storm_threshold (pass_hotplug a)
          /\ hpd_short_storm_enabled hpd1 = hpd_short_storm_enabled (pass_hotplug a))
    as (S1 & T1 & G1)
    by (unfold hpd1; destruct dig; [destruct long_hpd |]; cbn; auto).
  assert (pin_stats hpd1 i = pin_stats (pass_hotplug a) i) as P1
    by (unfold pin_stats; now rewrite S1).
  rewrite P1, Hstate.
  set (hpd2 := if negb dig then _ else hpd1).
  assert (stats hpd2 = stats hpd1
          /\ hpd_storm_threshold hpd2 = hpd_storm_threshold hpd1
          /\ hpd_short_storm_enabled hpd2 = hpd_short_storm_enabled hpd1)
    as (S2 & T2 & G2)
    by (unfold hpd2; destruct (negb dig); cbn; auto).
  assert (valid_pin hpd2 i) as Hpin2
    by (unfold valid_pin in *; now rewrite S2, S1).
  assert (fst (detect hpd2 jiffies i long_hpd) = true) as Hstorm2.
  { rewrite <- Hstorm. apply detect_storm_local; try assumption; try congruence.
    unfold pin_stats. now rewrite S2, S1. }
  pose proof (detect_storm_marks hpd2 jiffies i long_hpd Hpin2 Hstorm2) as Hmark.
  destruct (detect hpd2 jiffies i long_hpd) as [storm hpd3].
  cbn [fst snd] in *. subst storm.
  cbn [pass_hotplug queue_hp storm_detected].
  rewrite pin_stats_with_event_bits. cbn [event_bits with_event_bits].
  repeat split; try assumption.
  rewrite testbit_clear_bit by lia. rewrite Z.eqb_refl. apply andb_false_r.
Qed.

(** C4: when a pin that fired is enabled and the storm detector reports a
    storm on it, the run of the dispatcher leaves the pin's bit of the
    pending event bits clear (no event is delivered for it) and the pin
    marked, and it ends by queueing the hot-plug work, after the hook when
    interrupts are enabled. *)
Theorem irq_handler_storm (dev_priv : drm_i915_private)
    (jiffies pin_mask long_mask i : Z) :
  1 <= i < HPD_NUM_PINS ->
  valid_pin (hotplug dev_priv) i ->
  Z.testbit pin_mask i = true ->
  state (pin_stats (hotplug dev_priv) i) = HPD_ENABLED ->
  fst (detect (hotplug dev_priv) jiffies i
         (pulse_is_long (cnl_with_port_f dev_priv) (hotplug dev_priv) long_mask i))
  = true ->
  let d' := handler dev_priv jiffies pin_mask long_mask in
  Z.testbit (event_bits (hotplug d')) i = false
  /\ state (pin_stats (hotplug d') i) = HPD_MARK_DISABLED
  /\ exists dig : bool,
       calls d'
       = calls dev_priv
         ++ (if display_irqs_enabled dev_priv then [Call_hpd_irq_setup] else [])
         ++ (if dig then [Call_queue_dig_port_work] else [])
         ++ [Call_schedule_hotplug_work].
Proof.
  intros Hi Hpin Hfired Hstate Hstorm. cbv zeta.
  destruct (handler_fired dev_priv jiffies pin_mask long_mask
              (testbit_nonzero _ _ Hfired)) as (Hh & _ & _ & Hc).
  rewrite Hh, Hc. clear Hh Hc.
  destruct (for_each_hpd_pin_split i Hi) as (l1 & l2 & -> & Hl1 & Hl2).
  unfold irq_handler_loop. rewrite fold_left_app. cbn [fold_left].
  set (cnl := cnl_with_port_f dev_priv) in *.
  set (a1 := fold_left _ l1 _).
  set (a2 := handler_pin cnl jiffies pin_mask long_mask a1 i).
  assert (0 <= i < 32) as Hi32 by (unfold HPD_NUM_PINS in Hi; lia).
  pose proof (handler_loop_frame cnl jiffies pin_mask long_mask i l1
                (mk_pass (hotplug dev_priv) false false false) Hi32 Hl1) as F1.
  fold a1 in F1. unfold irq_handler_loop in F1. fold a1 in F1.
  unfold pass_frame in F1. cbv zeta in F1. cbn [pass_hotplug] in F1.
  destruct F1 as (P1 & _ & I1 & T1 & G1 & L1 & _).
  assert (Z.testbit (event_bits (pass_hotplug a2)) i = false
          /\ state (pin_stats (pass_hotplug a2) i) = HPD_MARK_DISABLED
          /\ queue_hp a2 = true /\ storm_detected a2 = true)
    as (B2 & M2 & Q2 & S2).
  { apply handler_pin_storm; try assumption.
    - unfold valid_pin in *. now rewrite L1.
    - now rewrite P1.
    - rewrite <- Hstorm.
      replace (pulse_is_long cnl (pass_hotplug a1) long_mask i)
        with (pulse_is_long cnl (hotplug dev_priv) long_mask i)
        by (unfold pulse_is_long, is_dig_port, irq_port_set; now rewrite I1).
      apply detect_storm_local; try assumption.
      unfold valid_pin in *. now rewrite L1. }
  pose proof (handler_loop_frame cnl jiffies pin_mask long_mask i l2 a2 Hi32 Hl2)
    as F2.
  unfold irq_handler_loop in F2. unfold pass_frame in F2. cbv zeta in F2.
  destruct F2 as (P3 & B3 & _ & _ & _ & _ & _ & _ & _ & Q3 & S3).
  rewrite B3, P3, B2, M2. split; [reflexivity | split; [reflexivity |]].
  unfold dispatch_calls. rewrite (Q3 Q2), (S3 S2). cbn [andb].
  eexists. reflexivity.
Qed.

(** C5: when a pin that fired is not enabled (it is disabled, or marked
    for disabling), the run of the dispatcher leaves the pin's stats and its
    bit of the pending event bits as they were: the bit is not set and the
    storm detector is not called for the pin. If the pin belongs to a
    registered digital port, the port is still recorded in the long or the
    short port mask, as [long_mask] says, and the digital-port work is
    queued. *)
Theorem irq_handler_not_enabled (dev_priv : drm_i915_private)
    (jiffies pin_mask long_mask i : Z) :
  1 <= i < HPD_NUM_PINS ->
  Z.testbit pin_mask i = true ->
  state (pin_stats (hotplug dev_priv) i) <> HPD_ENABLED ->
  let cnl := cnl_with_port_f dev_priv in
  let d' := handler dev_priv jiffies pin_mask long_mask in
  pin_stats (hotplug d') i = pin_stats (hotplug dev_priv) i
  /\ Z.testbit (event_bits (hotplug d')) i
     = Z.testbit (event_bits (hotplug dev_priv)) i
  /\ (is_dig_port cnl (hotplug dev_priv) i = true ->
      (if Z.testbit long_mask i
       then Z.testbit (long_port_mask (hotplug d')) (intel_hpd_pin_to_port cnl i)
       else Z.testbit (short_port_mask (hotplug d')) (intel_hpd_pin_to_port cnl i))
      = true
      /\ exists l : list call,
           calls d' = calls dev_priv ++ l /\ In Call_queue_dig_port_work l).
Proof.
  intros Hi Hfired Hstate. cbv zeta.
  destruct (handler_fired dev_priv jiffies pin_mask long_mask
              (testbit_nonzero _ _ Hfired)) as (Hh & _ & _ & Hc).
  rewrite Hh, Hc. clear Hh Hc.
  destruct (for_each_hpd_pin_split i Hi) as (l1 & l2 & -> & Hl1 & Hl2).
  unfold irq_handler_loop. rewrite fold_left_app. cbn [fold_left].
  set (cnl := cnl_with_port_f dev_priv) in *.
  set (a1 := fold_left _ l1 _).
  set (a2 := handler_pin cnl jiffies pin_mask long_mask a1 i).
  assert (0 <= i < 32) as Hi32 by (unfold HPD_NUM_PINS in Hi; lia).
  pose proof (handler_loop_frame cnl jiffies pin_mask long_mask i l1
                (mk_pass (hotplug dev_priv) false false false) Hi32 Hl1) as F1.
  unfold irq_handler_loop in F1. fold a1 in F1.
  unfold pass_frame in F1. cbv zeta in F1. cbn [pass_hotplug] in F1.
  destruct F1 as (P1 & B1 & I1 & _).
  assert (state (pin_stats (pass_hotplug a1) i) <> HPD_ENABLED) as Hstate1
    by now rewrite P1.
  pose proof (handler_pin_not_enabled cnl jiffies pin_mask long_mask a1 i
                Hfired Hstate1) as H2.
  cbv zeta in H2. fold a2 in H2. destruct H2 as (S2 & E2 & _ & _ & D2).
  pose proof (handler_loop_frame cnl jiffies pin_mask long_mask i l2 a2 Hi32 Hl2)
    as F2.
  unfold irq_handler_loop in F2. unfold pass_frame in F2. cbv zeta in F2.
  destruct F2 as (P3 & B3 & _ & _ & _ & _ & ML & MS & QD & _).
  split; [| split].
  - rewrite P3. unfold pin_stats at 1. rewrite S2. exact P1.
  - rewrite B3, E2. exact B1.
  - intros Hdig.
    assert (is_dig_port cnl (pass_hotplug a1) i = true) as Hdig1
      by (unfold is_dig_port, irq_port_set in *; now rewrite I1).
    destruct (D2 Hdig1) as [Q2 M2].
    assert (intel_hpd_pin_to_port cnl i < 32) as Hp32.
    { destruct (pin_to_port_range cnl i) as [-> | Hr];
        unfold PORT_NONE, I915_MAX_PORTS in *; lia. }
    split.
    + destruct (Z.testbit long_mask i); [now apply ML | now apply MS].
    + eexists. split; [reflexivity |].
      unfold dispatch_calls. rewrite (QD Q2).
      apply in_or_app. right. now left.
Qed.

End Dispatcher.

(** ** The polling fallback *)

Lemma pin_stats_set_other (hpd : i915_hotplug) (i j : Z) (st : hpd_pin_stats) :
  1 <= i -> i <> j -> pin_stats (set_pin_stats hpd j st) i = pin_stats hpd i.
Proof.
  unfold pin_stats, set_pin_stats. intros Hi Hne. cbn.
  rewrite list_lookup_insert_ne by lia. reflexivity.
Qed.

Lemma hpd_state_eqb_eq (a b : hpd_state) : hpd_state_eqb a b = true <-> a = b.
Proof. destruct a, b; cbn; split; congruence. Qed.

(** One connector of the fallback loop, when it is a candidate for a marked
    pin: the pin is disabled, the connector polls. *)
Lemma storm_switch_connector_hit (hpd : i915_hotplug) (dis : bool)
    (c : intel_connector) (pin : Z) :
  valid_pin hpd pin -> pin <> HPD_NONE ->
  state (pin_stats hpd pin) = HPD_MARK_DISABLED ->
  storm_candidate pin c = true ->
  storm_switch_connector hpd dis c
  = (set_pin_stats hpd pin (set_state HPD_DISABLED (pin_stats hpd pin)),
     true, set_polled POLL_CONNECT_DISCONNECT c).
Proof.
  intros Hv Hn Hs Hc. unfold storm_candidate in Hc.
  apply andb_true_iff in Hc as [Hp He].
  unfold storm_switch_connector. rewrite Hp. cbn [negb].
  destruct (encoder c) as [enc |]; [| discriminate].
  apply Z.eqb_eq in He. rewrite He.
  apply Z.eqb_neq in Hn. rewrite Hn, Hs. reflexivity.
Qed.

(** One connector of the fallback loop keeps the stats of every pin it is
    not a candidate for, and the length of [stats[]]. *)
Lemma storm_switch_connector_other (hpd : i915_hotplug) (dis : bool)
    (c : intel_connector) (pin : Z) :
  1 <= pin ->
  storm_candidate pin c = false ->
  pin_stats (fst (fst (storm_switch_connector hpd dis c))) pin = pin_stats hpd pin.
Proof.
  intros Hpin Hc. unfold storm_candidate in Hc. unfold storm_switch_connector.
  destruct (polled c =? DRM_CONNECTOR_POLL_HPD); cbn [negb]; [| reflexivity].
  destruct (encoder c) as [enc |]; [| reflexivity].
  cbn [andb] in Hc. apply Z.eqb_neq in Hc.
  destruct (_ || _); [reflexivity |]. cbn [fst].
  apply pin_stats_set_other; [assumption | congruence].
Qed.

Lemma storm_switch_connector_length (hpd : i915_hotplug) (dis : bool)
    (c : intel_connector) :
  length (stats (fst (fst (storm_switch_connector hpd dis c)))) = length (stats hpd).
Proof.
  unfold storm_switch_connector.
  destruct (negb _); [reflexivity |].
  destruct (encoder c); [| reflexivity].
  destruct (_ || _); [reflexivity |]. cbn. apply length_insert.
Qed.

(** One connector of the fallback loop never touches a pin that is not
    marked, and never clears [hpd_disabled]. *)
Lemma storm_switch_connector_unmarked (hpd : i915_hotplug) (dis : bool)
    (c : intel_connector) (pin : Z) :
  valid_pin hpd pin ->
  state (pin_stats hpd pin) = HPD_DISABLED ->
  state (pin_stats (fst (fst (storm_switch_connector hpd dis c))) pin) = HPD_DISABLED.
Proof.
  intros Hv Hs. unfold storm_switch_connector.
  destruct (negb _); [assumption |].
  destruct (encoder c) as [enc |]; [| assumption].
  destruct (_ || _) eqn:E; [assumption |]. cbn [fst].
  apply orb_false_iff in E as [_ E]. apply negb_false_iff in E.
  apply hpd_state_eqb_eq in E.
  destruct (Nat.eq_dec (Z.to_nat pin) (Z.to_nat (hpd_pin enc))) as [Heq | Hne].
  - unfold pin_stats in *. rewrite <- Heq in E. congruence.
  - unfold pin_stats, set_pin_stats. cbn.
    now rewrite list_lookup_insert_ne by congruence.
Qed.

Lemma storm_switch_connector_flag (hpd : i915_hotplug) (c : intel_connector) :
  snd (fst (storm_switch_connector hpd true c)) = true.
Proof.
  unfold storm_switch_connector.
  destruct (negb _); [reflexivity |].
  destruct (encoder c); [| reflexivity].
  destruct (_ || _); reflexivity.
Qed.

(** When [hpd_disabled] is still false after a connector, the connector
    changed nothing. *)
Lemma storm_switch_connector_idle (hpd : i915_hotplug) (c : intel_connector) :
  snd (fst (storm_switch_connector hpd false c)) = false ->
  storm_switch_connector hpd false c = (hpd, false, c).
Proof.
  unfold storm_switch_connector.
  destruct (negb _); [reflexivity |].
  destruct (encoder c); [| reflexivity].
  destruct (_ || _); [reflexivity | discriminate].
Qed.

(** The fallback loop, one connector unfolded. *)
Lemma storm_switch_connectors_cons (hpd : i915_hotplug) (dis : bool)
    (c : intel_connector) (cs : list intel_connector) :
  let r1 := storm_switch_connector hpd dis c in
  let r2 := storm_switch_connectors (fst (fst r1)) (snd (fst r1)) cs in
  storm_switch_connectors hpd dis (c :: cs)
  = (fst (fst r2), snd (fst r2), snd r1 :: snd r2).
Proof.
  cbv zeta. cbn [storm_switch_connectors].
  destruct (storm_switch_connector hpd dis c) as [[h1 d1] c1]. cbn [fst snd].
  destruct (storm_switch_connectors h1 d1 cs) as [[h2 d2] cs2]. reflexivity.
Qed.

Lemma storm_switch_connectors_unmarked (cs : list intel_connector)
    (hpd : i915_hotplug) (dis : bool) (pin : Z) :
  valid_pin hpd pin ->
  state (pin_stats hpd pin) = HPD_DISABLED ->
  state (pin_stats (fst (fst (storm_switch_connectors hpd dis cs))) pin)
  = HPD_DISABLED.
Proof.
  revert hpd dis. induction cs as [| c cs IH]; intros hpd dis Hv Hs; [assumption |].
  rewrite storm_switch_connectors_cons. cbn [fst snd]. apply IH.
  - unfold valid_pin in *. now rewrite storm_switch_connector_length.
  - now apply storm_switch_connector_unmarked.
Qed.

Lemma storm_switch_connectors_flag (cs : list intel_connector) (hpd : i915_hotplug) :
  snd (fst (storm_switch_connectors hpd true cs)) = true.
Proof.
  revert hpd. induction cs as [| c cs IH]; intros hpd; [reflexivity |].
  rewrite storm_switch_connectors_cons. cbn [fst snd].
  rewrite storm_switch_connector_flag. apply IH.
Qed.

(** When [hpd_disabled] is false after the loop, the loop changed nothing. *)
Lemma storm_switch_connectors_idle (cs : list intel_connector) (hpd : i915_hotplug) :
  snd (fst (storm_switch_connectors hpd false cs)) = false ->
  storm_switch_connectors hpd false cs = (hpd, false, cs).
Proof.
  revert hpd. induction cs as [| c cs IH]; intros hpd; [reflexivity |].
  rewrite storm_switch_connectors_cons. cbn [fst snd].
  destruct (snd (fst (storm_switch_connector hpd false c))) eqn:E.
  - rewrite storm_switch_connectors_flag. discriminate.
  - rewrite (storm_switch_connector_idle hpd c E). cbn [fst snd].
    intros H. now rewrite (IH hpd H).
Qed.

(** Without a candidate connector a pin is out of the loop's reach. *)
Lemma storm_switch_connectors_no_candidate (cs : list intel_connector)
    (hpd : i915_hotplug) (dis : bool) (pin : Z) :
  1 <= pin ->
  Forall (fun c => storm_candidate pin c = false) cs ->
  pin_stats (fst (fst (storm_switch_connectors hpd dis cs))) pin = pin_stats hpd pin.
Proof.
  intros Hpin Hcs. revert hpd dis.
  induction Hcs as [| c cs Hc _ IH]; intros hpd dis; [reflexivity |].
  rewrite storm_switch_connectors_cons. cbn [fst snd].
  rewrite IH. now apply storm_switch_connector_other.
Qed.

(** The first candidate connector of a marked pin takes the pin to
    [HPD_DISABLED] and is switched to polling. *)
Lemma storm_switch_connectors_first (l1 l2 : list intel_connector)
    (c : intel_connector) (hpd : i915_hotplug) (dis : bool) (pin : Z) :
  valid_pin hpd pin -> 1 <= pin ->
  state (pin_stats hpd pin) = HPD_MARK_DISABLED ->
  Forall (fun c' => storm_candidate pin c' = false) l1 ->
  storm_candidate pin c = true ->
  let r := storm_switch_connectors hpd dis (l1 ++ c :: l2) in
  state (pin_stats (fst (fst r)) pin) = HPD_DISABLED
  /\ snd (fst r) = true
  /\ snd r !! length l1 = Some (set_polled POLL_CONNECT_DISCONNECT c).
Proof.
  intros Hv Hpin Hs Hl1 Hc. cbv zeta. revert hpd dis Hv Hs.
  induction Hl1 as [| c0 l1 Hc0 _ IH]; intros hpd dis Hv Hs.
  - cbn [app length]. rewrite storm_switch_connectors_cons. cbn [fst snd].
    rewrite (storm_switch_connector_hit hpd dis c pin) by
      (try assumption; unfold HPD_NONE; lia).
    cbn [fst snd]. repeat split.
    + apply storm_switch_connectors_unmarked.
      * now apply valid_pin_set.
      * now rewrite pin_stats_set_eq.
    + apply storm_switch_connectors_flag.
  - cbn [app length]. rewrite storm_switch_connectors_cons. cbn [fst snd].
    apply IH.
    + unfold valid_pin in *. now rewrite storm_switch_connector_length.
    + now rewrite storm_switch_connector_other.
Qed.

Lemma pin_stats_marked_lookup (hpd : i915_hotplug) (pin : Z) :
  state (pin_stats hpd pin) = HPD_MARK_DISABLED ->
  (Z.to_nat pin < length (stats hpd))%nat.
Proof.
  unfold pin_stats. intros H.
  destruct (stats hpd !! Z.to_nat pin) eqn:E.
  - now apply lookup_lt_Some in E.
  - discriminate H.
Qed.

(** One connector of the fallback loop, by whether the loop acts on it. *)
Lemma storm_switch_connector_cases (hpd : i915_hotplug) (dis : bool)
    (c : intel_connector) :
  (storm_switchable hpd c = false /\ storm_switch_connector hpd dis c = (hpd, dis, c))
  \/ (exists enc,
        storm_switchable hpd c = true
        /\ encoder c = Some enc
        /\ hpd_pin enc <> HPD_NONE
        /\ state (pin_stats hpd (hpd_pin enc)) = HPD_MARK_DISABLED
        /\ storm_switch_connector hpd dis c
           = (set_pin_stats hpd (hpd_pin enc)
                (set_state HPD_DISABLED (pin_stats hpd (hpd_pin enc))),
              true, set_polled POLL_CONNECT_DISCONNECT c)).
Proof.
  unfold storm_switchable, storm_switch_connector.
  destruct (polled c =? DRM_CONNECTOR_POLL_HPD); cbn [negb andb]; [| now left].
  destruct (encoder c) as [enc |]; [| now left].
  destruct (Z.eqb_spec (hpd_pin enc) HPD_NONE) as [E | E]; cbn [negb andb orb];
    [now left |].
  destruct (hpd_state_eqb _ _) eqn:Es; cbn [negb]; [| now left].
  right. exists enc. apply hpd_state_eqb_eq in Es. repeat split; assumption.
Qed.

(** The loop writes the slots of marked pins only. *)
Lemma storm_switch_connector_keeps (hpd : i915_hotplug) (dis : bool)
    (c : intel_connector) (p : Z) :
  state (pin_stats hpd p) <> HPD_MARK_DISABLED ->
  pin_stats (fst (fst (storm_switch_connector hpd dis c))) p = pin_stats hpd p.
Proof.
  intros Hp.
  destruct (storm_switch_connector_cases hpd dis c)
    as [[_ ->] | (enc & _ & _ & _ & Hm & ->)]; [reflexivity |].
  cbn [fst]. unfold pin_stats, set_pin_stats. cbn [stats with_stats].
  destruct (Nat.eq_dec (Z.to_nat (hpd_pin enc)) (Z.to_nat p)) as [E | E].
  - exfalso. apply Hp. unfold pin_stats in *. now rewrite <- E.
  - now rewrite list_lookup_insert_ne.
Qed.

Lemma storm_switch_connectors_keeps (cs : list intel_connector)
    (hpd : i915_hotplug) (dis : bool) (p : Z) :
  state (pin_stats hpd p) <> HPD_MARK_DISABLED ->
  pin_stats (fst (fst (storm_switch_connectors hpd dis cs))) p = pin_stats hpd p.
Proof.
  revert hpd dis. induction cs as [| c cs IH]; intros hpd dis Hp; [reflexivity |].
  rewrite storm_switch_connectors_cons. cbn [fst snd].
  rewrite IH; rewrite storm_switch_connector_keeps; auto.
Qed.

(** When the loop raises its flag, it moved some pin from
    [HPD_MARK_DISABLED] to [HPD_DISABLED]. *)
Lemma storm_switch_connectors_switched (cs : list intel_connector)
    (hpd : i915_hotplug) :
  snd (fst (storm_switch_connectors hpd false cs)) = true ->
  exists pin,
    state (pin_stats hpd pin) = HPD_MARK_DISABLED
    /\ state (pin_stats (fst (fst (storm_switch_connectors hpd false cs))) pin)
       = HPD_DISABLED.
Proof.
  revert hpd. induction cs as [| c cs IH]; intros hpd; [discriminate |].
  rewrite storm_switch_connectors_cons. cbn [fst snd].
  destruct (storm_switch_connector_cases hpd false c)
    as [[_ ->] | (enc & _ & _ & _ & Hm & ->)]; cbn [fst snd]; [apply IH |].
  intros _. exists (hpd_pin enc). split; [assumption |].
  pose proof (pin_stats_marked_lookup _ _ Hm) as Hlt.
  assert (pin_stats (set_pin_stats hpd (hpd_pin enc)
                       (set_state HPD_DISABLED (pin_stats hpd (hpd_pin enc))))
            (hpd_pin enc)
          = set_state HPD_DISABLED (pin_stats hpd (hpd_pin enc))) as E.
  { unfold pin_stats at 1, set_pin_stats. cbn [stats with_stats].
    now rewrite list_lookup_insert_eq. }
  rewrite storm_switch_connectors_keeps; rewrite E; [reflexivity | discriminate].
Qed.

Section Fallback.

Variable to_jiffies : Z -> Z.

Local Abbreviation switch_to_polling :=
  (intel_hpd_irq_storm_switch_to_polling to_jiffies).

(** The fallback, from its loop. *)
Lemma switch_to_polling_eq (dev_priv : drm_i915_private) :
  let r := storm_switch_connectors (hotplug dev_priv) false (connectors dev_priv) in
  let d' := switch_to_polling dev_priv in
  hotplug d' = fst (fst r)
  /\ connectors d' = snd r
  /\ calls d'
     = calls dev_priv
       ++ (if snd (fst r) then [Call_drm_kms_helper_poll_enable] else [])
  /\ reenable_work d'
     = (if snd (fst r) then Some (to_jiffies HPD_STORM_REENABLE_DELAY)
        else reenable_work dev_priv).
Proof.
  cbv zeta. unfold intel_hpd_irq_storm_switch_to_polling.
  destruct (storm_switch_connectors _ _ _) as [[h dis] cs]. cbn [fst snd].
  destruct dis; cbn; rewrite ?app_nil_r; auto.
Qed.

(** C7 (amended): the fallback acts on connectors, not on pins. A marked
    pin ([HPD_MARK_DISABLED]) that is the pin of some connector with an
    encoder and the polling mode [DRM_CONNECTOR_POLL_HPD] becomes
    [HPD_DISABLED], and the first such connector is switched to
    connect/disconnect polling; a marked pin without such a connector stays
    as it is. If at least one pin was switched (it was marked and is
    disabled now), [drm_kms_helper_poll_enable] is called and the re-enable
    work is (re)scheduled with the fixed delay, whatever was scheduled
    before; if no pin was switched, nothing changes at all: the device after
    the pass is the device before it, with no call made and the timer as it
    was. So the polling is engaged exactly when some pin was switched. *)
Theorem storm_switch_to_polling_spec (dev_priv : drm_i915_private) :
  let d' := switch_to_polling dev_priv in
  let engaged :=
    calls d' = calls dev_priv ++ [Call_drm_kms_helper_poll_enable]
    /\ reenable_work d' = Some (to_jiffies HPD_STORM_REENABLE_DELAY) in
  let switched := fun pin : Z =>
    state (pin_stats (hotplug dev_priv) pin) = HPD_MARK_DISABLED
    /\ state (pin_stats (hotplug d') pin) = HPD_DISABLED in
  (forall pin,
     valid_pin (hotplug dev_priv) pin ->
     1 <= pin ->
     state (pin_stats (hotplug dev_priv) pin) = HPD_MARK_DISABLED ->
     (forall l1 c l2,
        connectors dev_priv = l1 ++ c :: l2 ->
        Forall (fun c' => storm_candidate pin c' = false) l1 ->
        storm_candidate pin c = true ->
        state (pin_stats (hotplug d') pin) = HPD_DISABLED
        /\ connectors d' !! length l1 = Some (set_polled POLL_CONNECT_DISCONNECT c)
        /\ engaged)
     /\ (Forall (fun c => storm_candidate pin c = false) (connectors dev_priv) ->
         pin_stats (hotplug d') pin = pin_stats (hotplug dev_priv) pin))
  /\ ((exists pin, switched pin) -> engaged)
  /\ ((exists q, pin_stats (hotplug d') q <> pin_stats (hotplug dev_priv) q) ->
      engaged)
  /\ ((forall pin, ~ switched pin) -> d' = dev_priv)
  /\ (engaged -> exists pin, switched pin).
Proof.
  cbv zeta.
  destruct (switch_to_polling_eq dev_priv) as (Hh & Hcs & Hcalls & Hre).
  cbv zeta in Hh, Hcs, Hcalls, Hre.
  assert (snd (fst (storm_switch_connectors (hotplug dev_priv) false
                      (connectors dev_priv))) = true ->
          calls (switch_to_polling dev_priv)
          = calls dev_priv ++ [Call_drm_kms_helper_poll_enable]
          /\ reenable_work (switch_to_polling dev_priv)
             = Some (to_jiffies HPD_STORM_REENABLE_DELAY)) as Heng.
  { intros E. rewrite E in Hcalls, Hre. now split. }
  assert (snd (fst (storm_switch_connectors (hotplug dev_priv) false
                      (connectors dev_priv))) = false ->
          switch_to_polling dev_priv = dev_priv) as Hidle.
  { intros E. unfold intel_hpd_irq_storm_switch_to_polling.
    rewrite (storm_switch_connectors_idle _ _ E). now destruct dev_priv. }
  assert (snd (fst (storm_switch_connectors (hotplug dev_priv) false
                      (connectors dev_priv))) = true ->
          exists pin,
            state (pin_stats (hotplug dev_priv) pin) = HPD_MARK_DISABLED
            /\ state (pin_stats (hotplug (switch_to_polling dev_priv)) pin)
               = HPD_DISABLED) as Hsw.
  { intros E. rewrite Hh. now apply storm_switch_connectors_switched. }
  split; [| split; [| split; [| split]]].
  - intros pin Hv Hpin Hs. split.
    + intros l1 c l2 Hsplit Hl1 Hc.
      pose proof (storm_switch_connectors_first l1 l2 c (hotplug dev_priv) false pin
                    Hv Hpin Hs Hl1 Hc) as (R1 & R2 & R3).
      rewrite <- Hsplit in R1, R2, R3.
      rewrite Hh, Hcs. auto.
    + intros Hnone. rewrite Hh.
      now apply storm_switch_connectors_no_candidate.
  - intros [q [Hm Hd]].
    destruct (snd (fst (storm_switch_connectors (hotplug dev_priv) false
                          (connectors dev_priv)))) eqn:E; [now apply Heng |].
    exfalso. rewrite (Hidle eq_refl) in Hd. rewrite Hm in Hd. discriminate Hd.
  - intros [q Hq].
    destruct (snd (fst (storm_switch_connectors (hotplug dev_priv) false
                          (connectors dev_priv)))) eqn:E; [now apply Heng |].
    exfalso. apply Hq. now rewrite Hidle.
  - intros Hnone.
    destruct (snd (fst (storm_switch_connectors (hotplug dev_priv) false
                          (connectors dev_priv)))) eqn:E; [| now apply Hidle].
    exfalso. destruct (Hsw eq_refl) as (q & Hq). exact (Hnone q Hq).
  - intros [Hc _].
    destruct (snd (fst (storm_switch_connectors (hotplug dev_priv) false
                          (connectors dev_priv)))) eqn:E; [now apply Hsw |].
    exfalso. rewrite (Hidle eq_refl) in Hc.
    apply (f_equal (@length call)) in Hc. rewrite length_app in Hc.
    cbn [length] in Hc. lia.
Qed.

End Fallback.

(** C7, as stated, fails: a marked pin whose connector is polled by the
    driver's own choice (its polling mode is [DRM_CONNECTOR_POLL_CONNECT],
    not [DRM_CONNECTOR_POLL_HPD], as for a CRT output that is known for
    spurious detection) is passed over by the fallback and stays
    [HPD_MARK_DISABLED]. *)
Lemma storm_switch_skips_polled_connector :
  ~ (forall (dev_priv : drm_i915_private) (pin : Z),
       valid_pin (hotplug dev_priv) pin -> pin <> HPD_NONE ->
       state (pin_stats (hotplug dev_priv) pin) = HPD_MARK_DISABLED ->
       state (pin_stats
                (hotplug (intel_hpd_irq_storm_switch_to_polling
                            (msecs_to_jiffies 1000) dev_priv)) pin)
       = HPD_DISABLED).
Proof.
  intros H.
  pose (d := example_dev_priv
               (set_pin_stats (example_hotplug (mk_stats 0 0 HPD_ENABLED) 50 false)
                  HPD_CRT (mk_stats 0 60 HPD_MARK_DISABLED))
               true
               [mk_connector DRM_CONNECTOR_POLL_CONNECT DRM_CONNECTOR_POLL_CONNECT
                  (Some (mk_encoder HPD_CRT)) false]).
  assert (valid_pin (hotplug d) HPD_CRT) as Hv
    by (unfold valid_pin; vm_compute; split; [discriminate | reflexivity]).
  assert (HPD_CRT <> HPD_NONE) as Hn by discriminate.
  specialize (H d HPD_CRT Hv Hn eq_refl). vm_compute in H. discriminate H.
Qed.

(** ** The re-enable work *)

Lemma connectors_have_encoder_map (f : intel_connector -> intel_connector)
    (cs : list intel_connector) :
  (forall c, mst_port (f c) = mst_port c /\ encoder (f c) = encoder c) ->
  connectors_have_encoder cs -> connectors_have_encoder (map f cs).
Proof.
  unfold connectors_have_encoder. intros Hf Hcs.
  induction Hcs as [| c cs Hc _ IH]; cbn [map]; constructor; [| assumption].
  destruct (Hf c) as [-> ->]. assumption.
Qed.

(** The inner loop for pin [i] restores the connectors on that pin. *)
Lemma reenable_connectors_map (i : Z) (cs : list intel_connector) :
  connectors_have_encoder cs ->
  reenable_connectors i cs
  = Some (map (fun c => if connector_on_pin i c then restore_connector c else c) cs).
Proof.
  unfold connectors_have_encoder. intros Hcs.
  induction Hcs as [| c cs Hc _ IH]; [reflexivity |].
  cbn [reenable_connectors map]. rewrite IH.
  unfold reenable_connector, connector_on_pin, restore_connector, restored_polled.
  destruct (mst_port c); cbn [negb andb]; [reflexivity |].
  destruct (encoder c) as [enc |]; [| now elim Hc].
  destruct (hpd_pin enc =? i); [| reflexivity].
  cbn [polled set_polled]. destruct (intel_polled c =? 0); reflexivity.
Qed.

(** The stats of pin [i] after the re-enable work has handled the pins
    [pins], and the connectors after it. *)
Lemma reenable_pins_spec (pins : list Z) (hpd : i915_hotplug)
    (cs : list intel_connector) :
  NoDup pins ->
  Forall (fun i => valid_pin hpd i) pins ->
  connectors_have_encoder cs ->
  let due i :=
    existsb (Z.eqb i) pins && hpd_state_eqb (state (pin_stats hpd i)) HPD_DISABLED in
  exists hpd' cs',
    reenable_pins (hpd, cs) pins = Some (hpd', cs')
    /\ (forall i, 0 <= i ->
          pin_stats hpd' i
          = if due i then set_state HPD_ENABLED (pin_stats hpd i) else pin_stats hpd i)
    /\ cs' = map (fun c =>
                    if negb (mst_port c)
                       && match encoder c with
                          | Some enc => due (hpd_pin enc)
                          | None => false
                          end
                    then restore_connector c else c) cs
    /\ hpd' = with_stats (stats hpd') hpd
    /\ length (stats hpd') = length (stats hpd)
    /\ (Forall (fun i => state (pin_stats hpd i) <> HPD_DISABLED) pins ->
        hpd' = hpd /\ cs' = cs).
Proof.
  intros Hnd. revert hpd cs. cbv zeta.
  induction Hnd as [| i pins Hni Hnd IH]; intros hpd cs Hv Hcs.
  - exists hpd, cs. cbn [reenable_pins existsb andb]. repeat split; auto.
    + rewrite <- (map_id cs) at 1. apply map_ext. intros c.
      destruct (negb (mst_port c)); [destruct (encoder c) |]; reflexivity.
    + now destruct hpd.
  - apply Forall_cons in Hv as [Hvi Hv].
    cbn [reenable_pins]. unfold reenable_pin.
    destruct (hpd_state_eqb (state (pin_stats hpd i)) HPD_DISABLED) eqn:Ei;
      cbn [negb].
    + (* the pin is disabled: it is enabled, its connectors are restored *)
      rewrite reenable_connectors_map by assumption.
      set (hpd1 := set_pin_stats hpd i (set_state HPD_ENABLED (pin_stats hpd i))).
      set (cs1 := map _ cs).
      destruct (IH hpd1 cs1) as (hpd' & cs' & Hrun & Hst & Hmap & Hw & Hlen & _).
      { eapply Forall_impl; [exact Hv |]. intros j Hj. now apply valid_pin_set. }
      { apply connectors_have_encoder_map; [| assumption].
        intros c. destruct (connector_on_pin i c); split; reflexivity. }
      exists hpd', cs'. split; [exact Hrun |].
      assert (forall j, 0 <= j -> j <> i -> pin_stats hpd1 j = pin_stats hpd j) as Hother.
      { intros j Hj Hne. unfold hpd1. apply pin_stats_set_ne; try assumption.
        unfold valid_pin in Hvi. lia. }
      assert (existsb (Z.eqb i) pins = false) as Hfresh.
      { apply not_true_is_false. intros Hex. apply Hni.
        apply existsb_exists in Hex as (x & Hx & Exi).
        apply Z.eqb_eq in Exi. subst x. now apply list_elem_of_In. }
      assert (pin_stats hpd1 i = set_state HPD_ENABLED (pin_stats hpd i)) as Hi1
        by (unfold hpd1; now apply pin_stats_set_eq).
      split; [| split; [| split; [| split]]].
      * intros j Hj. rewrite (Hst j Hj). cbn [existsb].
        destruct (Z.eqb_spec j i) as [-> | Hne]; cbn [orb].
        -- rewrite Hfresh, Ei. cbn [andb]. exact Hi1.
        -- now rewrite (Hother j Hj Hne).
      * rewrite Hmap. unfold cs1. rewrite map_map. apply map_ext. intros c.
        unfold connector_on_pin.
        destruct (mst_port c) eqn:Em; cbn [negb andb]; [now rewrite Em |].
        destruct (encoder c) as [enc |] eqn:Ee; [| now rewrite Em, Ee].
        cbn [existsb].
        destruct (Z.eqb_spec (hpd_pin enc) i) as [Heq | Hne]; cbn [orb].
        -- cbn [restore_connector set_polled mst_port encoder].
           rewrite Em, Ee, Heq, Hfresh, Ei. reflexivity.
        -- rewrite Em, Ee. cbn [negb andb].
           destruct (existsb (Z.eqb (hpd_pin enc)) pins) eqn:Ex; [| reflexivity].
           cbn [andb].
           assert (0 <= hpd_pin enc) as Hpos.
           { apply existsb_exists in Ex as (x & Hx & Exi).
             apply Z.eqb_eq in Exi. subst x.
             rewrite Forall_forall in Hv. apply list_elem_of_In in Hx.
             specialize (Hv _ Hx). unfold valid_pin in Hv. lia. }
           now rewrite (Hother _ Hpos Hne).
      * rewrite Hw. unfold hpd1, set_pin_stats, with_stats. cbn. reflexivity.
      * rewrite Hlen. unfold hpd1, set_pin_stats. cbn. apply length_insert.
      * intros Hall. apply Forall_cons in Hall as [Hi _].
        exfalso. apply Hi. now apply hpd_state_eqb_eq.
    + (* the pin is not disabled: nothing happens for it *)
      destruct (IH hpd cs Hv Hcs) as (hpd' & cs' & Hrun & Hst & Hmap & Hw & Hlen & Hid).
      exists hpd', cs'. split; [exact Hrun |].
      split; [| split; [| split; [| split]]]; try assumption.
      * intros j Hj. rewrite (Hst j Hj). cbn [existsb].
        destruct (Z.eqb_spec j i) as [-> | Hne]; cbn [orb]; [| reflexivity].
        rewrite Ei, andb_false_r. reflexivity.
      * rewrite Hmap. apply map_ext. intros c.
        destruct (mst_port c); cbn [negb andb]; [reflexivity |].
        destruct (encoder c) as [enc |]; [| reflexivity].
        cbn [existsb].
        destruct (Z.eqb_spec (hpd_pin enc) i) as [-> | Hne]; cbn [orb]; [| reflexivity].
        rewrite Ei, andb_false_r. reflexivity.
      * intros Hall. apply Forall_cons in Hall as [_ Hall]. now apply Hid.
Qed.

Lemma for_each_hpd_pin_NoDup : NoDup for_each_hpd_pin.
Proof.
  apply NoDup_ListNoDup. vm_compute.
  repeat (constructor; [cbn; intuition discriminate |]). constructor.
Qed.

Lemma for_each_hpd_pin_mem (i : Z) :
  existsb (Z.eqb i) for_each_hpd_pin = (1 <=? i) && (i <? HPD_NUM_PINS).
Proof.
  unfold HPD_NUM_PINS.
  change for_each_hpd_pin with [1; 2; 3; 4; 5; 6; 7; 8; 9].
  cbn [existsb]. lia.
Qed.

Lemma example_hotplug_stats (st : hpd_pin_stats) (threshold : Z) (short : bool)
    (i : Z) :
  0 <= i < HPD_NUM_PINS ->
  pin_stats (example_hotplug st threshold short) i = st.
Proof.
  intros Hi. unfold pin_stats, example_hotplug. cbn [stats].
  rewrite lookup_replicate_2; [reflexivity |]. unfold HPD_NUM_PINS in *. lia.
Qed.

(** C8 (amended): the re-enable work takes every disabled pin to
    [HPD_ENABLED] and leaves the other pins as they are; every connector
    without an MST port on such a pin gets the driver's polling preference
    back, [DRM_CONNECTOR_POLL_HPD] when there is none; and at the end of the
    pass, whether or not a pin was disabled, the [hpd_irq_setup] hook is
    called once if interrupts are enabled and the platform has the hook.
    When no pin is disabled, no pin and no connector is changed. *)
Theorem storm_reenable_work_spec (dev_priv : drm_i915_private) :
  connectors_have_encoder (connectors dev_priv) ->
  HPD_NUM_PINS <= Z.of_nat (length (stats (hotplug dev_priv))) ->
  exists d',
    intel_hpd_irq_storm_reenable_work dev_priv = Some d'
    /\ (forall i, 1 <= i < HPD_NUM_PINS ->
          (state (pin_stats (hotplug dev_priv) i) = HPD_DISABLED ->
             pin_stats (hotplug d') i
             = set_state HPD_ENABLED (pin_stats (hotplug dev_priv) i))
          /\ (state (pin_stats (hotplug dev_priv) i) <> HPD_DISABLED ->
                pin_stats (hotplug d') i = pin_stats (hotplug dev_priv) i))
    /\ connectors d'
       = map (fun c => if reenabled_connector (hotplug dev_priv) c
                       then restore_connector c else c)
           (connectors dev_priv)
    /\ calls d'
       = calls dev_priv
         ++ (if display_irqs_enabled dev_priv && has_hpd_irq_setup dev_priv
             then [Call_hpd_irq_setup] else [])
    /\ reenable_work d' = reenable_work dev_priv
    /\ ((forall i, 1 <= i < HPD_NUM_PINS ->
           state (pin_stats (hotplug dev_priv) i) <> HPD_DISABLED) ->
        hotplug d' = hotplug dev_priv /\ connectors d' = connectors dev_priv).
Proof.
  intros Hcs Hlen.
  destruct (reenable_pins_spec for_each_hpd_pin (hotplug dev_priv)
              (connectors dev_priv) for_each_hpd_pin_NoDup) as
    (hpd' & cs' & Hrun & Hst & Hmap & _ & _ & Hid); [| assumption |].
  { apply Forall_forall. intros i Hi. apply list_elem_of_In in Hi.
    assert (existsb (Z.eqb i) for_each_hpd_pin = true) as Hex
      by (apply existsb_exists; exists i; split; [assumption | apply Z.eqb_refl]).
    rewrite for_each_hpd_pin_mem in Hex. unfold valid_pin. lia. }
  unfold intel_hpd_irq_storm_reenable_work. rewrite Hrun.
  eexists. split; [reflexivity |].
  assert (forall d : drm_i915_private,
            hotplug (if display_irqs_enabled d && has_hpd_irq_setup d
                     then do_call Call_hpd_irq_setup d else d) = hotplug d
            /\ connectors (if display_irqs_enabled d && has_hpd_irq_setup d
                           then do_call Call_hpd_irq_setup d else d) = connectors d
            /\ reenable_work (if display_irqs_enabled d && has_hpd_irq_setup d
                              then do_call Call_hpd_irq_setup d else d)
               = reenable_work d
            /\ calls (if display_irqs_enabled d && has_hpd_irq_setup d
                      then do_call Call_hpd_irq_setup d else d)
               = calls d ++ (if display_irqs_enabled d && has_hpd_irq_setup d
                             then [Call_hpd_irq_setup] else []))
    as Hhook.
  { intros d. destruct (_ && _); cbn; rewrite ?app_nil_r; auto. }
  destruct (Hhook (with_connectors cs' (with_hotplug hpd' dev_priv)))
    as (-> & -> & -> & ->).
  cbn [hotplug connectors calls reenable_work display_irqs_enabled
       has_hpd_irq_setup with_connectors with_hotplug].
  split; [| split; [| split; [| split]]]; try reflexivity.
  - intros i Hi. rewrite (Hst i) by lia. rewrite for_each_hpd_pin_mem.
    replace ((1 <=? i) && (i <? HPD_NUM_PINS)) with true by lia. cbn [andb].
    split.
    + intros ->. reflexivity.
    + intros Hne. destruct (hpd_state_eqb _ _) eqn:E; [| reflexivity].
      apply hpd_state_eqb_eq in E. contradiction.
  - rewrite Hmap. apply map_ext. intros c. unfold reenabled_connector.
    destruct (encoder c); [| reflexivity].
    now rewrite for_each_hpd_pin_mem.
  - intros Hnone. apply Hid. apply Forall_forall. intros i Hi.
    apply list_elem_of_In in Hi.
    assert (existsb (Z.eqb i) for_each_hpd_pin = true) as Hex
      by (apply existsb_exists; exists i; split; [assumption | apply Z.eqb_refl]).
    rewrite for_each_hpd_pin_mem in Hex. apply Hnone. lia.
Qed.

(** C8, as stated, fails in its last part: with no pin disabled the work is
    not a no-op, it still calls the [hpd_irq_setup] hook when interrupts are
    enabled. *)
Lemma storm_reenable_work_calls_hook_anyway :
  ~ (forall dev_priv : drm_i915_private,
       connectors_have_encoder (connectors dev_priv) ->
       HPD_NUM_PINS <= Z.of_nat (length (stats (hotplug dev_priv))) ->
       (forall i, 1 <= i < HPD_NUM_PINS ->
          state (pin_stats (hotplug dev_priv) i) <> HPD_DISABLED) ->
       intel_hpd_irq_storm_reenable_work dev_priv = Some dev_priv).
Proof.
  intros H.
  pose (d := example_dev_priv (example_hotplug (mk_stats 0 0 HPD_ENABLED) 50 false)
               true []).
  assert (intel_hpd_irq_storm_reenable_work d = Some d) as E.
  { apply H.
    - constructor.
    - vm_compute. discriminate.
    - intros i Hi. unfold d, example_dev_priv. cbn [hotplug].
      rewrite example_hotplug_stats by lia. discriminate. }
  vm_compute in E. discriminate E.
Qed.

(** ** The statements at work on concrete devices *)

(** Closed comparisons of numbers. *)
Ltac by_computation :=
  vm_compute; repeat split; first [ reflexivity | discriminate ].

(** A long pulse that takes the count from 45 to 55, over the threshold 50. *)
Lemma storm_detect_counts_witness :
  let hpd := example_hotplug (mk_stats 5000 45 HPD_ENABLED) 50 false in
  fst (storm_detect 1000 hpd 5500 HPD_PORT_A true) = true
  /\ count (pin_stats (snd (storm_detect 1000 hpd 5500 HPD_PORT_A true)) HPD_PORT_A)
     = 55
  /\ state (pin_stats (snd (storm_detect 1000 hpd 5500 HPD_PORT_A true)) HPD_PORT_A)
     = HPD_MARK_DISABLED.
Proof.
  cbv zeta.
  destruct (storm_detect_counts time_in_range (msecs_to_jiffies 1000)
              (example_hotplug (mk_stats 5000 45 HPD_ENABLED) 50 false)
              5500 HPD_PORT_A true) as (H1 & _ & H3 & H4 & _).
  - unfold valid_pin. by_computation.
  - by_computation.
  - discriminate.
  - split; [exact H3 | split; [exact H1 | apply H4; exact H3]].
Defined.

(** A pulse on the last jiffy of the window is still inside it. *)
Lemma storm_detect_window_witness :
  let hpd := example_hotplug (mk_stats 5000 10 HPD_ENABLED) 50 false in
  let st' := pin_stats (snd (storm_detect 1000 hpd 6000 HPD_PORT_A true)) HPD_PORT_A in
  last_jiffies st' = 5000 /\ count st' = 20.
Proof.
  cbv zeta.
  destruct (storm_detect_window 1000
              (example_hotplug (mk_stats 5000 10 HPD_ENABLED) 50 false)
              6000 HPD_PORT_A true) as (_ & Hin & _).
  - unfold valid_pin. by_computation.
  - by_computation.
  - split; [by_computation | discriminate].
  - by_computation.
  - by_computation.
  - by_computation.
  - apply Hin. by_computation.
Defined.

(** Threshold 5, short pulses not counted: a short pulse does nothing, one
    long pulse is a storm. *)
Lemma storm_detect_gating_witness :
  let hpd := example_hotplug (mk_stats 0 0 HPD_ENABLED) 5 false in
  storm_detect 1000 hpd 100 HPD_PORT_A false = (false, hpd)
  /\ fst (storm_detect 1000 hpd 100 HPD_PORT_A true) = true.
Proof.
  cbv zeta.
  destruct (storm_detect_gating time_in_range (msecs_to_jiffies 1000)
              (example_hotplug (mk_stats 0 0 HPD_ENABLED) 5 false)
              100 HPD_PORT_A) as (_ & H).
  - unfold valid_pin. by_computation.
  - destruct (H eq_refl) as (H1 & _ & _ & H4).
    split; [exact H1 |].
    apply H4; by_computation.
Defined.

(** Threshold 5, a pin without digital port: its first pulse counts 10, the
    storm is detected, the event is held back and the work is queued. *)
Lemma irq_handler_storm_witness :
  let d := example_dev_priv (example_hotplug (mk_stats 0 0 HPD_ENABLED) 5 false)
             true [] in
  let d' := intel_hpd_irq_handler time_in_range (msecs_to_jiffies 1000) d 100
              (BIT HPD_PORT_B) 0 in
  Z.testbit (event_bits (hotplug d')) HPD_PORT_B = false
  /\ state (pin_stats (hotplug d') HPD_PORT_B) = HPD_MARK_DISABLED.
Proof.
  cbv zeta.
  destruct (irq_handler_storm time_in_range (msecs_to_jiffies 1000)
              (example_dev_priv (example_hotplug (mk_stats 0 0 HPD_ENABLED) 5 false)
                 true [])
              100 (BIT HPD_PORT_B) 0 HPD_PORT_B) as (H1 & H2 & _).
  - by_computation.
  - unfold valid_pin. by_computation.
  - reflexivity.
  - reflexivity.
  - reflexivity.
  - split; assumption.
Defined.

(** An interrupt on a disabled pin. *)
Lemma irq_handler_not_enabled_witness :
  let d := example_dev_priv
             (example_hotplug (mk_stats 0 60 HPD_DISABLED) 50 false) true [] in
  let d' := intel_hpd_irq_handler time_in_range (msecs_to_jiffies 1000) d 100
              (BIT HPD_PORT_B) 0 in
  pin_stats (hotplug d') HPD_PORT_B = pin_stats (hotplug d) HPD_PORT_B
  /\ Z.testbit (event_bits (hotplug d')) HPD_PORT_B = false.
Proof.
  cbv zeta.
  destruct (irq_handler_not_enabled time_in_range (msecs_to_jiffies 1000)
              (example_dev_priv
                 (example_hotplug (mk_stats 0 60 HPD_DISABLED) 50 false) true [])
              100 (BIT HPD_PORT_B) 0 HPD_PORT_B) as (H1 & H2 & _).
  - by_computation.
  - reflexivity.
  - discriminate.
  - split; [exact H1 | exact H2].
Defined.

(** One marked pin with one connector on it: the pin is switched and the
    polling engaged; and the same device with no pin marked, which the pass
    leaves as it is. *)
Lemma storm_switch_to_polling_spec_witness :
  let c := mk_connector DRM_CONNECTOR_POLL_HPD 0 (Some (mk_encoder HPD_PORT_B)) false in
  let d := example_dev_priv
             (example_hotplug (mk_stats 0 60 HPD_MARK_DISABLED) 50 false)
             true [c] in
  let d' := intel_hpd_irq_storm_switch_to_polling (msecs_to_jiffies 1000) d in
  let e := example_dev_priv
             (example_hotplug (mk_stats 0 60 HPD_ENABLED) 50 false) true [c] in
  (state (pin_stats (hotplug d') HPD_PORT_B) = HPD_DISABLED
   /\ connectors d' !! 0%nat = Some (set_polled POLL_CONNECT_DISCONNECT c)
   /\ calls d' = calls d ++ [Call_drm_kms_helper_poll_enable]
   /\ reenable_work d' = Some 120000)
  /\ intel_hpd_irq_storm_switch_to_polling (msecs_to_jiffies 1000) e = e.
Proof.
  cbv zeta. split.
  - destruct (storm_switch_to_polling_spec (msecs_to_jiffies 1000)
                (example_dev_priv
                   (example_hotplug (mk_stats 0 60 HPD_MARK_DISABLED) 50 false)
                   true
                   [mk_connector DRM_CONNECTOR_POLL_HPD 0
                      (Some (mk_encoder HPD_PORT_B)) false])) as (H & _).
    destruct (H HPD_PORT_B) as (H0 & _).
    + unfold valid_pin. by_computation.
    + by_computation.
    + reflexivity.
    + destruct (H0 [] (mk_connector DRM_CONNECTOR_POLL_HPD 0
                         (Some (mk_encoder HPD_PORT_B)) false) [])
        as (H1 & H2 & H3 & H4).
      * reflexivity.
      * constructor.
      * reflexivity.
      * split; [exact H1 | split; [exact H2 | split; [exact H3 | exact H4]]].
  - destruct (storm_switch_to_polling_spec (msecs_to_jiffies 1000)
                (example_dev_priv
                   (example_hotplug (mk_stats 0 60 HPD_ENABLED) 50 false)
                   true
                   [mk_connector DRM_CONNECTOR_POLL_HPD 0
                      (Some (mk_encoder HPD_PORT_B)) false]))
      as (_ & _ & _ & H & _).
    apply H. intros pin [Hm _]. revert Hm. unfold pin_stats.
    cbn [hotplug example_dev_priv example_hotplug stats].
    destruct (Z.to_nat pin) as [| [| [| [| [| [| [| [| [| [| n]]]]]]]]]];
      vm_compute; discriminate.
Defined.

(** The pins are disabled and one connector polls: the work enables the
    pin and gives the connector hot-plug detection back. *)
Lemma storm_reenable_work_spec_witness :
  let c := mk_connector POLL_CONNECT_DISCONNECT 0 (Some (mk_encoder HPD_PORT_B)) false in
  let d := example_dev_priv
             (example_hotplug (mk_stats 0 60 HPD_DISABLED) 50 false) true [c] in
  exists d',
    intel_hpd_irq_storm_reenable_work d = Some d'
    /\ connectors d' = [set_polled DRM_CONNECTOR_POLL_HPD c]
    /\ calls d' = [Call_hpd_irq_setup].
Proof.
  cbv zeta.
  destruct (storm_reenable_work_spec
              (example_dev_priv
                 (example_hotplug (mk_stats 0 60 HPD_DISABLED) 50 false) true
                 [mk_connector POLL_CONNECT_DISCONNECT 0
                    (Some (mk_encoder HPD_PORT_B)) false]))
    as (d' & Hrun & _ & Hcs & Hcalls & _).
  - constructor; [discriminate | constructor].
  - by_computation.
  - exists d'. split; [exact Hrun | split; [exact Hcs | exact Hcalls]].
Defined.

(** * More properties of the file *)

(** ** The storm detector over a train of pulses *)

Lemma train_weight_nonneg (pulses : list (Z * bool)) : 0 <= train_weight pulses.
Proof.
  induction pulses as [| [t l] pulses IH]; cbn [train_weight fold_right snd];
    [reflexivity |].
  fold (train_weight pulses). unfold pulse_weight. destruct l; lia.
Qed.

Section DetectorTrain.

Variable in_range : Z -> Z -> Z -> bool.
Variable to_jiffies : Z -> Z.

Local Abbreviation detect := (intel_hpd_irq_storm_detect in_range to_jiffies).

(** X1: pulses that all fall into the running window of a pin and are all
    counted add up: the count grows by the sum of their weights and the start
    of the window stays; and some call of the train reports a storm exactly
    when the final count exceeds the threshold. *)
Theorem storm_detect_pulse_train (hpd : i915_hotplug) (pin : Z)
    (pulses : list (Z * bool)) :
  valid_pin hpd pin ->
  0 < to_int (hpd_storm_threshold hpd) ->
  Forall (fun p =>
            (snd p = false -> hpd_short_storm_enabled hpd = true)
            /\ in_range (fst p) (last_jiffies (pin_stats hpd pin))
                 (to_ulong (last_jiffies (pin_stats hpd pin)
                            + to_jiffies HPD_STORM_DETECT_PERIOD)) = true)
    pulses ->
  0 <= count (pin_stats hpd pin) ->
  count (pin_stats hpd pin) + train_weight pulses <= INT_MAX ->
  let r := detect_pulses in_range to_jiffies hpd pin pulses in
  count (pin_stats (snd r) pin) = count (pin_stats hpd pin) + train_weight pulses
  /\ last_jiffies (pin_stats (snd r) pin) = last_jiffies (pin_stats hpd pin)
  /\ (pulses <> [] ->
      fst r = (count (pin_stats hpd pin) + train_weight pulses
               >? to_int (hpd_storm_threshold hpd))).
Proof.
  intros Hpin HT Hall. cbv zeta. revert hpd Hpin HT Hall.
  induction pulses as [| [t l] pulses IH]; intros hpd Hpin HT Hall H0 Hmax.
  - cbn [detect_pulses train_weight fold_right fst snd].
    rewrite Z.add_0_r. repeat split. intros H. now elim H.
  - apply Forall_cons in Hall as [[Hshort Hin] Hall]. cbn [fst snd] in Hshort, Hin.
    cbn [train_weight fold_right snd] in *. fold (train_weight pulses) in *.
    pose proof (train_weight_nonneg pulses) as Hnn.
    assert (0 < pulse_weight l) as Hw by (unfold pulse_weight; destruct l; lia).
    cbn [detect_pulses].
    rewrite detect_on by (try assumption; lia).
    unfold window_count. rewrite Hin.
    rewrite to_int_id by (unfold INT_MIN, INT_MAX in *; lia).
    set (c1 := count (pin_stats hpd pin) + pulse_weight l).
    set (st1 := mk_stats _ c1 _).
    set (hpd1 := set_pin_stats hpd pin st1).
    assert (pin_stats hpd1 pin = st1) as P1 by now apply pin_stats_set_eq.
    assert (valid_pin hpd1 pin) as V1 by now apply valid_pin_set.
    specialize (IH hpd1 V1 HT).
    rewrite P1 in IH. cbn [last_jiffies count st1] in IH.
    destruct IH as (IH1 & IH2 & IH3).
    { eapply Forall_impl; [exact Hall |]. intros p Hp. exact Hp. }
    { unfold c1. lia. }
    { unfold c1. lia. }
    destruct (detect_pulses in_range to_jiffies hpd1 pin pulses) as [storms hpd2]
      eqn:Erest.
    cbn [fst snd] in *. split; [| split].
    + rewrite IH1. unfold c1. lia.
    + exact IH2.
    + intros _. destruct pulses as [| p pulses'].
      * cbn in Erest. injection Erest as <- <-.
        cbn [train_weight fold_right]. rewrite orb_false_r, Z.add_0_r.
        reflexivity.
      * rewrite IH3 by discriminate. unfold c1.
        change (hpd_storm_threshold hpd1) with (hpd_storm_threshold hpd).
        destruct (Z.gtb_spec (count (pin_stats hpd pin) + pulse_weight l)
                    (to_int (hpd_storm_threshold hpd))); cbn [orb]; lia.
Qed.

(** X2: the detector writes the stats of its pin and nothing else: the
    stats of the other pins, the pending event bits, the port masks, the
    registered ports and the tunables are as before; and of its own pin it
    never moves the state except to [HPD_MARK_DISABLED], and never moves the
    start of the window except to the present time. *)
Theorem storm_detect_touches_own_pin (hpd : i915_hotplug) (jiffies pin : Z)
    (long_hpd : bool) :
  valid_pin hpd pin ->
  let hpd' := snd (detect hpd jiffies pin long_hpd) in
  (forall i, 0 <= i -> i <> pin -> pin_stats hpd' i = pin_stats hpd i)
  /\ with_stats (stats hpd) hpd' = hpd
  /\ length (stats hpd') = length (stats hpd)
  /\ (state (pin_stats hpd' pin) = state (pin_stats hpd pin)
      \/ state (pin_stats hpd' pin) = HPD_MARK_DISABLED)
  /\ (last_jiffies (pin_stats hpd' pin) = last_jiffies (pin_stats hpd pin)
      \/ last_jiffies (pin_stats hpd' pin) = jiffies).
Proof.
  intros Hpin. cbv zeta.
  destruct (detect_frame in_range to_jiffies hpd jiffies pin long_hpd)
    as (F1 & F2 & F3 & F4 & F5 & F6 & F7 & F8).
  split; [| split; [| split]].
  - intros i Hi Hne. apply F8; auto. unfold valid_pin in Hpin. lia.
  - unfold intel_hpd_irq_storm_detect.
    destruct (_ || _); [cbn; now destruct hpd |].
    destruct (negb _); destruct (_ >? _); cbn; now destruct hpd.
  - exact F7.
  - destruct (Z.eq_dec (to_int (hpd_storm_threshold hpd)) 0) as [H0 | H0].
    { rewrite detect_off by now left. cbn [snd]. now split; left. }
    destruct long_hpd, (hpd_short_storm_enabled hpd) eqn:Es;
      try (rewrite detect_off by (right; now split); cbn [snd]; now split; left).
    all: rewrite detect_on by (try assumption; intros; congruence).
    all: cbn [snd]; rewrite pin_stats_set_eq by assumption.
    all: cbn [state last_jiffies].
    all: split; [destruct (_ >? _); auto | destruct (in_range _ _ _); auto].
Qed.

End DetectorTrain.

(** ** More on the interrupt dispatcher *)

Section DispatcherMore.

Variable in_range : Z -> Z -> Z -> bool.
Variable to_jiffies : Z -> Z.

Local Abbreviation detect := (intel_hpd_irq_storm_detect in_range to_jiffies).
Local Abbreviation handler := (intel_hpd_irq_handler in_range to_jiffies).
Local Abbreviation handler_pin := (irq_handler_pin in_range to_jiffies).
Local Abbreviation handler_loop := (irq_handler_loop in_range to_jiffies).
Local Abbreviation storms := (pin_storms in_range to_jiffies).

(** The stats the detector leaves on its pin depend on the pin's own stats
    and on the two tunables only. *)
Lemma detect_stats_local (hpd hpd' : i915_hotplug) (jiffies pin : Z) (long_hpd : bool) :
  valid_pin hpd pin -> valid_pin hpd' pin ->
  pin_stats hpd' pin = pin_stats hpd pin ->
  hpd_storm_threshold hpd' = hpd_storm_threshold hpd ->
  hpd_short_storm_enabled hpd' = hpd_short_storm_enabled hpd ->
  pin_stats (snd (detect hpd' jiffies pin long_hpd)) pin
  = pin_stats (snd (detect hpd jiffies pin long_hpd)) pin.
Proof.
  intros Hv Hv' Hst Hthr Hshort.
  destruct (Z.eq_dec (to_int (hpd_storm_threshold hpd)) 0) as [H0 | H0].
  { rewrite !detect_off; [assumption | now left | left; congruence]. }
  destruct long_hpd, (hpd_short_storm_enabled hpd) eqn:Es;
    try (rewrite !detect_off; [assumption | now right | right; split; congruence]).
  all: rewrite !detect_on by (try assumption; try congruence; intros; congruence).
  all: cbn [snd]; rewrite !pin_stats_set_eq by assumption.
  all: unfold window_count; now rewrite Hst, Hthr.
Qed.

(** The digital-port test and the three tests of the flags read the pin's
    stats, the registered ports and the tunables only. *)
Lemma pin_tests_local (cnl : bool) (h h' : i915_hotplug)
    (jiffies pin_mask long_mask i : Z) :
  valid_pin h i -> valid_pin h' i ->
  pin_stats h' i = pin_stats h i ->
  irq_port h' = irq_port h ->
  hpd_storm_threshold h' = hpd_storm_threshold h ->
  hpd_short_storm_enabled h' = hpd_short_storm_enabled h ->
  is_dig_port cnl h' i = is_dig_port cnl h i
  /\ storms cnl h' jiffies pin_mask long_mask i
     = storms cnl h jiffies pin_mask long_mask i
  /\ pin_queues_dig cnl h' pin_mask i = pin_queues_dig cnl h pin_mask i
  /\ pin_delivers cnl h' pin_mask i = pin_delivers cnl h pin_mask i.
Proof.
  intros Hv Hv' Hst Hport Hthr Hshort.
  assert (is_dig_port cnl h' i = is_dig_port cnl h i) as Hdig
    by (unfold is_dig_port, irq_port_set; now rewrite Hport).
  split; [exact Hdig |].
  unfold pin_storms, pin_queues_dig, pin_delivers, pulse_is_long.
  rewrite Hdig, Hst.
  rewrite (detect_storm_local in_range to_jiffies h h') by assumption.
  auto.
Qed.

(** The three flags after the body of the loop for pin [j]. *)
Lemma handler_pin_flags (cnl : bool) (jiffies pin_mask long_mask : Z)
    (a : irq_pass) (j : Z) :
  valid_pin (pass_hotplug a) j ->
  let h := pass_hotplug a in
  let a' := handler_pin cnl jiffies pin_mask long_mask a j in
  storm_detected a'
  = storm_detected a || storms cnl h jiffies pin_mask long_mask j
  /\ queue_dig a' = queue_dig a || pin_queues_dig cnl h pin_mask j
  /\ queue_hp a'
     = queue_hp a
       || (pin_delivers cnl h pin_mask j || storms cnl h jiffies pin_mask long_mask j).
Proof.
  intros Hpin. cbv zeta.
  unfold irq_handler_pin, pin_storms, pin_queues_dig, pin_delivers, pulse_is_long,
    is_dig_port.
  destruct (Z.testbit pin_mask j); cbn [negb andb];
    [| rewrite !orb_false_r; auto].
  set (port := intel_hpd_pin_to_port cnl j).
  set (dig := negb (port =? PORT_NONE) && irq_port_set (pass_hotplug a) port).
  set (long_hpd := if dig then Z.testbit long_mask j else true).
  set (hpd1 := if dig then _ else pass_hotplug a).
  assert (stats hpd1 = stats (pass_hotplug a)
          /\ hpd_storm_threshold hpd1 = hpd_storm_threshold (pass_hotplug a)
          /\ hpd_short_storm_enabled hpd1 = hpd_short_storm_enabled (pass_hotplug a))
    as (S1 & T1 & G1)
    by (unfold hpd1; destruct dig; [destruct long_hpd |]; cbn; auto).
  assert (pin_stats hpd1 j = pin_stats (pass_hotplug a) j) as P1
    by (unfold pin_stats; now rewrite S1).
  rewrite P1.
  destruct (state (pin_stats (pass_hotplug a) j)) eqn:Es;
    cbn [hpd_state_eqb andb storm_detected queue_dig queue_hp];
    try (rewrite !orb_false_r; destruct dig; rewrite ?orb_true_r, ?orb_false_r; auto).
  set (hpd2 := if negb dig then _ else hpd1).
  assert (stats hpd2 = stats hpd1
          /\ hpd_storm_threshold hpd2 = hpd_storm_threshold hpd1
          /\ hpd_short_storm_enabled hpd2 = hpd_short_storm_enabled hpd1)
    as (S2 & T2 & G2)
    by (unfold hpd2; destruct (negb dig); cbn; auto).
  assert (fst (detect hpd2 jiffies j long_hpd)
          = fst (detect (pass_hotplug a) jiffies j long_hpd)) as Hloc.
  { apply detect_storm_local; try assumption; try congruence.
    - unfold valid_pin in *. now rewrite S2, S1.
    - unfold pin_stats. now rewrite S2, S1. }
  rewrite <- Hloc.
  destruct (detect hpd2 jiffies j long_hpd) as [storm hpd3]. cbn [fst].
  destruct storm; cbn [storm_detected queue_dig queue_hp];
    destruct dig; cbn [negb]; rewrite ?orb_true_r, ?orb_false_r; auto.
Qed.

(** The body of the loop keeps the registered ports, the tunables and the
    length of [stats[]]. *)
Lemma handler_pin_config (cnl : bool) (jiffies pin_mask long_mask : Z)
    (a : irq_pass) (j : Z) :
  0 <= j ->
  let h := pass_hotplug a in
  let h' := pass_hotplug (handler_pin cnl jiffies pin_mask long_mask a j) in
  irq_port h' = irq_port h
  /\ hpd_storm_threshold h' = hpd_storm_threshold h
  /\ hpd_short_storm_enabled h' = hpd_short_storm_enabled h
  /\ length (stats h') = length (stats h).
Proof.
  intros Hj. cbv zeta.
  pose proof (handler_pin_frame in_range to_jiffies cnl jiffies pin_mask long_mask
                a (if j =? 0 then 1 else 0) j) as F.
  unfold pass_frame in F. cbv zeta in F.
  destruct F as (_ & _ & F3 & F4 & F5 & F6 & _); auto.
  all: destruct (Z.eqb_spec j 0); lia.
Qed.

(** The three flags after the loop over [pins], by the state [h0] the
    loop agrees with on those pins. *)
Lemma handler_loop_flags (cnl : bool) (jiffies pin_mask long_mask : Z)
    (h0 : i915_hotplug) (pins : list Z) (a : irq_pass) :
  NoDup pins ->
  Forall (fun i => 0 <= i < 32 /\ valid_pin h0 i) pins ->
  Forall (fun i => pin_stats (pass_hotplug a) i = pin_stats h0 i) pins ->
  irq_port (pass_hotplug a) = irq_port h0 ->
  hpd_storm_threshold (pass_hotplug a) = hpd_storm_threshold h0 ->
  hpd_short_storm_enabled (pass_hotplug a) = hpd_short_storm_enabled h0 ->
  length (stats (pass_hotplug a)) = length (stats h0) ->
  let a' := handler_loop cnl jiffies pin_mask long_mask a pins in
  storm_detected a'
  = storm_detected a
    || existsb (storms cnl h0 jiffies pin_mask long_mask) pins
  /\ queue_dig a' = queue_dig a || existsb (pin_queues_dig cnl h0 pin_mask) pins
  /\ queue_hp a'
     = queue_hp a
       || existsb (fun i => pin_delivers cnl h0 pin_mask i
                            || storms cnl h0 jiffies pin_mask long_mask i) pins.
Proof.
  intros Hnd. revert a. cbv zeta. unfold irq_handler_loop.
  induction Hnd as [| j pins Hnj Hnd IH]; intros a Hpins Hagree Hport Hthr Hshort Hlen.
  - cbn [fold_left existsb]. rewrite !orb_false_r. auto.
  - apply Forall_cons in Hpins as [[Hj Hvj] Hpins].
    apply Forall_cons in Hagree as [Haj Hagree].
    cbn [fold_left existsb].
    assert (valid_pin (pass_hotplug a) j) as Hva
      by (unfold valid_pin in *; now rewrite Hlen).
    destruct (handler_pin_flags cnl jiffies pin_mask long_mask a j Hva)
      as (S1 & D1 & Q1).
    destruct (pin_tests_local cnl h0 (pass_hotplug a) jiffies pin_mask long_mask j
                Hvj Hva Haj Hport Hthr Hshort) as (_ & Ls & Ld & Lq).
    rewrite Ls in S1, Q1. rewrite Ld in D1. rewrite Lq in Q1.
    destruct (handler_pin_config cnl jiffies pin_mask long_mask a j)
      as (C1 & C2 & C3 & C4); [lia |].
    set (a1 := handler_pin cnl jiffies pin_mask long_mask a j) in *.
    destruct (IH a1) as (S2 & D2 & Q2); try congruence; try assumption.
    { apply Forall_forall. intros i Hi.
      rewrite Forall_forall in Hagree, Hpins.
      destruct (Hpins i Hi) as [Hi32 _].
      assert (j <> i) as Hne by (intros ->; contradiction).
      pose proof (handler_pin_frame in_range to_jiffies cnl jiffies pin_mask
                    long_mask a i j Hi32 ltac:(lia) Hne) as F.
      unfold pass_frame in F. cbv zeta in F. destruct F as (F1 & _).
      fold a1 in F1. rewrite F1. now apply Hagree. }
    rewrite S2, D2, Q2, S1, D1, Q1. rewrite !orb_assoc. auto.
Qed.

(** The pins of the loop are valid when [stats[]] has its full length. *)
Lemma for_each_hpd_pin_valid (h : i915_hotplug) :
  HPD_NUM_PINS <= Z.of_nat (length (stats h)) ->
  Forall (fun i => 0 <= i < 32 /\ valid_pin h i) for_each_hpd_pin.
Proof.
  intros Hlen. apply Forall_forall. intros i Hi. apply list_elem_of_In in Hi.
  assert (existsb (Z.eqb i) for_each_hpd_pin = true) as Hex
    by (apply existsb_exists; exists i; split; [assumption | apply Z.eqb_refl]).
  rewrite for_each_hpd_pin_mem in Hex. unfold valid_pin, HPD_NUM_PINS in *. lia.
Qed.

(** X3: the calls of one run of the dispatcher, by cause. The
    [hpd_irq_setup] hook is called, once, exactly when interrupts are enabled
    and some pin that fired was enabled and stormed; the digital-port work is
    queued exactly when some pin that fired belongs to a registered digital
    port; the hot-plug work is queued exactly when some pin that fired was
    enabled and either has no digital port or stormed. Nothing else is
    called, and the order is hook, digital-port work, hot-plug work. *)
Theorem irq_handler_calls (dev_priv : drm_i915_private)
    (jiffies pin_mask long_mask : Z) :
  pin_mask <> 0 ->
  HPD_NUM_PINS <= Z.of_nat (length (stats (hotplug dev_priv))) ->
  let cnl := cnl_with_port_f dev_priv in
  let h := hotplug dev_priv in
  calls (handler dev_priv jiffies pin_mask long_mask)
  = calls dev_priv
    ++ dispatch_calls (display_irqs_enabled dev_priv)
         (existsb (storms cnl h jiffies pin_mask long_mask) for_each_hpd_pin)
         (existsb (pin_queues_dig cnl h pin_mask) for_each_hpd_pin)
         (existsb (fun i => pin_delivers cnl h pin_mask i
                            || storms cnl h jiffies pin_mask long_mask i)
            for_each_hpd_pin).
Proof.
  intros Hm Hlen. cbv zeta.
  destruct (handler_fired in_range to_jiffies dev_priv jiffies pin_mask long_mask Hm)
    as (_ & _ & _ & Hc).
  rewrite Hc.
  destruct (handler_loop_flags (cnl_with_port_f dev_priv) jiffies pin_mask long_mask
              (hotplug dev_priv) for_each_hpd_pin
              (mk_pass (hotplug dev_priv) false false false))
    as (S & D & Q); auto using for_each_hpd_pin_NoDup, for_each_hpd_pin_valid.
  { apply Forall_forall. reflexivity. }
  rewrite S, D, Q. reflexivity.
Qed.

(** The body of the loop for an enabled pin that fired without a storm. *)
Lemma handler_pin_no_storm (cnl : bool) (jiffies pin_mask long_mask : Z)
    (a : irq_pass) (i : Z) :
  0 <= i < 32 ->
  valid_pin (pass_hotplug a) i ->
  Z.testbit pin_mask i = true ->
  state (pin_stats (pass_hotplug a) i) = HPD_ENABLED ->
  fst (detect (pass_hotplug a) jiffies i
         (pulse_is_long cnl (pass_hotplug a) long_mask i)) = false ->
  let h := pass_hotplug a in
  let h' := pass_hotplug (handler_pin cnl jiffies pin_mask long_mask a i) in
  pin_stats h' i
  = pin_stats (snd (detect h jiffies i (pulse_is_long cnl h long_mask i))) i
  /\ Z.testbit (event_bits h') i
     = Z.testbit (event_bits h) i || negb (is_dig_port cnl h i)
  /\ (is_dig_port cnl h i = true ->
      (if Z.testbit long_mask i
       then Z.testbit (long_port_mask h') (intel_hpd_pin_to_port cnl i)
       else Z.testbit (short_port_mask h') (intel_hpd_pin_to_port cnl i)) = true).
Proof.
  intros Hi Hpin Hfired Hstate Hcalm. cbv zeta.
  unfold irq_handler_pin. rewrite Hfired. cbn [negb].
  unfold pulse_is_long, is_dig_port in *.
  set (port := intel_hpd_pin_to_port cnl i) in *.
  assert (port = PORT_NONE \/ 0 <= port < I915_MAX_PORTS) as Hport
    by apply pin_to_port_range.
  set (dig := negb (port =? PORT_NONE) && irq_port_set (pass_hotplug a) port) in *.
  assert (dig = true -> 0 <= port < 32) as Hp.
  { unfold dig. intros E. apply andb_true_iff in E as [Hn _].
    unfold PORT_NONE, I915_MAX_PORTS in *. lia. }
  set (long_hpd := if dig then Z.testbit long_mask i else true) in *.
  set (hpd1 := if dig then _ else pass_hotplug a).
  assert (stats hpd1 = stats (pass_hotplug a)
          /\ hpd_storm_threshold hpd1 = hpd_storm_threshold (pass_hotplug a)
          /\ hpd_short_storm_enabled hpd1 = hpd_short_storm_enabled (pass_hotplug a)
          /\ event_bits hpd1 = event_bits (pass_hotplug a))
    as (S1 & T1 & G1 & E1)
    by (unfold hpd1; destruct dig; [destruct long_hpd |]; cbn; auto).
  assert (dig = true ->
          (if Z.testbit long_mask i
           then Z.testbit (long_port_mask hpd1) port
           else Z.testbit (short_port_mask hpd1) port) = true) as M1.
  { intros E. specialize (Hp E). unfold hpd1, long_hpd. rewrite E.
    assert (Z.testbit (Z.shiftl 1 port) port = true) as Hbit
      by (rewrite Z.shiftl_spec by lia; now rewrite Z.sub_diag).
    destruct (Z.testbit long_mask i); cbn;
      rewrite testbit_to_u32 by lia; rewrite Z.lor_spec, Hbit; apply orb_true_r. }
  assert (pin_stats hpd1 i = pin_stats (pass_hotplug a) i) as P1
    by (unfold pin_stats; now rewrite S1).
  rewrite P1, Hstate.
  set (hpd2 := if negb dig then _ else hpd1).
  assert (stats hpd2 = stats hpd1
          /\ hpd_storm_threshold hpd2 = hpd_storm_threshold hpd1
          /\ hpd_short_storm_enabled hpd2 = hpd_short_storm_enabled hpd1
          /\ long_port_mask hpd2 = long_port_mask hpd1
          /\ short_port_mask hpd2 = short_port_mask hpd1
          /\ Z.testbit (event_bits hpd2) i
             = Z.testbit (event_bits hpd1) i || negb dig)
    as (S2 & T2 & G2 & L2 & M2 & E2).
  { unfold hpd2. destruct (negb dig); cbn; repeat split.
    - rewrite testbit_set_bit by lia. now rewrite Z.eqb_refl.
    - now rewrite orb_false_r. }
  assert (valid_pin hpd2 i) as Hpin2
    by (unfold valid_pin in *; now rewrite S2, S1).
  assert (pin_stats hpd2 i = pin_stats (pass_hotplug a) i) as P2
    by (unfold pin_stats; now rewrite S2, S1).
  assert (fst (detect hpd2 jiffies i long_hpd) = false) as Hcalm2.
  { rewrite <- Hcalm. apply detect_storm_local; try assumption; congruence. }
  pose proof (detect_stats_local (pass_hotplug a) hpd2 jiffies i long_hpd
                Hpin Hpin2 P2 ltac:(congruence) ltac:(congruence)) as Hst.
  pose proof (detect_frame in_range to_jiffies hpd2 jiffies i long_hpd) as D.
  cbv zeta in D. destruct D as (D1 & _ & D3 & D4 & _).
  destruct (detect hpd2 jiffies i long_hpd) as [storm hpd3].
  cbn [fst snd] in *. subst storm. cbn [pass_hotplug].
  split; [exact Hst | split].
  - rewrite D1, E2, E1. reflexivity.
  - intros E. rewrite D3, D4, L2, M2. now apply M1.
Qed.

(** An enabled pin that fired without a storm, over the whole run. *)
Lemma handler_delivers_core (dev_priv : drm_i915_private)
    (jiffies pin_mask long_mask i : Z) :
  1 <= i < HPD_NUM_PINS ->
  HPD_NUM_PINS <= Z.of_nat (length (stats (hotplug dev_priv))) ->
  Z.testbit pin_mask i = true ->
  state (pin_stats (hotplug dev_priv) i) = HPD_ENABLED ->
  let cnl := cnl_with_port_f dev_priv in
  let h := hotplug dev_priv in
  let long_hpd := pulse_is_long cnl h long_mask i in
  fst (detect h jiffies i long_hpd) = false ->
  let d' := handler dev_priv jiffies pin_mask long_mask in
  pin_stats (hotplug d') i = pin_stats (snd (detect h jiffies i long_hpd)) i
  /\ Z.testbit (event_bits (hotplug d')) i
     = Z.testbit (event_bits h) i || negb (is_dig_port cnl h i)
  /\ (is_dig_port cnl h i = false ->
      exists l, calls d' = calls dev_priv ++ l ++ [Call_schedule_hotplug_work])
  /\ (is_dig_port cnl h i = true ->
      (if Z.testbit long_mask i
       then Z.testbit (long_port_mask (hotplug d')) (intel_hpd_pin_to_port cnl i)
       else Z.testbit (short_port_mask (hotplug d')) (intel_hpd_pin_to_port cnl i))
      = true
      /\ exists l, calls d' = calls dev_priv ++ l
                   /\ In Call_queue_dig_port_work l).
Proof.
  intros Hi Hlen Hfired Hstate. cbv zeta. intros Hcalm.
  destruct (handler_fired in_range to_jiffies dev_priv jiffies pin_mask long_mask
              (testbit_nonzero _ _ Hfired)) as (Hh & _ & _ & Hc).
  rewrite Hh, Hc.
  destruct (handler_loop_flags (cnl_with_port_f dev_priv) jiffies pin_mask long_mask
              (hotplug dev_priv) for_each_hpd_pin
              (mk_pass (hotplug dev_priv) false false false))
    as (_ & FD & FQ); auto using for_each_hpd_pin_NoDup, for_each_hpd_pin_valid.
  { apply Forall_forall. reflexivity. }
  cbn [queue_dig queue_hp orb] in FD, FQ.
  assert (In i for_each_hpd_pin) as Hin.
  { assert (existsb (Z.eqb i) for_each_hpd_pin = true) as Hex
      by (rewrite for_each_hpd_pin_mem; lia).
    apply existsb_exists in Hex as (x & Hx & Ex). apply Z.eqb_eq in Ex. now subst. }
  clear Hh Hc.
  set (cnl := cnl_with_port_f dev_priv) in *.
  assert (is_dig_port cnl (hotplug dev_priv) i = false ->
          queue_hp (handler_loop cnl jiffies pin_mask long_mask
                      (mk_pass (hotplug dev_priv) false false false)
                      for_each_hpd_pin) = true) as HQ.
  { intros Hnd. rewrite FQ. apply existsb_exists. exists i. split; [exact Hin |].
    unfold pin_delivers. now rewrite Hfired, Hstate, Hnd. }
  assert (is_dig_port cnl (hotplug dev_priv) i = true ->
          queue_dig (handler_loop cnl jiffies pin_mask long_mask
                       (mk_pass (hotplug dev_priv) false false false)
                       for_each_hpd_pin) = true) as HD.
  { intros Hd. rewrite FD. apply existsb_exists. exists i. split; [exact Hin |].
    unfold pin_queues_dig. now rewrite Hfired, Hd. }
  clear FD FQ.
  destruct (for_each_hpd_pin_split i Hi) as (l1 & l2 & Hsplit & Hl1 & Hl2).
  revert HQ HD. rewrite Hsplit. intros HQ HD.
  unfold irq_handler_loop in *. rewrite fold_left_app in *. cbn [fold_left] in *.
  set (a1 := fold_left _ l1 _) in *.
  set (a2 := handler_pin cnl jiffies pin_mask long_mask a1 i) in *.
  assert (0 <= i < 32) as Hi32 by (unfold HPD_NUM_PINS in Hi; lia).
  assert (valid_pin (hotplug dev_priv) i) as Hv
    by (unfold valid_pin, HPD_NUM_PINS in *; lia).
  pose proof (handler_loop_frame in_range to_jiffies cnl jiffies pin_mask long_mask
                i l1 (mk_pass (hotplug dev_priv) false false false) Hi32 Hl1) as F1.
  unfold irq_handler_loop in F1. fold a1 in F1.
  unfold pass_frame in F1. cbv zeta in F1. cbn [pass_hotplug] in F1.
  destruct F1 as (P1 & B1 & I1 & T1 & G1 & L1 & _).
  assert (valid_pin (pass_hotplug a1) i) as Hv1
    by (unfold valid_pin in *; now rewrite L1).
  destruct (pin_tests_local cnl (hotplug dev_priv) (pass_hotplug a1) jiffies
              pin_mask long_mask i Hv Hv1 P1 I1 T1 G1) as (Hdig & _).
  assert (pulse_is_long cnl (pass_hotplug a1) long_mask i
          = pulse_is_long cnl (hotplug dev_priv) long_mask i) as Hlong
    by (unfold pulse_is_long; now rewrite Hdig).
  destruct (handler_pin_no_storm cnl jiffies pin_mask long_mask a1 i)
    as (S2 & E2 & M2); try assumption.
  { now rewrite P1. }
  { rewrite Hlong, <- Hcalm. now apply detect_storm_local. }
  fold a2 in S2, E2, M2. rewrite Hlong, Hdig in *.
  rewrite (detect_stats_local (hotplug dev_priv) (pass_hotplug a1)) in S2
    by assumption.
  pose proof (handler_loop_frame in_range to_jiffies cnl jiffies pin_mask long_mask
                i l2 a2 Hi32 Hl2) as F2.
  unfold irq_handler_loop in F2. unfold pass_frame in F2. cbv zeta in F2.
  destruct F2 as (P3 & B3 & _ & _ & _ & _ & ML & MS & _).
  split; [| split; [| split]].
  - now rewrite P3.
  - now rewrite B3, E2, B1.
  - intros Hnd. unfold dispatch_calls. rewrite (HQ Hnd).
    eexists (_ ++ _). rewrite <- (app_assoc _ _ [Call_schedule_hotplug_work]).
    reflexivity.
  - intros Hd. split.
    + assert (intel_hpd_pin_to_port cnl i < 32) as Hp32.
      { destruct (pin_to_port_range cnl i) as [-> | Hr];
          unfold PORT_NONE, I915_MAX_PORTS in *; lia. }
      specialize (M2 Hd). destruct (Z.testbit long_mask i); [now apply ML | now apply MS].
    + eexists. split; [reflexivity |]. unfold dispatch_calls. rewrite (HD Hd).
      apply in_or_app. right. now left.
Qed.

(** X4: an enabled pin that fires without a storm is counted and, unless
    it belongs to a registered digital port, delivered: after the run its
    stats are those the storm detector leaves, its bit of the pending event
    bits is set and the run ends by queueing the hot-plug work. For a pin of a
    registered digital port the event bit is left as it was, the port is
    recorded in the long or short port mask and the digital-port work is
    queued. *)
Theorem irq_handler_delivers (dev_priv : drm_i915_private)
    (jiffies pin_mask long_mask i : Z) :
  1 <= i < HPD_NUM_PINS ->
  HPD_NUM_PINS <= Z.of_nat (length (stats (hotplug dev_priv))) ->
  Z.testbit pin_mask i = true ->
  state (pin_stats (hotplug dev_priv) i) = HPD_ENABLED ->
  let cnl := cnl_with_port_f dev_priv in
  let h := hotplug dev_priv in
  let long_hpd := pulse_is_long cnl h long_mask i in
  fst (detect h jiffies i long_hpd) = false ->
  let d' := handler dev_priv jiffies pin_mask long_mask in
  pin_stats (hotplug d') i = pin_stats (snd (detect h jiffies i long_hpd)) i
  /\ Z.testbit (event_bits (hotplug d')) i
     = Z.testbit (event_bits h) i || negb (is_dig_port cnl h i)
  /\ (is_dig_port cnl h i = false ->
      exists l, calls d' = calls dev_priv ++ l ++ [Call_schedule_hotplug_work])
  /\ (is_dig_port cnl h i = true ->
      (if Z.testbit long_mask i
       then Z.testbit (long_port_mask (hotplug d')) (intel_hpd_pin_to_port cnl i)
       else Z.testbit (short_port_mask (hotplug d')) (intel_hpd_pin_to_port cnl i))
      = true
      /\ exists l, calls d' = calls dev_priv ++ l
                   /\ In Call_queue_dig_port_work l).
Proof. apply handler_delivers_core. Qed.

(** The loop leaves a pin that did not fire alone. *)
Lemma handler_loop_unfired (cnl : bool) (jiffies pin_mask long_mask : Z)
    (i : Z) (pins : list Z) (a : irq_pass) :
  0 <= i < 32 ->
  Z.testbit pin_mask i = false ->
  Forall (fun j => 0 <= j) pins ->
  pass_frame i a (handler_loop cnl jiffies pin_mask long_mask a pins).
Proof.
  intros Hi Hquiet Hpins. revert a. unfold irq_handler_loop.
  induction Hpins as [| j pins Hj _ IH]; intros a; cbn [fold_left].
  - apply pass_frame_refl.
  - eapply pass_frame_trans; [| apply IH].
    destruct (Z.eq_dec j i) as [-> | Hne].
    + unfold irq_handler_pin. rewrite Hquiet. apply pass_frame_refl.
    + now apply handler_pin_frame.
Qed.

Lemma for_each_hpd_pin_nonneg : Forall (fun j => 0 <= j) for_each_hpd_pin.
Proof.
  apply Forall_forall. intros i Hi. apply list_elem_of_In in Hi.
  assert (existsb (Z.eqb i) for_each_hpd_pin = true) as Hex
    by (apply existsb_exists; exists i; split; [assumption | apply Z.eqb_refl]).
  rewrite for_each_hpd_pin_mem in Hex. lia.
Qed.

(** X5: what the dispatcher never touches. Whatever fired, the connectors,
    the re-enable timer, the registered ports and the tunables are as before,
    and [stats[]] keeps its length; and a pin whose bit of [pin_mask] is clear
    keeps its stats and its bit of the pending event bits. *)
Theorem irq_handler_frame (dev_priv : drm_i915_private)
    (jiffies pin_mask long_mask : Z) :
  let d' := handler dev_priv jiffies pin_mask long_mask in
  connectors d' = connectors dev_priv
  /\ reenable_work d' = reenable_work dev_priv
  /\ irq_port (hotplug d') = irq_port (hotplug dev_priv)
  /\ hpd_storm_threshold (hotplug d') = hpd_storm_threshold (hotplug dev_priv)
  /\ hpd_short_storm_enabled (hotplug d')
     = hpd_short_storm_enabled (hotplug dev_priv)
  /\ length (stats (hotplug d')) = length (stats (hotplug dev_priv))
  /\ (forall i, 0 <= i < 32 -> Z.testbit pin_mask i = false ->
        pin_stats (hotplug d') i = pin_stats (hotplug dev_priv) i
        /\ Z.testbit (event_bits (hotplug d')) i
           = Z.testbit (event_bits (hotplug dev_priv)) i).
Proof.
  cbv zeta.
  destruct (Z.eq_dec pin_mask 0) as [-> | Hm].
  { unfold intel_hpd_irq_handler. cbn. repeat split. }
  destruct (handler_fired in_range to_jiffies dev_priv jiffies pin_mask long_mask Hm)
    as (Hh & Hcs & Hre & _).
  rewrite Hh, Hcs, Hre.
  pose proof (handler_loop_unfired (cnl_with_port_f dev_priv) jiffies pin_mask
                long_mask) as F.
  split; [reflexivity | split; [reflexivity |]].
  assert (forall i, 0 <= i < 32 -> Z.testbit pin_mask i = false ->
            pass_frame i (mk_pass (hotplug dev_priv) false false false)
              (handler_loop (cnl_with_port_f dev_priv) jiffies pin_mask long_mask
                 (mk_pass (hotplug dev_priv) false false false) for_each_hpd_pin))
    as Fi by (intros i Hi Hq; apply F; auto using for_each_hpd_pin_nonneg).
  assert (irq_port (pass_hotplug
                      (handler_loop (cnl_with_port_f dev_priv) jiffies pin_mask
                         long_mask (mk_pass (hotplug dev_priv) false false false)
                         for_each_hpd_pin)) = irq_port (hotplug dev_priv)
          /\ hpd_storm_threshold (pass_hotplug
                      (handler_loop (cnl_with_port_f dev_priv) jiffies pin_mask
                         long_mask (mk_pass (hotplug dev_priv) false false false)
                         for_each_hpd_pin)) = hpd_storm_threshold (hotplug dev_priv)
          /\ hpd_short_storm_enabled (pass_hotplug
                      (handler_loop (cnl_with_port_f dev_priv) jiffies pin_mask
                         long_mask (mk_pass (hotplug dev_priv) false false false)
                         for_each_hpd_pin))
             = hpd_short_storm_enabled (hotplug dev_priv)
          /\ length (stats (pass_hotplug
                      (handler_loop (cnl_with_port_f dev_priv) jiffies pin_mask
                         long_mask (mk_pass (hotplug dev_priv) false false false)
                         for_each_hpd_pin)))
             = length (stats (hotplug dev_priv))) as (C1 & C2 & C3 & C4).
  { (* pin 0 is not a pin of the loop *)
    pose proof (handler_loop_frame in_range to_jiffies (cnl_with_port_f dev_priv)
                  jiffies pin_mask long_mask 0 for_each_hpd_pin
                  (mk_pass (hotplug dev_priv) false false false)) as F0.
    unfold pass_frame in F0. cbv zeta in F0. cbn [pass_hotplug] in F0.
    destruct F0 as (_ & _ & F3 & F4 & F5 & F6 & _); auto; [lia |].
    apply Forall_forall. intros j Hj. apply list_elem_of_In in Hj.
    assert (existsb (Z.eqb j) for_each_hpd_pin = true) as Hex
      by (apply existsb_exists; exists j; split; [assumption | apply Z.eqb_refl]).
    rewrite for_each_hpd_pin_mem in Hex. lia. }
  repeat (split; [assumption |]).
  intros i Hi Hq. specialize (Fi i Hi Hq).
  unfold pass_frame in Fi. cbv zeta in Fi. cbn [pass_hotplug] in Fi.
  destruct Fi as (P & B & _). now split.
Qed.

End DispatcherMore.

(** ** Enabling, disabling and initialising pins *)

(** X6: an enable request leaves the pin [HPD_ENABLED] whatever its state
    was, and is the only thing it does: the pin's count and window start, the
    other pins and the rest of the device are as before; on [HPD_NONE] it does
    nothing at all. *)
Theorem hpd_enable_spec (dev_priv : drm_i915_private) (pin : Z) :
  valid_pin (hotplug dev_priv) pin ->
  let d' := intel_hpd_enable dev_priv pin in
  (pin <> HPD_NONE ->
     pin_stats (hotplug d') pin
     = set_state HPD_ENABLED (pin_stats (hotplug dev_priv) pin))
  /\ (forall i, 0 <= i -> i <> pin ->
        pin_stats (hotplug d') i = pin_stats (hotplug dev_priv) i)
  /\ with_hotplug (with_stats (stats (hotplug dev_priv)) (hotplug d')) d' = dev_priv
  /\ intel_hpd_enable dev_priv HPD_NONE = dev_priv.
Proof.
  intros Hpin. cbv zeta. unfold intel_hpd_enable.
  split; [| split; [| split]].
  - intros Hn. apply Z.eqb_neq in Hn. rewrite Hn. cbn [hotplug with_hotplug].
    now apply pin_stats_set_eq.
  - intros i Hi Hne. destruct (pin =? HPD_NONE); [reflexivity |].
    cbn [hotplug with_hotplug]. apply pin_stats_set_ne; try assumption.
    unfold valid_pin in Hpin. lia.
  - destruct (pin =? HPD_NONE); destruct dev_priv as [h ? ? ? ? ? ?]; destruct h;
      reflexivity.
  - reflexivity.
Qed.

(** X7: enable and disable undo each other on a pin: after an enable
    request a disable request returns true and leaves the pin
    [HPD_DISABLED]; after a disable request an enable request leaves it
    [HPD_ENABLED]; and a second enable request changes nothing. *)
Theorem hpd_enable_disable (dev_priv : drm_i915_private) (pin : Z) :
  valid_pin (hotplug dev_priv) pin ->
  pin <> HPD_NONE ->
  let enabled := intel_hpd_enable dev_priv pin in
  let disabled := snd (intel_hpd_disable dev_priv pin) in
  fst (intel_hpd_disable enabled pin) = true
  /\ state (pin_stats (hotplug (snd (intel_hpd_disable enabled pin))) pin)
     = HPD_DISABLED
  /\ state (pin_stats (hotplug (intel_hpd_enable disabled pin)) pin) = HPD_ENABLED
  /\ intel_hpd_enable enabled pin = enabled.
Proof.
  intros Hpin Hn. cbv zeta. unfold intel_hpd_enable, intel_hpd_disable.
  apply Z.eqb_neq in Hn. rewrite Hn.
  cbn [hotplug with_hotplug].
  rewrite !pin_stats_set_eq by assumption.
  cbn [state set_state hpd_state_eqb fst snd hotplug with_hotplug].
  split; [reflexivity | split; [| split]].
  - rewrite set_pin_stats_twice. now rewrite pin_stats_set_eq.
  - destruct (hpd_state_eqb (state (pin_stats (hotplug dev_priv) pin)) HPD_ENABLED);
      cbn [snd hotplug with_hotplug]; rewrite pin_stats_set_eq;
      try reflexivity; try assumption.
    now apply valid_pin_set.
  - rewrite set_pin_stats_twice. reflexivity.
Qed.

(** The loop of [intel_hpd_init] over the pins [pins]. *)
Lemma hpd_init_pins_spec (pins : list Z) (hpd : i915_hotplug) :
  NoDup pins ->
  Forall (fun i => valid_pin hpd i) pins ->
  let hpd' := fold_left hpd_init_pin pins hpd in
  (forall i, 0 <= i ->
     pin_stats hpd' i
     = if existsb (Z.eqb i) pins
       then mk_stats (last_jiffies (pin_stats hpd i)) 0 HPD_ENABLED
       else pin_stats hpd i)
  /\ with_stats (stats hpd) hpd' = hpd
  /\ length (stats hpd') = length (stats hpd).
Proof.
  intros Hnd. revert hpd. cbv zeta.
  induction Hnd as [| j pins Hnj Hnd IH]; intros hpd Hv.
  - cbn [fold_left existsb]. repeat split. now destruct hpd.
  - apply Forall_cons in Hv as [Hvj Hv]. cbn [fold_left].
    assert (hpd_init_pin hpd j
            = set_pin_stats hpd j
                (mk_stats (last_jiffies (pin_stats hpd j)) 0 HPD_ENABLED)) as E.
    { unfold hpd_init_pin. rewrite set_pin_stats_twice.
      rewrite pin_stats_set_eq by assumption. reflexivity. }
    rewrite E. set (hpd1 := set_pin_stats hpd j _).
    destruct (IH hpd1) as (I1 & I2 & I3).
    { eapply Forall_impl; [exact Hv |]. intros k Hk. now apply valid_pin_set. }
    assert (existsb (Z.eqb j) pins = false) as Hfresh.
    { apply not_true_is_false. intros Hex. apply Hnj.
      apply existsb_exists in Hex as (x & Hx & Ex).
      apply Z.eqb_eq in Ex. subst x. now apply list_elem_of_In. }
    split; [| split].
    + intros i Hi. rewrite (I1 i Hi). cbn [existsb].
      destruct (Z.eqb_spec i j) as [-> | Hne]; cbn [orb].
      * rewrite Hfresh. unfold hpd1. now apply pin_stats_set_eq.
      * unfold hpd1. rewrite pin_stats_set_ne; try assumption; try reflexivity.
        unfold valid_pin in Hvj. lia.
    + unfold hpd1, set_pin_stats, with_stats in I2 |- *.
      destruct (fold_left hpd_init_pin pins _) as [s1 e1 p1 l1 sh1 pe1 th1 se1].
      destruct hpd as [s0 e0 p0 l0 sh0 pe0 th0 se0]. cbn in I2 |- *.
      injection I2 as -> -> -> -> -> -> ->. reflexivity.
    + rewrite I3. unfold hpd1, set_pin_stats. cbn. apply length_insert.
Qed.

(** X8: [intel_hpd_init] leaves every pin of the loop [HPD_ENABLED] with
    the count 0 (the start of the window is not reset) and clears
    [poll_enabled]; the slot of [HPD_NONE], the pending event bits, the port
    masks, the tunables and the connectors are as before. It schedules the
    poll-init work and calls the [hpd_irq_setup] hook, once, exactly when
    interrupts are enabled and the platform has the hook. *)
Theorem hpd_init_spec (dev_priv : drm_i915_private) :
  HPD_NUM_PINS <= Z.of_nat (length (stats (hotplug dev_priv))) ->
  let d' := fst (intel_hpd_init dev_priv) in
  (forall i, 1 <= i < HPD_NUM_PINS ->
     pin_stats (hotplug d') i
     = mk_stats (last_jiffies (pin_stats (hotplug dev_priv) i)) 0 HPD_ENABLED)
  /\ pin_stats (hotplug d') HPD_NONE = pin_stats (hotplug dev_priv) HPD_NONE
  /\ poll_enabled (hotplug d') = false
  /\ with_poll_enabled (poll_enabled (hotplug dev_priv))
       (with_stats (stats (hotplug dev_priv)) (hotplug d'))
     = hotplug dev_priv
  /\ connectors d' = connectors dev_priv
  /\ reenable_work d' = reenable_work dev_priv
  /\ calls d'
     = calls dev_priv
       ++ (if display_irqs_enabled dev_priv && has_hpd_irq_setup dev_priv
           then [Call_hpd_irq_setup] else [])
  /\ snd (intel_hpd_init dev_priv) = [Out_schedule_poll_init_work].
Proof.
  intros Hlen. cbv zeta.
  destruct (hpd_init_pins_spec for_each_hpd_pin (hotplug dev_priv)
              for_each_hpd_pin_NoDup) as (I1 & I2 & I3).
  { eapply Forall_impl; [apply (for_each_hpd_pin_valid _ Hlen) |].
    intros i [_ Hi]. exact Hi. }
  unfold intel_hpd_init. cbn [fst snd].
  revert I1 I2 I3.
  generalize (fold_left hpd_init_pin for_each_hpd_pin (hotplug dev_priv)).
  intros hpd I1 I2 I3.
  cbn [display_irqs_enabled has_hpd_irq_setup with_hotplug].
  assert (forall i, pin_stats (with_poll_enabled false hpd) i = pin_stats hpd i)
    as Hpe by reflexivity.
  destruct (display_irqs_enabled dev_priv), (has_hpd_irq_setup dev_priv);
    cbn [andb hotplug connectors reenable_work calls do_call];
    rewrite ?app_nil_r.
  all: repeat split.
  all: try (intros i Hi; rewrite Hpe, I1 by lia; rewrite for_each_hpd_pin_mem;
            replace ((1 <=? i) && (i <? HPD_NUM_PINS)) with true by lia;
            reflexivity).
  all: try (rewrite Hpe, I1 by (unfold HPD_NONE; lia);
            now rewrite for_each_hpd_pin_mem).
  all: revert I2; clear;
    destruct hpd, (hotplug dev_priv); cbn;
    intros I2; injection I2 as -> -> -> -> -> -> ->; reflexivity.
Qed.

Section CountsAcrossRequests.

Variable in_range : Z -> Z -> Z -> bool.
Variable to_jiffies : Z -> Z.

Local Abbreviation detect := (intel_hpd_irq_storm_detect in_range to_jiffies).

(** X9: an enable request does not reset the count. A pin whose count is
    over the threshold (it stormed) and that is enabled by request is marked
    again by the next counted pulse that falls into the same window. *)
Theorem hpd_enable_keeps_count (dev_priv : drm_i915_private)
    (jiffies pin : Z) (long_hpd : bool) :
  valid_pin (hotplug dev_priv) pin ->
  pin <> HPD_NONE ->
  let st := pin_stats (hotplug dev_priv) pin in
  0 < to_int (hpd_storm_threshold (hotplug dev_priv)) < count st ->
  count st + 10 <= INT_MAX ->
  (long_hpd = false -> hpd_short_storm_enabled (hotplug dev_priv) = true) ->
  in_range jiffies (last_jiffies st)
    (to_ulong (last_jiffies st + to_jiffies HPD_STORM_DETECT_PERIOD)) = true ->
  let enabled := hotplug (intel_hpd_enable dev_priv pin) in
  state (pin_stats enabled pin) = HPD_ENABLED
  /\ fst (detect enabled jiffies pin long_hpd) = true
  /\ state (pin_stats (snd (detect enabled jiffies pin long_hpd)) pin)
     = HPD_MARK_DISABLED.
Proof.
  intros Hpin Hn. cbv zeta. intros HT Hmax Hshort Hin.
  unfold intel_hpd_enable. apply Z.eqb_neq in Hn. rewrite Hn.
  cbn [hotplug with_hotplug].
  set (h := set_pin_stats (hotplug dev_priv) pin _).
  assert (valid_pin h pin) as Hv by now apply valid_pin_set.
  assert (pin_stats h pin = set_state HPD_ENABLED (pin_stats (hotplug dev_priv) pin))
    as Hst by (unfold h; now apply pin_stats_set_eq).
  assert (fst (detect h jiffies pin long_hpd) = true) as Hstorm.
  { rewrite detect_on; try assumption.
    - cbn [fst]. unfold window_count. rewrite Hst. cbn [last_jiffies count set_state].
      rewrite Hin. rewrite to_int_id.
      + change (hpd_storm_threshold h)
          with (hpd_storm_threshold (hotplug dev_priv)).
        unfold pulse_weight. destruct long_hpd; lia.
      + unfold INT_MIN, INT_MAX, pulse_weight in *. destruct long_hpd; lia.
    - change (hpd_storm_threshold h) with (hpd_storm_threshold (hotplug dev_priv)).
      lia. }
  split; [now rewrite Hst | split; [exact Hstorm |]].
  now apply detect_storm_marks.
Qed.

(** X10: [intel_hpd_init] starts the count afresh. After it the first
    counted pulse on a pin leaves the count at the weight of that pulse,
    wherever the old window stood, and is a storm only if that weight alone
    exceeds the threshold. *)
Theorem hpd_init_fresh_count (dev_priv : drm_i915_private)
    (jiffies i : Z) (long_hpd : bool) :
  HPD_NUM_PINS <= Z.of_nat (length (stats (hotplug dev_priv))) ->
  1 <= i < HPD_NUM_PINS ->
  detector_counts (hotplug dev_priv) long_hpd ->
  let h := hotplug (fst (intel_hpd_init dev_priv)) in
  count (pin_stats (snd (detect h jiffies i long_hpd)) i) = pulse_weight long_hpd
  /\ fst (detect h jiffies i long_hpd)
     = (pulse_weight long_hpd >? to_int (hpd_storm_threshold (hotplug dev_priv))).
Proof.
  intros Hlen Hi [Hthr Hshort]. cbv zeta.
  destruct (hpd_init_pins_spec for_each_hpd_pin (hotplug dev_priv)
              for_each_hpd_pin_NoDup) as (I1 & I2 & I3).
  { eapply Forall_impl; [apply (for_each_hpd_pin_valid _ Hlen) |].
    intros k [_ Hk]. exact Hk. }
  assert (hotplug (fst (intel_hpd_init dev_priv))
          = with_poll_enabled false
              (fold_left hpd_init_pin for_each_hpd_pin (hotplug dev_priv))) as Eh.
  { unfold intel_hpd_init. cbn [fst].
    cbn [display_irqs_enabled has_hpd_irq_setup with_hotplug].
    destruct (display_irqs_enabled dev_priv), (has_hpd_irq_setup dev_priv);
      reflexivity. }
  rewrite Eh. clear Eh. revert I1 I2 I3.
  generalize (fold_left hpd_init_pin for_each_hpd_pin (hotplug dev_priv)).
  intros hpd I1 I2 I3.
  set (h := with_poll_enabled false hpd).
  assert (pin_stats h i
          = mk_stats (last_jiffies (pin_stats (hotplug dev_priv) i)) 0 HPD_ENABLED)
    as Hst.
  { change (pin_stats h i) with (pin_stats hpd i). rewrite I1 by lia.
    rewrite for_each_hpd_pin_mem.
    now replace ((1 <=? i) && (i <? HPD_NUM_PINS)) with true by lia. }
  assert (hpd_storm_threshold h = hpd_storm_threshold (hotplug dev_priv)
          /\ hpd_short_storm_enabled h = hpd_short_storm_enabled (hotplug dev_priv))
    as [Et Es].
  { change (hpd_storm_threshold h) with (hpd_storm_threshold hpd).
    change (hpd_short_storm_enabled h) with (hpd_short_storm_enabled hpd).
    split; [exact (f_equal hpd_storm_threshold I2)
           | exact (f_equal hpd_short_storm_enabled I2)]. }
  assert (valid_pin h i) as Hv.
  { unfold valid_pin. change (stats h) with (stats hpd). rewrite I3.
    unfold HPD_NUM_PINS in *. lia. }
  rewrite detect_on;
    [| assumption | now rewrite Et | intros L; rewrite Es; now apply Hshort].
  cbn [fst snd]. rewrite pin_stats_set_eq by assumption. cbn [count].
  unfold window_count. rewrite Hst. cbn [count last_jiffies]. rewrite Et.
  assert (to_int ((if in_range jiffies (last_jiffies (pin_stats (hotplug dev_priv) i))
                        (to_ulong (last_jiffies (pin_stats (hotplug dev_priv) i)
                                   + to_jiffies HPD_STORM_DETECT_PERIOD))
                   then 0 else 0) + pulse_weight long_hpd)
          = pulse_weight long_hpd) as ->.
  { destruct (in_range _ _ _); destruct long_hpd; reflexivity. }
  split; reflexivity.
Qed.

End CountsAcrossRequests.

(** ** More on the polling fallback and the re-enable work *)

(** A connector the loop would not act on stays so while the loop runs. *)
Lemma storm_switchable_stays_false (cs : list intel_connector)
    (hpd : i915_hotplug) (dis : bool) (c : intel_connector) :
  storm_switchable hpd c = false ->
  storm_switchable (fst (fst (storm_switch_connectors hpd dis cs))) c = false.
Proof.
  unfold storm_switchable. intros H.
  destruct (polled c =? DRM_CONNECTOR_POLL_HPD); cbn [andb] in *; [| reflexivity].
  destruct (encoder c) as [enc |]; [| reflexivity].
  destruct (negb (hpd_pin enc =? HPD_NONE)); cbn [andb] in *; [| reflexivity].
  rewrite storm_switch_connectors_keeps; [assumption |].
  intros E. apply hpd_state_eqb_eq in E. congruence.
Qed.

(** After the loop there is no connector left for the loop to act on. *)
Lemma storm_switch_connectors_done (cs : list intel_connector)
    (hpd : i915_hotplug) (dis : bool) :
  Forall (fun c => storm_switchable
                     (fst (fst (storm_switch_connectors hpd dis cs))) c = false)
    (snd (storm_switch_connectors hpd dis cs)).
Proof.
  revert hpd dis. induction cs as [| c cs IH]; intros hpd dis; [constructor |].
  rewrite storm_switch_connectors_cons. cbn [fst snd].
  constructor; [| apply IH].
  apply storm_switchable_stays_false.
  destruct (storm_switch_connector_cases hpd dis c)
    as [[Hf ->] | (enc & _ & _ & _ & _ & ->)]; cbn [fst snd]; [assumption |].
  reflexivity.
Qed.

(** With no connector to act on the loop changes nothing. *)
Lemma storm_switch_connectors_nothing (cs : list intel_connector)
    (hpd : i915_hotplug) (dis : bool) :
  Forall (fun c => storm_switchable hpd c = false) cs ->
  storm_switch_connectors hpd dis cs = (hpd, dis, cs).
Proof.
  intros H. induction H as [| c cs Hc _ IH]; [reflexivity |].
  rewrite storm_switch_connectors_cons.
  destruct (storm_switch_connector_cases hpd dis c)
    as [[_ ->] | (enc & Ht & _)]; [| congruence].
  cbn [fst snd]. now rewrite IH.
Qed.

Section FallbackMore.

Variable to_jiffies : Z -> Z.

Local Abbreviation switch_to_polling :=
  (intel_hpd_irq_storm_switch_to_polling to_jiffies).

(** X11: the polling fallback finishes its job in one pass. After it no
    connector that is still polled by hot-plug interrupt has its encoder on a
    marked pin, and a second pass right after the first changes nothing and
    calls nothing (the timer is not armed again). *)
Theorem storm_switch_to_polling_idempotent (dev_priv : drm_i915_private) :
  let d' := switch_to_polling dev_priv in
  Forall (fun c => storm_switchable (hotplug d') c = false) (connectors d')
  /\ switch_to_polling d' = d'.
Proof.
  cbv zeta.
  destruct (switch_to_polling_eq to_jiffies dev_priv) as (Hh & Hcs & _).
  cbv zeta in Hh, Hcs.
  assert (Forall (fun c => storm_switchable (hotplug (switch_to_polling dev_priv)) c
                           = false)
            (connectors (switch_to_polling dev_priv))) as Hdone
    by (rewrite Hh, Hcs; apply storm_switch_connectors_done).
  split; [exact Hdone |].
  unfold intel_hpd_irq_storm_switch_to_polling at 1.
  rewrite (storm_switch_connectors_nothing _ _ _ Hdone).
  now destruct (switch_to_polling dev_priv).
Qed.

End FallbackMore.

(** One connector of the loop moves a slot of [stats[]] from
    [HPD_MARK_DISABLED] to [HPD_DISABLED], or leaves it. *)
Lemma storm_switch_connector_pin (hpd : i915_hotplug) (dis : bool)
    (c : intel_connector) (p : Z) :
  let h1 := fst (fst (storm_switch_connector hpd dis c)) in
  pin_stats h1 p = pin_stats hpd p
  \/ (state (pin_stats hpd p) = HPD_MARK_DISABLED
      /\ pin_stats h1 p = set_state HPD_DISABLED (pin_stats hpd p)).
Proof.
  cbv zeta.
  destruct (storm_switch_connector_cases hpd dis c)
    as [[_ ->] | (enc & _ & _ & _ & Hm & ->)]; [now left |].
  cbn [fst].
  destruct (Nat.eq_dec (Z.to_nat (hpd_pin enc)) (Z.to_nat p)) as [E | E].
  - right. pose proof (pin_stats_marked_lookup _ _ Hm) as Hlt.
    unfold pin_stats, set_pin_stats in *. cbn [stats with_stats].
    rewrite <- E. rewrite list_lookup_insert_eq by assumption. cbn. now split.
  - left. unfold pin_stats, set_pin_stats. cbn [stats with_stats].
    now rewrite list_lookup_insert_ne.
Qed.

Lemma storm_switch_connectors_pin (cs : list intel_connector)
    (hpd : i915_hotplug) (dis : bool) (p : Z) :
  let h' := fst (fst (storm_switch_connectors hpd dis cs)) in
  pin_stats h' p = pin_stats hpd p
  \/ (state (pin_stats hpd p) = HPD_MARK_DISABLED
      /\ pin_stats h' p = set_state HPD_DISABLED (pin_stats hpd p)).
Proof.
  cbv zeta. revert hpd dis.
  induction cs as [| c cs IH]; intros hpd dis; [now left |].
  rewrite storm_switch_connectors_cons. cbn [fst snd].
  destruct (storm_switch_connector_pin hpd dis c p) as [E | [Hm E]].
  - rewrite <- E. apply IH.
  - right. split; [assumption |].
    rewrite storm_switch_connectors_keeps; [assumption |].
    rewrite E. discriminate.
Qed.

Lemma storm_switch_connectors_rest (cs : list intel_connector)
    (hpd : i915_hotplug) (dis : bool) :
  with_stats (stats hpd) (fst (fst (storm_switch_connectors hpd dis cs))) = hpd.
Proof.
  revert hpd dis. induction cs as [| c cs IH]; intros hpd dis;
    [now destruct hpd |].
  rewrite storm_switch_connectors_cons. cbn [fst snd].
  specialize (IH (fst (fst (storm_switch_connector hpd dis c)))
                (snd (fst (storm_switch_connector hpd dis c)))).
  destruct (storm_switch_connector_cases hpd dis c)
    as [[_ E] | (enc & _ & _ & _ & _ & E)]; rewrite E in *; cbn [fst snd] in *;
    [assumption |].
  unfold set_pin_stats, with_stats in *. cbn in IH.
  destruct (fst (fst (storm_switch_connectors _ _ cs))), hpd. cbn in *.
  injection IH as -> -> -> -> -> -> ->. reflexivity.
Qed.

(** Every connector after the loop is as before, or was one the loop acts
    on, polls now, and has its pin disabled. *)
Lemma storm_switch_connectors_rel (cs : list intel_connector)
    (hpd : i915_hotplug) (dis : bool) :
  let r := storm_switch_connectors hpd dis cs in
  Forall2 (fun c c' =>
             c' = c
             \/ (storm_switchable hpd c = true
                 /\ c' = set_polled POLL_CONNECT_DISCONNECT c
                 /\ exists enc,
                      encoder c = Some enc
                      /\ state (pin_stats (fst (fst r)) (hpd_pin enc)) = HPD_DISABLED))
    cs (snd r).
Proof.
  cbv zeta. revert hpd dis.
  induction cs as [| c cs IH]; intros hpd dis; [constructor |].
  rewrite storm_switch_connectors_cons. cbn [fst snd].
  constructor.
  - destruct (storm_switch_connector_cases hpd dis c)
      as [[_ ->] | (enc & Hs & He & _ & Hm & ->)]; cbn [fst snd]; [now left |].
    right. split; [assumption | split; [reflexivity |]].
    exists enc. split; [assumption |].
    pose proof (pin_stats_marked_lookup _ _ Hm) as Hlt.
    assert (pin_stats (set_pin_stats hpd (hpd_pin enc)
                         (set_state HPD_DISABLED (pin_stats hpd (hpd_pin enc))))
              (hpd_pin enc)
            = set_state HPD_DISABLED (pin_stats hpd (hpd_pin enc))) as E.
    { unfold pin_stats at 1, set_pin_stats. cbn [stats with_stats].
      now rewrite list_lookup_insert_eq. }
    rewrite storm_switch_connectors_keeps; rewrite E; [reflexivity | discriminate].
  - eapply Forall2_impl; [apply IH |].
    intros c0 c0' [-> | (Hs & -> & enc & He & Hd)]; [now left |].
    right. split; [| split; [reflexivity | eauto]].
    (* it was already one to act on before the head connector was handled *)
    destruct (storm_switchable hpd c0) eqn:E0; [reflexivity |].
    pose proof (storm_switchable_stays_false [c] hpd dis c0 E0) as F.
    rewrite storm_switch_connectors_cons in F. cbn [fst snd] in F.
    cbn [storm_switch_connectors fst] in F. congruence.
Qed.

Section FallbackTransitions.

Variable to_jiffies : Z -> Z.

Local Abbreviation switch_to_polling :=
  (intel_hpd_irq_storm_switch_to_polling to_jiffies).

(** X12: the only transition of the polling fallback is from
    [HPD_MARK_DISABLED] to [HPD_DISABLED]. Every slot of [stats[]] is as
    before or made that step (count and window start kept); every connector
    is as before, or was polled by hot-plug interrupt on a marked pin, polls
    for connect and disconnect now, and has its pin disabled; the pending
    event bits, the port masks, the registered ports and the tunables are as
    before. *)
Theorem storm_switch_to_polling_transitions (dev_priv : drm_i915_private) :
  let d' := switch_to_polling dev_priv in
  (forall p,
     pin_stats (hotplug d') p = pin_stats (hotplug dev_priv) p
     \/ (state (pin_stats (hotplug dev_priv) p) = HPD_MARK_DISABLED
         /\ pin_stats (hotplug d') p
            = set_state HPD_DISABLED (pin_stats (hotplug dev_priv) p)))
  /\ Forall2 (fun c c' =>
                c' = c
                \/ (storm_switchable (hotplug dev_priv) c = true
                    /\ c' = set_polled POLL_CONNECT_DISCONNECT c
                    /\ exists enc,
                         encoder c = Some enc
                         /\ state (pin_stats (hotplug d') (hpd_pin enc))
                            = HPD_DISABLED))
       (connectors dev_priv) (connectors d')
  /\ with_stats (stats (hotplug dev_priv)) (hotplug d') = hotplug dev_priv.
Proof.
  cbv zeta.
  destruct (switch_to_polling_eq to_jiffies dev_priv) as (Hh & Hcs & _).
  cbv zeta in Hh, Hcs. rewrite Hh, Hcs.
  split; [| split].
  - intros p. apply storm_switch_connectors_pin.
  - apply storm_switch_connectors_rel.
  - apply storm_switch_connectors_rest.
Qed.

End FallbackTransitions.

(** The re-enable work, from its loop. *)
Lemma reenable_work_eq (dev_priv : drm_i915_private)
    (hpd : i915_hotplug) (cs : list intel_connector) :
  reenable_pins (hotplug dev_priv, connectors dev_priv) for_each_hpd_pin
  = Some (hpd, cs) ->
  exists d',
    intel_hpd_irq_storm_reenable_work dev_priv = Some d'
    /\ hotplug d' = hpd /\ connectors d' = cs
    /\ reenable_work d' = reenable_work dev_priv.
Proof.
  intros Hrun. unfold intel_hpd_irq_storm_reenable_work. rewrite Hrun.
  eexists. split; [reflexivity |].
  destruct (_ && _); cbn; auto.
Qed.

Lemma restore_connector_fields (c : intel_connector) (b : bool) :
  mst_port (if b then restore_connector c else c) = mst_port c
  /\ encoder (if b then restore_connector c else c) = encoder c.
Proof. destruct b; split; reflexivity. Qed.

(** X13: the re-enable work settles in one pass. After it no pin of the
    loop is [HPD_DISABLED], a pin that is marked but not yet disabled is left
    marked, no count and no window start has moved; and a second pass right
    after the first changes no pin and no connector. *)
Theorem storm_reenable_work_settles (dev_priv : drm_i915_private) :
  connectors_have_encoder (connectors dev_priv) ->
  HPD_NUM_PINS <= Z.of_nat (length (stats (hotplug dev_priv))) ->
  exists d',
    intel_hpd_irq_storm_reenable_work dev_priv = Some d'
    /\ (forall i, 1 <= i < HPD_NUM_PINS ->
          state (pin_stats (hotplug d') i) <> HPD_DISABLED
          /\ (state (pin_stats (hotplug dev_priv) i) = HPD_MARK_DISABLED ->
              state (pin_stats (hotplug d') i) = HPD_MARK_DISABLED)
          /\ count (pin_stats (hotplug d') i) = count (pin_stats (hotplug dev_priv) i)
          /\ last_jiffies (pin_stats (hotplug d') i)
             = last_jiffies (pin_stats (hotplug dev_priv) i))
    /\ exists d'',
         intel_hpd_irq_storm_reenable_work d' = Some d''
         /\ hotplug d'' = hotplug d' /\ connectors d'' = connectors d'.
Proof.
  intros Hcs Hlen.
  assert (Forall (fun i => valid_pin (hotplug dev_priv) i) for_each_hpd_pin) as Hv.
  { eapply Forall_impl; [apply (for_each_hpd_pin_valid _ Hlen) |].
    intros k [_ Hk]. exact Hk. }
  destruct (reenable_pins_spec for_each_hpd_pin (hotplug dev_priv)
              (connectors dev_priv) for_each_hpd_pin_NoDup Hv Hcs)
    as (hpd' & cs' & Hrun & Hst & Hmap & _ & Hl & _).
  destruct (reenable_work_eq dev_priv hpd' cs' Hrun) as (d' & Hd' & Hh' & Hc' & _).
  exists d'. split; [exact Hd' |].
  assert (forall i, 1 <= i < HPD_NUM_PINS ->
            pin_stats hpd' i
            = if hpd_state_eqb (state (pin_stats (hotplug dev_priv) i)) HPD_DISABLED
              then set_state HPD_ENABLED (pin_stats (hotplug dev_priv) i)
              else pin_stats (hotplug dev_priv) i) as Hst'.
  { intros i Hi. rewrite (Hst i) by lia. rewrite for_each_hpd_pin_mem.
    now replace ((1 <=? i) && (i <? HPD_NUM_PINS)) with true by lia. }
  assert (forall i, 1 <= i < HPD_NUM_PINS ->
            state (pin_stats hpd' i) <> HPD_DISABLED) as Hnone.
  { intros i Hi. rewrite (Hst' i Hi).
    destruct (state (pin_stats (hotplug dev_priv) i)) eqn:E; cbn; try rewrite E;
      discriminate. }
  split.
  - intros i Hi. rewrite Hh'. split; [now apply Hnone |].
    rewrite (Hst' i Hi).
    destruct (state (pin_stats (hotplug dev_priv) i)) eqn:E; cbn;
      repeat split; try discriminate; auto.
  - assert (connectors_have_encoder cs') as Hcs'.
    { rewrite Hmap. apply connectors_have_encoder_map; [| assumption].
      intros c. apply restore_connector_fields. }
    assert (Forall (fun i => valid_pin hpd' i) for_each_hpd_pin) as Hv'.
    { eapply Forall_impl; [exact Hv |]. intros k Hk.
      unfold valid_pin in *. now rewrite Hl. }
    destruct (reenable_pins_spec for_each_hpd_pin hpd' cs'
                for_each_hpd_pin_NoDup Hv' Hcs')
      as (h2 & cs2 & Hrun2 & _ & _ & _ & _ & Hid).
    destruct Hid as [-> ->].
    { apply Forall_forall. intros i Hi. apply list_elem_of_In in Hi.
      assert (existsb (Z.eqb i) for_each_hpd_pin = true) as Hex
        by (apply existsb_exists; exists i; split; [assumption | apply Z.eqb_refl]).
      rewrite for_each_hpd_pin_mem in Hex. apply Hnone. lia. }
    rewrite <- Hh', <- Hc' in Hrun2.
    destruct (reenable_work_eq d' _ _ Hrun2) as (d'' & Hd'' & Hh'' & Hc'' & _).
    exists d''. auto.
Qed.

Section Recovery.

Variable to_jiffies : Z -> Z.

Local Abbreviation switch_to_polling :=
  (intel_hpd_irq_storm_switch_to_polling to_jiffies).

(** X14: fallback, then recovery. When every connector has an encoder on a
    pin of the enumeration, no MST port, and is in the polling mode the driver
    prefers for it, the polling fallback followed by the re-enable work gives
    every connector its polling mode back, leaves no pin of the loop
    disabled, and leaves a marked pin that has a connector polled by hot-plug
    interrupt enabled, with its count. *)
Theorem storm_fallback_recovery (dev_priv : drm_i915_private) :
  HPD_NUM_PINS <= Z.of_nat (length (stats (hotplug dev_priv))) ->
  Forall (fun c =>
            mst_port c = false
            /\ polled c = restored_polled c
            /\ exists enc, encoder c = Some enc /\ 0 <= hpd_pin enc < HPD_NUM_PINS)
    (connectors dev_priv) ->
  exists d'',
    intel_hpd_irq_storm_reenable_work (switch_to_polling dev_priv) = Some d''
    /\ connectors d'' = connectors dev_priv
    /\ (forall i, 1 <= i < HPD_NUM_PINS ->
          state (pin_stats (hotplug d'') i) <> HPD_DISABLED)
    /\ (forall i l1 c l2,
          1 <= i < HPD_NUM_PINS ->
          state (pin_stats (hotplug dev_priv) i) = HPD_MARK_DISABLED ->
          connectors dev_priv = l1 ++ c :: l2 ->
          Forall (fun c' => storm_candidate i c' = false) l1 ->
          storm_candidate i c = true ->
          pin_stats (hotplug d'') i
          = set_state HPD_ENABLED (pin_stats (hotplug dev_priv) i)).
Proof.
  intros Hlen Hwf.
  destruct (switch_to_polling_eq to_jiffies dev_priv) as (Hh & Hcs & _).
  cbv zeta in Hh, Hcs.
  set (d' := switch_to_polling dev_priv) in *.
  pose proof (storm_switch_connectors_rel (connectors dev_priv) (hotplug dev_priv)
                false) as Hrel.
  cbv zeta in Hrel. rewrite <- Hh, <- Hcs in Hrel.
  pose proof (storm_switch_connectors_rest (connectors dev_priv) (hotplug dev_priv)
                false) as Hrest.
  rewrite <- Hh in Hrest.
  assert (length (stats (hotplug d')) = length (stats (hotplug dev_priv))) as Hl.
  { rewrite Hh.
    clear. generalize (hotplug dev_priv) false.
    induction (connectors dev_priv) as [| c cs IH]; intros h b; [reflexivity |].
    rewrite storm_switch_connectors_cons. cbn [fst snd].
    rewrite IH. apply storm_switch_connector_length. }
  assert (connectors_have_encoder (connectors d')) as Hcs'.
  { unfold connectors_have_encoder. clear - Hrel Hwf.
    induction Hrel as [| c c' cs cs' Hc _ IH]; [constructor |].
    apply Forall_cons in Hwf as [(_ & _ & enc & He & _) Hwf].
    constructor; [| now apply IH].
    intros _. destruct Hc as [-> | (_ & -> & _)]; cbn; congruence. }
  assert (Forall (fun i => valid_pin (hotplug d') i) for_each_hpd_pin) as Hv.
  { eapply Forall_impl; [apply for_each_hpd_pin_valid; now rewrite Hl |].
    intros k [_ Hk]. exact Hk. }
  destruct (reenable_pins_spec for_each_hpd_pin (hotplug d') (connectors d')
              for_each_hpd_pin_NoDup Hv Hcs')
    as (h2 & cs2 & Hrun & Hst & Hmap & _ & _ & _).
  destruct (reenable_work_eq d' h2 cs2 Hrun) as (d'' & Hd'' & Hh'' & Hc'' & _).
  exists d''. split; [exact Hd'' |].
  assert (forall i, 1 <= i < HPD_NUM_PINS ->
            pin_stats h2 i
            = if hpd_state_eqb (state (pin_stats (hotplug d') i)) HPD_DISABLED
              then set_state HPD_ENABLED (pin_stats (hotplug d') i)
              else pin_stats (hotplug d') i) as Hst'.
  { intros i Hi. rewrite (Hst i) by lia. rewrite for_each_hpd_pin_mem.
    now replace ((1 <=? i) && (i <? HPD_NUM_PINS)) with true by lia. }
  split; [| split].
  - (* the connectors *)
    rewrite Hc'', Hmap. clear - Hrel Hwf.
    induction Hrel as [| c c' cs cs' Hc _ IH]; [reflexivity |].
    apply Forall_cons in Hwf as [(Hmst & Hpol & enc & He & Hr) Hwf].
    cbn [map]. rewrite (IH Hwf). f_equal.
    destruct Hc as [-> | (Hs & -> & enc' & He' & Hd)].
    + assert (restore_connector c = c) as Er
        by (unfold restore_connector; rewrite <- Hpol; now destruct c).
      rewrite Er. now destruct (_ && _).
    + rewrite He in He'. injection He' as <-.
      unfold storm_switchable in Hs. rewrite He in Hs.
      apply andb_true_iff in Hs as [_ Hs]. apply andb_true_iff in Hs as [Hn _].
      apply negb_true_iff, Z.eqb_neq in Hn. unfold HPD_NONE in Hn.
      cbn [mst_port encoder set_polled]. rewrite Hmst, He, Hd. cbn [negb andb].
      rewrite for_each_hpd_pin_mem.
      replace ((1 <=? hpd_pin enc) && (hpd_pin enc <? HPD_NUM_PINS)) with true by lia.
      cbn [hpd_state_eqb andb].
      unfold restore_connector, restored_polled. cbn [intel_polled set_polled].
      fold (restored_polled c). rewrite <- Hpol. now destruct c.
  - intros i Hi. rewrite Hh'', (Hst' i Hi).
    destruct (state (pin_stats (hotplug d') i)) eqn:E; cbn; try rewrite E; discriminate.
  - intros i l1 c l2 Hi Hm Hsplit Hl1 Hc.
    assert (valid_pin (hotplug dev_priv) i) as Hvi
      by (unfold valid_pin, HPD_NUM_PINS in *; lia).
    pose proof (storm_switch_connectors_first l1 l2 c (hotplug dev_priv) false i
                  Hvi ltac:(lia) Hm Hl1 Hc) as (Hd & _ & _).
    rewrite <- Hsplit, <- Hh in Hd.
    rewrite Hh'', (Hst' i Hi), Hd. cbn [hpd_state_eqb].
    destruct (storm_switch_connectors_pin (connectors dev_priv) (hotplug dev_priv)
                false i) as [E | [_ E]]; rewrite <- Hh in E.
    + rewrite E in Hd. congruence.
    + rewrite E. reflexivity.
Qed.

End Recovery.

(** ** The digital-port work *)

Section DigportWork.

Variable port_hpd_pulse : Z -> option (bool -> irqreturn).

Local Abbreviation digport_work := (i915_digport_work_func port_hpd_pulse).
Local Abbreviation pulsed := (port_pulsed port_hpd_pulse).
Local Abbreviation not_handled := (port_not_handled port_hpd_pulse).

(** The loop over the ports [ports]: the calls it adds and the bits it
    collects. [h] is the state before the masks were drained, [h1] the state
    the loop reads the registered ports from. *)
Lemma digport_loop_spec (h h1 : i915_hotplug) (ports : list Z)
    (old_bits : Z) (log : list outside_call) :
  irq_port h1 = irq_port h ->
  let r := fold_left
             (digport_work_port port_hpd_pulse (long_port_mask h)
                (short_port_mask h) h1)
             ports (old_bits, log) in
  snd r = log ++ map (fun i => Out_hpd_pulse i (Z.testbit (long_port_mask h) i))
                   (List.filter (pulsed h) ports)
  /\ (existsb (not_handled h) ports = false -> fst r = old_bits)
  /\ (irq_ports_have_pins h ->
      forall p, 0 <= p < 32 ->
        Z.testbit (fst r) p
        = Z.testbit old_bits p
          || existsb (fun i => not_handled h i && (port_pin h i =? p)) ports).
Proof.
  intros Hport. cbv zeta. revert old_bits log.
  induction ports as [| i ports IH]; intros old_bits log.
  - cbn. rewrite app_nil_r. repeat split. intros _ p Hp. now rewrite orb_false_r.
  - cbn [fold_left List.filter existsb].
    unfold digport_work_port at 2 4 6.
    unfold port_not_handled, port_pulsed, irq_port_set, port_pin.
    rewrite Hport.
    destruct (irq_port h !! Z.to_nat i) as [[dig |] |] eqn:Ei; cbn [andb orb].
    2, 3: specialize (IH old_bits log); exact IH.
    destruct (port_hpd_pulse i) as [hpd_pulse |]; cbn [andb orb];
      [| specialize (IH old_bits log); exact IH].
    destruct (Z.testbit (long_port_mask h) i || Z.testbit (short_port_mask h) i);
      cbn [andb orb]; [| specialize (IH old_bits log); exact IH].
    destruct (hpd_pulse (Z.testbit (long_port_mask h) i)) eqn:Er; cbn [map].
    + (* not handled: the pin is remembered *)
      destruct (IH (to_u32 (Z.lor old_bits (Z.shiftl 1 (dig_port_hpd_pin dig))))
                  (log ++ [Out_hpd_pulse i (Z.testbit (long_port_mask h) i)]))
        as (I1 & _ & I3).
      split; [| split].
      * rewrite I1, <- app_assoc. reflexivity.
      * discriminate.
      * intros Hpins p Hp. rewrite (I3 Hpins p Hp).
        pose proof (Hpins i dig Ei) as Hpin.
        pose proof (testbit_set_bit old_bits p (dig_port_hpd_pin dig)
                      ltac:(lia) ltac:(lia)) as T.
        unfold BIT in T. rewrite T. now rewrite orb_assoc.
    + destruct (IH old_bits
                  (log ++ [Out_hpd_pulse i (Z.testbit (long_port_mask h) i)]))
        as (I1 & I2 & I3).
      split; [| split]; auto. rewrite I1, <- app_assoc. reflexivity.
    + destruct (IH old_bits
                  (log ++ [Out_hpd_pulse i (Z.testbit (long_port_mask h) i)]))
        as (I1 & I2 & I3).
      split; [| split]; auto. rewrite I1, <- app_assoc. reflexivity.
Qed.

(** The digital-port work, from its loop. *)
Lemma digport_work_eq (dev_priv : drm_i915_private) :
  let h := hotplug dev_priv in
  let h1 := with_short_port_mask 0 (with_long_port_mask 0 h) in
  let r := fold_left
             (digport_work_port port_hpd_pulse (long_port_mask h)
                (short_port_mask h) h1)
             for_each_port (0, []) in
  let d' := fst (digport_work dev_priv) in
  snd (digport_work dev_priv) = snd r
  /\ hotplug d'
     = (if fst r =? 0 then h1
        else with_event_bits (to_u32 (Z.lor (event_bits h) (fst r))) h1)
  /\ calls d'
     = calls dev_priv ++ (if fst r =? 0 then [] else [Call_schedule_hotplug_work])
  /\ connectors d' = connectors dev_priv
  /\ reenable_work d' = reenable_work dev_priv.
Proof.
  cbv zeta. unfold i915_digport_work_func.
  destruct (fst (fold_left _ for_each_port (0, [])) =? 0); cbn;
    rewrite ?app_nil_r; auto.
Qed.

(** X15: the digital-port work drains both port masks and calls the
    [hpd_pulse] hook of exactly the ports that have a registered digital port
    with a hook and a bit in one of the masks, each once, in the order of the
    ports, as a long pulse when the bit is in the long mask (also when it is
    in both). It leaves [stats[]], the registered ports, the tunables, the
    connectors and the re-enable timer as they were. *)
Theorem digport_work_pulses (dev_priv : drm_i915_private) :
  let h := hotplug dev_priv in
  let r := digport_work dev_priv in
  snd r = map (fun i => Out_hpd_pulse i (Z.testbit (long_port_mask h) i))
            (List.filter (pulsed h) for_each_port)
  /\ long_port_mask (hotplug (fst r)) = 0
  /\ short_port_mask (hotplug (fst r)) = 0
  /\ with_event_bits (event_bits h)
       (with_long_port_mask (long_port_mask h)
          (with_short_port_mask (short_port_mask h) (hotplug (fst r)))) = h
  /\ connectors (fst r) = connectors dev_priv
  /\ reenable_work (fst r) = reenable_work dev_priv.
Proof.
  cbv zeta.
  destruct (digport_work_eq dev_priv) as (Hlog & Hh & _ & Hcs & Hre).
  cbv zeta in Hlog, Hh.
  destruct (digport_loop_spec (hotplug dev_priv)
              (with_short_port_mask 0 (with_long_port_mask 0 (hotplug dev_priv)))
              for_each_port 0 [] eq_refl) as (L1 & _).
  rewrite Hlog, L1, Hh, Hcs, Hre. cbn [app].
  destruct (_ =? 0); cbn; repeat split; now destruct (hotplug dev_priv).
Qed.

(** The pending event bits and the calls after the digital-port work. *)
Lemma digport_work_core (dev_priv : drm_i915_private) :
  irq_ports_have_pins (hotplug dev_priv) ->
  let h := hotplug dev_priv in
  let d' := fst (digport_work dev_priv) in
  (forall p, 0 <= p < 32 ->
     Z.testbit (event_bits (hotplug d')) p
     = Z.testbit (event_bits h) p
       || existsb (fun i => not_handled h i && (port_pin h i =? p)) for_each_port)
  /\ calls d'
     = calls dev_priv
       ++ (if existsb (not_handled h) for_each_port
           then [Call_schedule_hotplug_work] else [])
  /\ (existsb (not_handled h) for_each_port = false ->
      event_bits (hotplug d') = event_bits h).
Proof.
  intros Hpins. cbv zeta.
  destruct (digport_work_eq dev_priv) as (_ & Hh & Hcalls & _).
  cbv zeta in Hh, Hcalls.
  destruct (digport_loop_spec (hotplug dev_priv)
              (with_short_port_mask 0 (with_long_port_mask 0 (hotplug dev_priv)))
              for_each_port 0 [] eq_refl) as (_ & L2 & L3).
  specialize (L3 Hpins).
  set (r := fold_left _ for_each_port (0, [])) in *.
  assert ((fst r =? 0) = negb (existsb (port_not_handled port_hpd_pulse
                                           (hotplug dev_priv)) for_each_port))
    as Hzero.
  { destruct (existsb _ for_each_port) eqn:Ex; cbn [negb].
    - apply Z.eqb_neq. intros E0.
      apply existsb_exists in Ex as (i & Hi & Hn).
      assert (0 <= port_pin (hotplug dev_priv) i < 32) as Hp.
      { unfold port_not_handled, port_pulsed, irq_port_set in Hn.
        unfold port_pin.
        destruct (irq_port (hotplug dev_priv) !! Z.to_nat i) as [[dig |] |] eqn:Ei;
          try discriminate Hn.
        now apply (Hpins i dig). }
      specialize (L3 _ Hp). rewrite E0, Z.bits_0 in L3. cbn [orb] in L3.
      symmetry in L3. apply not_true_iff_false in L3. apply L3.
      apply existsb_exists. exists i. split; [assumption |].
      rewrite Hn. cbn [andb]. apply Z.eqb_refl.
    - apply Z.eqb_eq. now apply L2. }
  rewrite Hh, Hcalls, Hzero.
  destruct (existsb _ for_each_port) eqn:Ex; cbn [negb].
  - split; [| split; [reflexivity | discriminate]].
    intros p Hp. cbn [event_bits with_event_bits].
    rewrite testbit_to_u32 by lia. rewrite Z.lor_spec, (L3 p Hp).
    now rewrite Z.bits_0.
  - split; [| split; [reflexivity | reflexivity]].
    intros p Hp. cbn [event_bits with_short_port_mask with_long_port_mask].
    destruct (existsb (fun i => _ && _) for_each_port) eqn:Ex2;
      [| now rewrite orb_false_r].
    exfalso. apply existsb_exists in Ex2 as (i & Hi & Hn).
    apply andb_true_iff in Hn as [Hn _].
    apply not_true_iff_false in Ex. apply Ex.
    apply existsb_exists. now exists i.
Qed.

(** X16: the fallback of the digital-port work to plain hot-plug handling.
    With the pins of the registered ports in the enumeration, after the work
    a bit of the pending event bits is set exactly if it was set before or is
    the pin of a port whose hook returned [IRQ_NONE]; the hot-plug work is
    scheduled, once, exactly if some hook returned [IRQ_NONE]; and when every
    hook handled its pulse the pending event bits are not written. *)
Theorem digport_work_fallback (dev_priv : drm_i915_private) :
  irq_ports_have_pins (hotplug dev_priv) ->
  let h := hotplug dev_priv in
  let d' := fst (digport_work dev_priv) in
  (forall p, 0 <= p < 32 ->
     Z.testbit (event_bits (hotplug d')) p
     = Z.testbit (event_bits h) p
       || existsb (fun i => not_handled h i && (port_pin h i =? p)) for_each_port)
  /\ calls d'
     = calls dev_priv
       ++ (if existsb (not_handled h) for_each_port
           then [Call_schedule_hotplug_work] else [])
  /\ (existsb (not_handled h) for_each_port = false ->
      event_bits (hotplug d') = event_bits h).
Proof. apply digport_work_core. Qed.

End DigportWork.

(** ** The hot-plug work *)

(** Counting the probes of one connector in a list of probes. *)
Lemma count_probes_filter_seq (P : nat -> bool) (k n start : nat) :
  count_probes k (map Out_encoder_hotplug (List.filter P (seq start n)))
  = if (start <=? k)%nat && (k <? start + n)%nat && P k then 1%nat else 0%nat.
Proof.
  revert start. induction n as [| n IH]; intros start.
  - cbn [seq List.filter map]. unfold count_probes. cbn [List.filter length].
    rewrite Nat.add_0_r.
    destruct (Nat.leb_spec start k), (Nat.ltb_spec k start); cbn [andb];
      try reflexivity; lia.
  - cbn [seq List.filter].
    assert (count_probes k (map Out_encoder_hotplug (List.filter P (seq (S start) n)))
            = if (S start <=? k)%nat && (k <? start + S n)%nat && P k
              then 1%nat else 0%nat) as IH'.
    { rewrite IH. now replace (S start + n)%nat with (start + S n)%nat by lia. }
    destruct (Nat.eq_dec start k) as [-> | Hne].
    + replace (k <=? k)%nat with true by (symmetry; apply Nat.leb_refl).
      replace (k <? k + S n)%nat with true by (symmetry; apply Nat.ltb_lt; lia).
      replace (S k <=? k)%nat with false in IH'
        by (symmetry; apply Nat.leb_gt; lia).
      cbn [andb] in *.
      destruct (P k); [| exact IH'].
      cbn [map]. unfold count_probes in *. cbn [List.filter].
      rewrite Nat.eqb_refl. cbn [length]. now rewrite IH'.
    + replace ((start <=? k)%nat && (k <? start + S n)%nat)
        with ((S start <=? k)%nat && (k <? start + S n)%nat).
      2: { destruct (Nat.leb_spec (S start) k), (Nat.leb_spec start k);
           try reflexivity; lia. }
      destruct (P start); [| exact IH'].
      cbn [map]. unfold count_probes in *. cbn [List.filter].
      replace (start =? k)%nat with false by (symmetry; apply Nat.eqb_neq; lia).
      exact IH'.
Qed.

Lemma count_probes_app (k : nat) (l1 l2 : list outside_call) :
  count_probes k (l1 ++ l2) = (count_probes k l1 + count_probes k l2)%nat.
Proof. unfold count_probes. now rewrite List.filter_app, length_app. Qed.

(** The places of the probed pairs are the probed places. *)
Lemma probed_pairs_places (bits : Z) (pre l : list intel_connector) :
  map fst (List.filter (pair_probed bits) (combine (seq (length pre) (length l)) l))
  = List.filter (connector_probed bits (pre ++ l)) (seq (length pre) (length l)).
Proof.
  revert pre. induction l as [| c l IH]; intros pre; [reflexivity |].
  cbn [length seq combine List.filter].
  specialize (IH (pre ++ [c])).
  rewrite length_app in IH. cbn [length] in IH.
  replace (length pre + 1)%nat with (S (length pre)) in IH by lia.
  rewrite <- app_assoc in IH. cbn [app] in IH.
  assert (connector_probed bits (pre ++ c :: l) (length pre)
          = pair_probed bits (length pre, c)) as E.
  { unfold connector_probed, pair_probed. cbn [snd].
    now rewrite list_lookup_middle. }
  rewrite E.
  destruct (pair_probed bits (length pre, c)); cbn [map fst]; now rewrite IH.
Qed.

(** What is probed depends on the encoders only. *)
Lemma probed_connectors_encoders (bits : Z) (cs cs' : list intel_connector) :
  Forall2 (fun c c' => encoder c' = encoder c) cs cs' ->
  probed_connectors bits cs' = probed_connectors bits cs
  /\ forall k, connector_probed bits cs' k = connector_probed bits cs k.
Proof.
  intros H.
  assert (forall k, connector_probed bits cs' k = connector_probed bits cs k) as Hk.
  { intros k. unfold connector_probed.
    destruct (cs !! k) as [c |] eqn:E.
    - destruct (Forall2_lookup_l _ _ _ _ _ H E) as (c' & -> & ->). reflexivity.
    - destruct (cs' !! k) as [c' |] eqn:E'; [| reflexivity].
      destruct (Forall2_lookup_r _ _ _ _ _ H E') as (c & Ec & _). congruence. }
  split; [| exact Hk].
  unfold probed_connectors. rewrite <- (Forall2_length _ _ _ H).
  now apply List.filter_ext.
Qed.

Section HotplugWork.

Variable to_jiffies : Z -> Z.
Variable encoder_hotplug : nat -> bool.

Local Abbreviation hotplug_work :=
  (i915_hotplug_work_func to_jiffies encoder_hotplug).
Local Abbreviation switch_to_polling :=
  (intel_hpd_irq_storm_switch_to_polling to_jiffies).

(** The loop over the connectors, given with their places. *)
Lemma hotplug_loop_spec (bits : Z) (l : list (nat * intel_connector))
    (changed : bool) (log : list outside_call) :
  fold_left (hotplug_work_connector encoder_hotplug bits) l (changed, log)
  = (changed
     || existsb encoder_hotplug (map fst (List.filter (pair_probed bits) l)),
     log ++ map Out_encoder_hotplug (map fst (List.filter (pair_probed bits) l))).
Proof.
  revert changed log. induction l as [| [k c] l IH]; intros changed log.
  - cbn. now rewrite orb_false_r, app_nil_r.
  - cbn [fold_left List.filter]. unfold hotplug_work_connector at 2.
    change (pair_probed bits (k, c))
      with (match encoder c with
            | Some enc => Z.testbit bits (hpd_pin enc)
            | None => false
            end).
    cbn [fst snd].
    destruct (encoder c) as [enc |]; [| apply IH].
    destruct (Z.testbit bits (hpd_pin enc)); [| apply IH].
    rewrite IH. cbn [map fst existsb]. now rewrite orb_assoc, <- app_assoc.
Qed.

(** The hot-plug work, from the fallback and its loop. *)
Lemma hotplug_work_eq (dev_priv : drm_i915_private) :
  let bits := event_bits (hotplug dev_priv) in
  let d1 := with_hotplug (with_event_bits 0 (hotplug dev_priv)) dev_priv in
  let probed := probed_connectors bits (connectors dev_priv) in
  fst (hotplug_work dev_priv) = switch_to_polling d1
  /\ snd (hotplug_work dev_priv)
     = map Out_encoder_hotplug probed
       ++ (if existsb encoder_hotplug probed then [Out_hotplug_event] else []).
Proof.
  cbv zeta. unfold i915_hotplug_work_func. cbn [fst snd].
  split; [reflexivity |].
  set (d1 := with_hotplug (with_event_bits 0 (hotplug dev_priv)) dev_priv).
  rewrite hotplug_loop_spec. cbn [fst snd orb app].
  pose proof (probed_pairs_places (event_bits (hotplug dev_priv)) []
                (connectors (switch_to_polling d1))) as Hp.
  cbn [length app] in Hp. rewrite Hp.
  fold (probed_connectors (event_bits (hotplug dev_priv))
          (connectors (switch_to_polling d1))).
  assert (probed_connectors (event_bits (hotplug dev_priv))
            (connectors (switch_to_polling d1))
          = probed_connectors (event_bits (hotplug dev_priv)) (connectors dev_priv))
    as ->.
  { apply probed_connectors_encoders.
    destruct (switch_to_polling_eq to_jiffies d1) as (_ & Hcs & _).
    cbv zeta in Hcs. rewrite Hcs.
    eapply Forall2_impl; [apply storm_switch_connectors_rel |].
    intros c c' [-> | (_ & -> & _)]; reflexivity. }
  destruct (existsb _ _); [reflexivity | now rewrite app_nil_r].
Qed.

(** The drained bits, the probes and their number, for one run. *)
Lemma hotplug_work_core (dev_priv : drm_i915_private) :
  let bits := event_bits (hotplug dev_priv) in
  let probed := probed_connectors bits (connectors dev_priv) in
  let r := hotplug_work dev_priv in
  event_bits (hotplug (fst r)) = 0
  /\ snd r
     = map Out_encoder_hotplug probed
       ++ (if existsb encoder_hotplug probed then [Out_hotplug_event] else [])
  /\ (forall k,
        count_probes k (snd r)
        = if connector_probed bits (connectors dev_priv) k then 1%nat else 0%nat).
Proof.
  cbv zeta. destruct (hotplug_work_eq dev_priv) as (Hd & Hlog).
  cbv zeta in Hd, Hlog. rewrite Hd, Hlog. split; [| split; [reflexivity |]].
  - destruct (switch_to_polling_eq to_jiffies
                (with_hotplug (with_event_bits 0 (hotplug dev_priv)) dev_priv))
      as (Hh & _).
    cbv zeta in Hh. rewrite Hh.
    pose proof (storm_switch_connectors_rest
                  (connectors (with_hotplug (with_event_bits 0 (hotplug dev_priv))
                                 dev_priv))
                  (hotplug (with_hotplug (with_event_bits 0 (hotplug dev_priv))
                              dev_priv)) false) as Hr.
    apply (f_equal event_bits) in Hr. exact Hr.
  - intros k. rewrite count_probes_app. unfold probed_connectors.
    rewrite count_probes_filter_seq.
    assert (count_probes k
              (if existsb encoder_hotplug
                    (List.filter (connector_probed (event_bits (hotplug dev_priv))
                                    (connectors dev_priv))
                       (seq 0 (length (connectors dev_priv))))
               then [Out_hotplug_event] else []) = 0%nat) as ->
      by (destruct (existsb _ _); reflexivity).
    rewrite Nat.add_0_r. cbn [Nat.leb andb Nat.add].
    destruct (Nat.ltb_spec k (length (connectors dev_priv))); cbn [andb];
      [reflexivity |].
    unfold connector_probed. now rewrite lookup_ge_None_2 by lia.
Qed.

(** X17: the hot-plug work drains the pending event bits and probes, with
    [intel_encoder->hotplug], exactly the connectors that have an encoder
    whose pin had its bit set, each once, in the order of the list; a
    connector on a pin whose bit was clear is never probed. It sends the
    hot-plug event, once and last, exactly when some probe reported a
    change. *)
Theorem hotplug_work_probes (dev_priv : drm_i915_private) :
  let bits := event_bits (hotplug dev_priv) in
  let probed := probed_connectors bits (connectors dev_priv) in
  let r := hotplug_work dev_priv in
  event_bits (hotplug (fst r)) = 0
  /\ snd r
     = map Out_encoder_hotplug probed
       ++ (if existsb encoder_hotplug probed then [Out_hotplug_event] else [])
  /\ (forall k,
        count_probes k (snd r)
        = if connector_probed bits (connectors dev_priv) k then 1%nat else 0%nat).
Proof. apply hotplug_work_core. Qed.

End HotplugWork.

(** ** From the interrupt to the hot-plug work *)

Section DispatchThenWork.

Variable in_range : Z -> Z -> Z -> bool.
Variable to_jiffies : Z -> Z.
Variable encoder_hotplug : nat -> bool.

Local Abbreviation detect := (intel_hpd_irq_storm_detect in_range to_jiffies).
Local Abbreviation handler := (intel_hpd_irq_handler in_range to_jiffies).
Local Abbreviation handler_pin := (irq_handler_pin in_range to_jiffies).
Local Abbreviation handler_loop := (irq_handler_loop in_range to_jiffies).
Local Abbreviation hotplug_work :=
  (i915_hotplug_work_func to_jiffies encoder_hotplug).
Local Abbreviation switch_to_polling :=
  (intel_hpd_irq_storm_switch_to_polling to_jiffies).

(** A run of the dispatcher keeps the connectors, the platform flag, the
    registered ports, the tunables and the length of [stats[]]. *)
Lemma handler_keeps_config (dev_priv : drm_i915_private)
    (jiffies pin_mask long_mask : Z) :
  let d' := handler dev_priv jiffies pin_mask long_mask in
  connectors d' = connectors dev_priv
  /\ cnl_with_port_f d' = cnl_with_port_f dev_priv
  /\ irq_port (hotplug d') = irq_port (hotplug dev_priv)
  /\ hpd_storm_threshold (hotplug d') = hpd_storm_threshold (hotplug dev_priv)
  /\ hpd_short_storm_enabled (hotplug d')
     = hpd_short_storm_enabled (hotplug dev_priv)
  /\ length (stats (hotplug d')) = length (stats (hotplug dev_priv)).
Proof.
  cbv zeta.
  assert (cnl_with_port_f (handler dev_priv jiffies pin_mask long_mask)
          = cnl_with_port_f dev_priv) as Hcnl.
  { unfold intel_hpd_irq_handler. destruct (pin_mask =? 0); [reflexivity |].
    destruct (_ && _), (queue_dig _), (queue_hp _); reflexivity. }
  destruct (Z.eq_dec pin_mask 0) as [-> | Hm].
  { unfold intel_hpd_irq_handler. cbn. repeat split. }
  destruct (handler_fired in_range to_jiffies dev_priv jiffies pin_mask long_mask Hm)
    as (Hh & Hcs & _).
  rewrite Hh, Hcs.
  pose proof (handler_loop_frame in_range to_jiffies (cnl_with_port_f dev_priv)
                jiffies pin_mask long_mask 0 for_each_hpd_pin
                (mk_pass (hotplug dev_priv) false false false)) as F0.
  unfold pass_frame in F0. cbv zeta in F0. cbn [pass_hotplug] in F0.
  destruct F0 as (_ & _ & F3 & F4 & F5 & F6 & _); [lia | | auto 10].
  apply Forall_forall. intros j Hj. apply list_elem_of_In in Hj.
  assert (existsb (Z.eqb j) for_each_hpd_pin = true) as Hex
    by (apply existsb_exists; exists j; split; [assumption | apply Z.eqb_refl]).
  rewrite for_each_hpd_pin_mem in Hex. lia.
Qed.

(** A storm on an enabled pin that fired, over the whole run: the pin's
    event bit is clear and the pin is marked. *)
Lemma handler_storm_core (dev_priv : drm_i915_private)
    (jiffies pin_mask long_mask i : Z) :
  1 <= i < HPD_NUM_PINS ->
  valid_pin (hotplug dev_priv) i ->
  Z.testbit pin_mask i = true ->
  state (pin_stats (hotplug dev_priv) i) = HPD_ENABLED ->
  fst (detect (hotplug dev_priv) jiffies i
         (pulse_is_long (cnl_with_port_f dev_priv) (hotplug dev_priv) long_mask i))
  = true ->
  let d' := handler dev_priv jiffies pin_mask long_mask in
  Z.testbit (event_bits (hotplug d')) i = false
  /\ state (pin_stats (hotplug d') i) = HPD_MARK_DISABLED.
Proof.
  intros Hi Hpin Hfired Hstate Hstorm. cbv zeta.
  destruct (handler_fired in_range to_jiffies dev_priv jiffies pin_mask long_mask
              (testbit_nonzero _ _ Hfired)) as (Hh & _).
  rewrite Hh. clear Hh.
  destruct (for_each_hpd_pin_split i Hi) as (l1 & l2 & -> & Hl1 & Hl2).
  unfold irq_handler_loop. rewrite fold_left_app. cbn [fold_left].
  set (cnl := cnl_with_port_f dev_priv) in *.
  set (a1 := fold_left _ l1 _).
  set (a2 := handler_pin cnl jiffies pin_mask long_mask a1 i).
  assert (0 <= i < 32) as Hi32 by (unfold HPD_NUM_PINS in Hi; lia).
  pose proof (handler_loop_frame in_range to_jiffies cnl jiffies pin_mask long_mask
                i l1 (mk_pass (hotplug dev_priv) false false false) Hi32 Hl1) as F1.
  unfold irq_handler_loop in F1. fold a1 in F1.
  unfold pass_frame in F1. cbv zeta in F1. cbn [pass_hotplug] in F1.
  destruct F1 as (P1 & _ & I1 & T1 & G1 & L1 & _).
  assert (valid_pin (pass_hotplug a1) i) as Hv1
    by (unfold valid_pin in *; now rewrite L1).
  destruct (handler_pin_storm in_range to_jiffies cnl jiffies pin_mask long_mask a1 i)
    as (B2 & M2 & _); try assumption.
  { now rewrite P1. }
  { rewrite <- Hstorm.
    replace (pulse_is_long cnl (pass_hotplug a1) long_mask i)
      with (pulse_is_long cnl (hotplug dev_priv) long_mask i)
      by (unfold pulse_is_long, is_dig_port, irq_port_set; now rewrite I1).
    now apply detect_storm_local. }
  fold a2 in B2, M2.
  pose proof (handler_loop_frame in_range to_jiffies cnl jiffies pin_mask long_mask
                i l2 a2 Hi32 Hl2) as F2.
  unfold irq_handler_loop in F2. unfold pass_frame in F2. cbv zeta in F2.
  destruct F2 as (P3 & B3 & _).
  now rewrite B3, P3.
Qed.

(** X18: from the storm to the fallback. When the dispatcher detects a
    storm on a pin, the hot-plug work it queues probes no connector of that
    pin (the storm clears the pending event bit of the pin, also one left by
    an earlier run); and if the pin has a connector polled by hot-plug interrupt, the
    work leaves the pin disabled, the first such connector polling for
    connect and disconnect, and the re-enable work scheduled with the fixed
    delay. *)
Theorem storm_then_hotplug_work (dev_priv : drm_i915_private)
    (jiffies pin_mask long_mask i : Z) :
  1 <= i < HPD_NUM_PINS ->
  valid_pin (hotplug dev_priv) i ->
  Z.testbit pin_mask i = true ->
  state (pin_stats (hotplug dev_priv) i) = HPD_ENABLED ->
  fst (detect (hotplug dev_priv) jiffies i
         (pulse_is_long (cnl_with_port_f dev_priv) (hotplug dev_priv) long_mask i))
  = true ->
  let r := hotplug_work (handler dev_priv jiffies pin_mask long_mask) in
  (forall k c enc,
     connectors dev_priv !! k = Some c -> encoder c = Some enc ->
     hpd_pin enc = i ->
     count_probes k (snd r) = 0%nat)
  /\ (forall l1 c l2,
        connectors dev_priv = l1 ++ c :: l2 ->
        Forall (fun c' => storm_candidate i c' = false) l1 ->
        storm_candidate i c = true ->
        state (pin_stats (hotplug (fst r)) i) = HPD_DISABLED
        /\ connectors (fst r) !! length l1
           = Some (set_polled POLL_CONNECT_DISCONNECT c)
        /\ reenable_work (fst r) = Some (to_jiffies HPD_STORM_REENABLE_DELAY)).
Proof.
  intros Hi Hpin Hfired Hstate Hstorm. cbv zeta.
  destruct (handler_storm_core dev_priv jiffies pin_mask long_mask i
              Hi Hpin Hfired Hstate Hstorm) as (Hbit & Hmark).
  destruct (handler_keeps_config dev_priv jiffies pin_mask long_mask)
    as (Hcs & _ & _ & _ & _ & Hlen).
  set (d1 := handler dev_priv jiffies pin_mask long_mask) in *.
  destruct (hotplug_work_core to_jiffies encoder_hotplug d1) as (_ & _ & Hcount).
  destruct (hotplug_work_eq to_jiffies encoder_hotplug d1) as (Hd & _).
  cbv zeta in Hd.
  split.
  - intros k c enc Hk He Hp. rewrite Hcount. unfold connector_probed.
    rewrite Hcs, Hk, He, Hp, Hbit. reflexivity.
  - intros l1 c l2 Hsplit Hl1 Hc. rewrite Hd.
    set (d2 := with_hotplug (with_event_bits 0 (hotplug d1)) d1).
    destruct (switch_to_polling_eq to_jiffies d2) as (Hh & Hcs2 & _ & Hre).
    cbv zeta in Hh, Hcs2, Hre. rewrite Hh, Hcs2, Hre.
    assert (valid_pin (hotplug d2) i) as Hv2
      by (unfold valid_pin in *; cbn; now rewrite Hlen).
    pose proof (storm_switch_connectors_first l1 l2 c (hotplug d2) false i
                  Hv2 ltac:(lia) Hmark Hl1 Hc) as (R1 & R2 & R3).
    change (connectors d2) with (connectors d1). rewrite Hcs, Hsplit.
    rewrite R2. auto.
Qed.

(** A call of the detector that reports no storm leaves the state of the
    pin as it was. *)
Lemma detect_calm_state (hpd : i915_hotplug) (jiffies pin : Z) (long_hpd : bool) :
  valid_pin hpd pin ->
  fst (detect hpd jiffies pin long_hpd) = false ->
  state (pin_stats (snd (detect hpd jiffies pin long_hpd)) pin)
  = state (pin_stats hpd pin).
Proof.
  intros Hpin.
  destruct (Z.eq_dec (to_int (hpd_storm_threshold hpd)) 0) as [H0 | H0].
  { now rewrite detect_off by now left. }
  destruct long_hpd, (hpd_short_storm_enabled hpd) eqn:Es;
    try (now rewrite detect_off by (right; now split)).
  all: rewrite detect_on by (try assumption; intros; congruence).
  all: cbn [fst snd]; intros ->; now rewrite pin_stats_set_eq.
Qed.

(** X19: interrupts coalesce. When a pin without a digital port fires in
    two runs of the dispatcher, both times enabled and without a storm, the
    hot-plug work that runs afterwards probes each connector of that pin
    exactly once. *)
Theorem two_dispatches_one_probe (dev_priv : drm_i915_private)
    (jiffies1 pin_mask1 long_mask1 jiffies2 pin_mask2 long_mask2 i : Z)
    (k : nat) (c : intel_connector) (enc : intel_encoder) :
  HPD_NUM_PINS <= Z.of_nat (length (stats (hotplug dev_priv))) ->
  1 <= i < HPD_NUM_PINS ->
  state (pin_stats (hotplug dev_priv) i) = HPD_ENABLED ->
  is_dig_port (cnl_with_port_f dev_priv) (hotplug dev_priv) i = false ->
  Z.testbit pin_mask1 i = true ->
  fst (detect (hotplug dev_priv) jiffies1 i true) = false ->
  let d1 := handler dev_priv jiffies1 pin_mask1 long_mask1 in
  Z.testbit pin_mask2 i = true ->
  fst (detect (hotplug d1) jiffies2 i true) = false ->
  let d2 := handler d1 jiffies2 pin_mask2 long_mask2 in
  connectors dev_priv !! k = Some c ->
  encoder c = Some enc ->
  hpd_pin enc = i ->
  count_probes k (snd (hotplug_work d2)) = 1%nat.
Proof.
  intros Hlen Hi Hstate Hnd Hf1 Hcalm1. cbv zeta. intros Hf2 Hcalm2 Hk He Hp.
  assert (valid_pin (hotplug dev_priv) i) as Hv
    by (unfold valid_pin, HPD_NUM_PINS in *; lia).
  assert (pulse_is_long (cnl_with_port_f dev_priv) (hotplug dev_priv) long_mask1 i
          = true) as Hl1 by (unfold pulse_is_long; now rewrite Hnd).
  destruct (handler_delivers_core in_range to_jiffies dev_priv jiffies1 pin_mask1
              long_mask1 i Hi Hlen Hf1 Hstate) as (S1 & _).
  { now rewrite Hl1. }
  rewrite Hl1 in S1.
  destruct (handler_keeps_config dev_priv jiffies1 pin_mask1 long_mask1)
    as (Hcs1 & Hcnl1 & Hport1 & _ & _ & Hlen1).
  set (d1 := handler dev_priv jiffies1 pin_mask1 long_mask1) in *.
  assert (state (pin_stats (hotplug d1) i) = HPD_ENABLED) as Hstate1.
  { rewrite S1, detect_calm_state; assumption. }
  assert (is_dig_port (cnl_with_port_f d1) (hotplug d1) i = false) as Hnd1.
  { unfold is_dig_port, irq_port_set in *. now rewrite Hcnl1, Hport1. }
  assert (pulse_is_long (cnl_with_port_f d1) (hotplug d1) long_mask2 i = true)
    as Hl2 by (unfold pulse_is_long; now rewrite Hnd1).
  destruct (handler_delivers_core in_range to_jiffies d1 jiffies2 pin_mask2
              long_mask2 i Hi ltac:(now rewrite Hlen1) Hf2 Hstate1)
    as (_ & E2 & _).
  { now rewrite Hl2. }
  rewrite Hnd1, orb_true_r in E2.
  destruct (handler_keeps_config d1 jiffies2 pin_mask2 long_mask2) as (Hcs2 & _).
  set (d2 := handler d1 jiffies2 pin_mask2 long_mask2) in *.
  destruct (hotplug_work_core to_jiffies encoder_hotplug d2) as (_ & _ & Hcount).
  rewrite Hcount. unfold connector_probed.
  now rewrite Hcs2, Hcs1, Hk, He, Hp, E2.
Qed.

End DispatchThenWork.

(** ** From the digital-port work to the hot-plug work *)

Section DigportThenWork.

Variable to_jiffies : Z -> Z.
Variable port_hpd_pulse : Z -> option (bool -> irqreturn).
Variable encoder_hotplug : nat -> bool.

Local Abbreviation digport_work := (i915_digport_work_func port_hpd_pulse).
Local Abbreviation hotplug_work :=
  (i915_hotplug_work_func to_jiffies encoder_hotplug).

(** X20: a pulse that the digital port does not handle becomes a plain
    hot-plug event. When the hook of a port returns [IRQ_NONE], the
    digital-port work schedules the hot-plug work, and that work probes each
    connector on the pin of the port exactly once. *)
Theorem digport_fallback_probe (dev_priv : drm_i915_private) (i : Z)
    (k : nat) (c : intel_connector) (enc : intel_encoder) :
  irq_ports_have_pins (hotplug dev_priv) ->
  In i for_each_port ->
  port_not_handled port_hpd_pulse (hotplug dev_priv) i = true ->
  connectors dev_priv !! k = Some c ->
  encoder c = Some enc ->
  hpd_pin enc = port_pin (hotplug dev_priv) i ->
  let d' := fst (digport_work dev_priv) in
  calls d' = calls dev_priv ++ [Call_schedule_hotplug_work]
  /\ count_probes k (snd (hotplug_work d')) = 1%nat.
Proof.
  intros Hpins Hi Hn Hk He Hp. cbv zeta.
  destruct (digport_work_core port_hpd_pulse dev_priv Hpins) as (Hbits & Hcalls & _).
  cbv zeta in Hbits, Hcalls.
  destruct (digport_work_eq port_hpd_pulse dev_priv) as (_ & _ & _ & Hcs & _).
  cbv zeta in Hcs.
  assert (existsb (port_not_handled port_hpd_pulse (hotplug dev_priv)) for_each_port
          = true) as Hex by (apply existsb_exists; now exists i).
  rewrite Hex in Hcalls. split; [exact Hcalls |].
  destruct (hotplug_work_core to_jiffies encoder_hotplug (fst (digport_work dev_priv)))
    as (_ & _ & Hcount).
  rewrite Hcount. unfold connector_probed. rewrite Hcs, Hk, He, Hp.
  assert (0 <= port_pin (hotplug dev_priv) i < 32) as Hrange.
  { unfold port_not_handled, port_pulsed, irq_port_set in Hn. unfold port_pin.
    destruct (irq_port (hotplug dev_priv) !! Z.to_nat i) as [[dig |] |] eqn:Ei;
      try discriminate Hn.
    now apply (Hpins i dig). }
  rewrite (Hbits _ Hrange).
  replace (existsb _ for_each_port) with true; [now rewrite orb_true_r |].
  symmetry. apply existsb_exists. exists i. split; [assumption |].
  rewrite Hn. cbn [andb]. apply Z.eqb_refl.
Qed.

End DigportThenWork.

(** ** Polling set up by request *)

(** The loop of the poll-init work gives every connector the mode
    [poll_init_polled], and does not fault when every connector without an
    MST port has an encoder. *)
Lemma poll_init_connectors_map (has_hotplug enabled : bool)
    (cs : list intel_connector) :
  connectors_have_encoder cs ->
  poll_init_connectors has_hotplug enabled cs
  = Some (map (fun c => set_polled (poll_init_polled has_hotplug enabled c) c) cs).
Proof.
  unfold connectors_have_encoder. intros Hcs.
  induction Hcs as [| c cs Hc _ IH]; [reflexivity |].
  cbn [poll_init_connectors map]. rewrite IH.
  unfold poll_init_connector, poll_init_polled. cbn [polled set_polled].
  destruct (mst_port c) eqn:Em.
  - destruct (Z.eqb_spec (intel_polled c) 0) as [-> | _]; reflexivity.
  - destruct (Z.eqb_spec (intel_polled c) 0) as [E0 | _]; cbn [negb]; [| reflexivity].
    destruct (encoder c) as [enc |]; [| now elim Hc].
    destruct has_hotplug; cbn [negb andb]; [| now rewrite E0].
    destruct (hpd_pin enc >? HPD_NONE); [| now rewrite E0].
    destruct enabled; reflexivity.
Qed.

(** The poll-init work, from its loop. *)
Lemma poll_init_work_eq (has_hotplug : bool) (dev_priv : drm_i915_private) :
  connectors_have_encoder (connectors dev_priv) ->
  let enabled := poll_enabled (hotplug dev_priv) in
  exists d',
    i915_hpd_poll_init_work has_hotplug dev_priv
    = Some (d', if enabled then [] else [Out_hpd_irq_event])
    /\ connectors d'
       = map (fun c => set_polled (poll_init_polled has_hotplug enabled c) c)
           (connectors dev_priv)
    /\ hotplug d' = hotplug dev_priv
    /\ calls d'
       = calls dev_priv
         ++ (if enabled then [Call_drm_kms_helper_poll_enable] else []).
Proof.
  intros Hcs. cbv zeta. unfold i915_hpd_poll_init_work.
  rewrite poll_init_connectors_map by assumption.
  destruct (poll_enabled (hotplug dev_priv)); cbn [negb]; eexists;
    (split; [reflexivity |]); cbn; rewrite ?app_nil_r; auto.
Qed.

(** X21: polling forced. After [intel_hpd_poll_init] and the work it
    schedules, every connector that the driver gives no polling preference,
    that has no MST port and has an encoder on a real pin polls for connect
    and disconnect when the platform has hot-plug detection; a connector with
    a preference has its preference; the work enables the polling of the DRM
    core and does not ask for a hot-plug check. The pins are not touched. *)
Theorem hpd_poll_init_forced (has_hotplug : bool) (dev_priv : drm_i915_private) :
  connectors_have_encoder (connectors dev_priv) ->
  snd (intel_hpd_poll_init dev_priv) = [Out_schedule_poll_init_work]
  /\ exists d',
       i915_hpd_poll_init_work has_hotplug (fst (intel_hpd_poll_init dev_priv))
       = Some (d', [])
       /\ calls d' = calls dev_priv ++ [Call_drm_kms_helper_poll_enable]
       /\ stats (hotplug d') = stats (hotplug dev_priv)
       /\ Forall2 (fun c c' =>
                     c' = set_polled (polled c') c
                     /\ (intel_polled c <> 0 -> polled c' = intel_polled c)
                     /\ (intel_polled c = 0 -> mst_port c = false ->
                         has_hotplug = true ->
                         (forall enc, encoder c = Some enc -> HPD_NONE < hpd_pin enc) ->
                         polled c' = POLL_CONNECT_DISCONNECT))
            (connectors dev_priv) (connectors d').
Proof.
  intros Hcs. split; [reflexivity |].
  destruct (poll_init_work_eq has_hotplug (fst (intel_hpd_poll_init dev_priv)))
    as (d' & Hrun & Hmap & Hh & Hcalls); [exact Hcs |].
  cbn [intel_hpd_poll_init fst hotplug with_hotplug poll_enabled with_poll_enabled
       connectors calls] in *.
  exists d'. split; [exact Hrun | split; [exact Hcalls | split]].
  - rewrite Hh. reflexivity.
  - rewrite Hmap. clear - Hcs. unfold connectors_have_encoder in Hcs.
    induction Hcs as [| c cs Hc _ IH]; cbn [map]; constructor; [| exact IH].
    cbn [polled set_polled]. split; [reflexivity |]. unfold poll_init_polled. split.
    + intros Hpref. apply Z.eqb_neq in Hpref. now rewrite Hpref.
    + intros -> Hm -> Hpin. cbn [negb Z.eqb]. rewrite Hm.
      destruct (encoder c) as [enc |]; [| now elim Hc].
      specialize (Hpin enc eq_refl). cbn [andb].
      now replace (hpd_pin enc >? HPD_NONE) with true by lia.
Qed.

(** X22: hot-plug detection set up. After [intel_hpd_init] and the
    poll-init work it schedules, every connector without an MST port and with
    an encoder on a real pin has, on a platform with hot-plug detection, the
    polling mode that the re-enable work restores after a storm (the driver's
    preference, or hot-plug interrupts when there is none); the work asks
    for one hot-plug check and does not enable the polling of the DRM core;
    and running the work a second time changes no connector. *)
Theorem hpd_init_then_poll_init (dev_priv : drm_i915_private) :
  connectors_have_encoder (connectors dev_priv) ->
  exists d',
    i915_hpd_poll_init_work true (fst (intel_hpd_init dev_priv))
    = Some (d', [Out_hpd_irq_event])
    /\ count_calls Call_drm_kms_helper_poll_enable (calls d')
       = count_calls Call_drm_kms_helper_poll_enable (calls dev_priv)
    /\ Forall2 (fun c c' =>
                  c' = set_polled (polled c') c
                  /\ (mst_port c = false ->
                      (forall enc, encoder c = Some enc -> HPD_NONE < hpd_pin enc) ->
                      c' = restore_connector c))
         (connectors dev_priv) (connectors d')
    /\ exists d'',
         i915_hpd_poll_init_work true d' = Some (d'', [Out_hpd_irq_event])
         /\ connectors d'' = connectors d'.
Proof.
  intros Hcs.
  assert (connectors (fst (intel_hpd_init dev_priv)) = connectors dev_priv
          /\ poll_enabled (hotplug (fst (intel_hpd_init dev_priv))) = false
          /\ count_calls Call_drm_kms_helper_poll_enable
               (calls (fst (intel_hpd_init dev_priv)))
             = count_calls Call_drm_kms_helper_poll_enable (calls dev_priv))
    as (Ec & Ep & Ecalls).
  { unfold intel_hpd_init. cbn [fst display_irqs_enabled has_hpd_irq_setup with_hotplug].
    destruct (display_irqs_enabled dev_priv), (has_hpd_irq_setup dev_priv);
      cbn [andb connectors hotplug poll_enabled with_poll_enabled do_call calls];
      repeat split.
    unfold count_calls. rewrite filter_app, length_app. vm_compute (length (filter _ [_])).
    apply Nat.add_0_r. }
  destruct (poll_init_work_eq true (fst (intel_hpd_init dev_priv)))
    as (d' & Hrun & Hmap & Hh & Hcalls); [now rewrite Ec |].
  rewrite Ep, Ec in *. rewrite app_nil_r in Hcalls.
  exists d'. split; [exact Hrun | split; [now rewrite Hcalls | split]].
  - rewrite Hmap. clear - Hcs. unfold connectors_have_encoder in Hcs.
    induction Hcs as [| c cs Hc _ IH]; cbn [map]; constructor; [| exact IH].
    cbn [polled set_polled]. split; [reflexivity |].
    intros Hm Hpin. unfold restore_connector, restored_polled, poll_init_polled.
    rewrite Hm. destruct (intel_polled c =? 0); cbn [negb]; [| reflexivity].
    destruct (encoder c) as [enc |]; [| now elim Hc].
    specialize (Hpin enc eq_refl). cbn [andb].
    now replace (hpd_pin enc >? HPD_NONE) with true by lia.
  - assert (connectors_have_encoder (connectors d')) as Hcs'.
    { rewrite Hmap. apply connectors_have_encoder_map; [| assumption].
      intros c. split; reflexivity. }
    destruct (poll_init_work_eq true d' Hcs') as (d'' & Hrun2 & Hmap2 & _).
    rewrite Hh, Ep in Hrun2, Hmap2.
    exists d''. split; [exact Hrun2 |].
    rewrite Hmap2, Hmap, map_map. apply map_ext. intros c. reflexivity.
Qed.

(** ** Shutdown *)

Section Shutdown.

Variable to_jiffies : Z -> Z.
Variable port_hpd_pulse : Z -> option (bool -> irqreturn).
Variable encoder_hotplug : nat -> bool.


End Shutdown.

(** ** Instances *)

(** Three pulses inside one window of a pin: the count is their sum, and
    with the threshold 15 the last one reports the storm. *)
Lemma storm_detect_pulse_train_witness :
  let hpd := example_hotplug (mk_stats 0 0 HPD_ENABLED) 15 true in
  let r := detect_pulses time_in_range (msecs_to_jiffies 1000) hpd HPD_PORT_B
             [(100, true); (200, false); (300, true)] in
  count (pin_stats (snd r) HPD_PORT_B) = 21 /\ fst r = true.
Proof.
  cbv zeta.
  destruct (storm_detect_pulse_train time_in_range (msecs_to_jiffies 1000)
              (example_hotplug (mk_stats 0 0 HPD_ENABLED) 15 true) HPD_PORT_B
              [(100, true); (200, false); (300, true)]) as (H1 & _ & H3).
  - unfold valid_pin. by_computation.
  - by_computation.
  - repeat (constructor; [split; [intros _; reflexivity | reflexivity] |]).
    constructor.
  - by_computation.
  - by_computation.
  - split; [exact H1 | apply H3; discriminate].
Defined.

(** A pulse on port B leaves the slot of port C as it was. *)
Lemma storm_detect_touches_own_pin_witness :
  let hpd := example_hotplug (mk_stats 0 0 HPD_ENABLED) 5 false in
  let hpd' := snd (intel_hpd_irq_storm_detect time_in_range (msecs_to_jiffies 1000)
                     hpd 100 HPD_PORT_B true) in
  pin_stats hpd' HPD_PORT_C = pin_stats hpd HPD_PORT_C
  /\ with_stats (stats hpd) hpd' = hpd.
Proof.
  cbv zeta.
  destruct (storm_detect_touches_own_pin time_in_range (msecs_to_jiffies 1000)
              (example_hotplug (mk_stats 0 0 HPD_ENABLED) 5 false) 100 HPD_PORT_B
              true) as (H1 & H2 & _).
  - unfold valid_pin. by_computation.
  - split; [apply H1; by_computation | exact H2].
Defined.

(** A storm on port B with interrupts enabled: the hook, then the hot-plug
    work. *)
Lemma irq_handler_calls_witness :
  let d := example_dev_priv (example_hotplug (mk_stats 0 0 HPD_ENABLED) 5 false)
             true [] in
  calls (intel_hpd_irq_handler time_in_range (msecs_to_jiffies 1000) d 100
           (BIT HPD_PORT_B) 0)
  = [Call_hpd_irq_setup; Call_schedule_hotplug_work].
Proof.
  cbv zeta.
  pose proof (irq_handler_calls time_in_range (msecs_to_jiffies 1000)
                (example_dev_priv
                   (example_hotplug (mk_stats 0 0 HPD_ENABLED) 5 false) true [])
                100 (BIT HPD_PORT_B) 0) as H.
  cbv zeta in H. rewrite H.
  - reflexivity.
  - by_computation.
  - by_computation.
Defined.

(** A long pulse on an enabled pin under the threshold. *)
Lemma irq_handler_delivers_witness :
  let d := example_dev_priv (example_hotplug (mk_stats 0 0 HPD_ENABLED) 50 false)
             true [] in
  let d' := intel_hpd_irq_handler time_in_range (msecs_to_jiffies 1000) d 100
              (BIT HPD_PORT_B) 0 in
  count (pin_stats (hotplug d') HPD_PORT_B) = 10
  /\ Z.testbit (event_bits (hotplug d')) HPD_PORT_B = true.
Proof.
  cbv zeta.
  destruct (irq_handler_delivers time_in_range (msecs_to_jiffies 1000)
              (example_dev_priv
                 (example_hotplug (mk_stats 0 0 HPD_ENABLED) 50 false) true [])
              100 (BIT HPD_PORT_B) 0 HPD_PORT_B) as (H1 & H2 & _).
  - by_computation.
  - by_computation.
  - reflexivity.
  - reflexivity.
  - reflexivity.
  - split; [rewrite H1; reflexivity | rewrite H2; reflexivity].
Defined.

(** A disabled pin with the count 60 is enabled; the count stays. *)
Lemma hpd_enable_spec_witness :
  let d := example_dev_priv (example_hotplug (mk_stats 0 60 HPD_DISABLED) 50 false)
             true [] in
  pin_stats (hotplug (intel_hpd_enable d HPD_PORT_B)) HPD_PORT_B
  = mk_stats 0 60 HPD_ENABLED.
Proof.
  cbv zeta.
  destruct (hpd_enable_spec
              (example_dev_priv
                 (example_hotplug (mk_stats 0 60 HPD_DISABLED) 50 false) true [])
              HPD_PORT_B) as (H1 & _).
  - unfold valid_pin. by_computation.
  - rewrite H1; [reflexivity | discriminate].
Defined.

Lemma hpd_enable_disable_witness :
  let d := example_dev_priv (example_hotplug (mk_stats 0 60 HPD_DISABLED) 50 false)
             true [] in
  fst (intel_hpd_disable (intel_hpd_enable d HPD_PORT_B) HPD_PORT_B) = true
  /\ state (pin_stats
              (hotplug (intel_hpd_enable (snd (intel_hpd_disable d HPD_PORT_B))
                          HPD_PORT_B)) HPD_PORT_B) = HPD_ENABLED.
Proof.
  cbv zeta.
  destruct (hpd_enable_disable
              (example_dev_priv
                 (example_hotplug (mk_stats 0 60 HPD_DISABLED) 50 false) true [])
              HPD_PORT_B) as (H1 & _ & H3 & _).
  - unfold valid_pin. by_computation.
  - discriminate.
  - split; [exact H1 | exact H3].
Defined.

Lemma hpd_init_spec_witness :
  let d := example_dev_priv (example_hotplug (mk_stats 7 60 HPD_DISABLED) 50 false)
             true [] in
  pin_stats (hotplug (fst (intel_hpd_init d))) HPD_PORT_B = mk_stats 7 0 HPD_ENABLED
  /\ calls (fst (intel_hpd_init d)) = [Call_hpd_irq_setup].
Proof.
  cbv zeta.
  destruct (hpd_init_spec
              (example_dev_priv
                 (example_hotplug (mk_stats 7 60 HPD_DISABLED) 50 false) true []))
    as (H1 & _ & _ & _ & _ & _ & H7 & _).
  - by_computation.
  - split; [rewrite H1; [reflexivity | by_computation] | exact H7].
Defined.

Lemma hpd_enable_keeps_count_witness :
  let d := example_dev_priv (example_hotplug (mk_stats 0 60 HPD_DISABLED) 50 false)
             true [] in
  fst (intel_hpd_irq_storm_detect time_in_range (msecs_to_jiffies 1000)
         (hotplug (intel_hpd_enable d HPD_PORT_B)) 100 HPD_PORT_B true) = true.
Proof.
  cbv zeta.
  destruct (hpd_enable_keeps_count time_in_range (msecs_to_jiffies 1000)
              (example_dev_priv
                 (example_hotplug (mk_stats 0 60 HPD_DISABLED) 50 false) true [])
              100 HPD_PORT_B true) as (_ & H2 & _).
  - unfold valid_pin. by_computation.
  - discriminate.
  - by_computation.
  - by_computation.
  - discriminate.
  - reflexivity.
  - exact H2.
Defined.

Lemma hpd_init_fresh_count_witness :
  let d := example_dev_priv (example_hotplug (mk_stats 0 60 HPD_DISABLED) 50 false)
             true [] in
  let h := hotplug (fst (intel_hpd_init d)) in
  let r := intel_hpd_irq_storm_detect time_in_range (msecs_to_jiffies 1000) h 100
             HPD_PORT_B true in
  count (pin_stats (snd r) HPD_PORT_B) = 10 /\ fst r = false.
Proof.
  cbv zeta.
  destruct (hpd_init_fresh_count time_in_range (msecs_to_jiffies 1000)
              (example_dev_priv
                 (example_hotplug (mk_stats 0 60 HPD_DISABLED) 50 false) true [])
              100 HPD_PORT_B true) as (H1 & H2).
  - by_computation.
  - by_computation.
  - split; [by_computation | discriminate].
  - split; [exact H1 | exact H2].
Defined.

(** One disabled pin with one polled connector on it. *)
Lemma storm_reenable_work_settles_witness :
  let c := mk_connector POLL_CONNECT_DISCONNECT 0 (Some (mk_encoder HPD_PORT_B)) false in
  let d := example_dev_priv
             (example_hotplug (mk_stats 0 60 HPD_DISABLED) 50 false) true [c] in
  exists d',
    intel_hpd_irq_storm_reenable_work d = Some d'
    /\ state (pin_stats (hotplug d') HPD_PORT_B) <> HPD_DISABLED.
Proof.
  cbv zeta.
  destruct (storm_reenable_work_settles
              (example_dev_priv
                 (example_hotplug (mk_stats 0 60 HPD_DISABLED) 50 false) true
                 [mk_connector POLL_CONNECT_DISCONNECT 0
                    (Some (mk_encoder HPD_PORT_B)) false]))
    as (d' & Hrun & Hpins & _).
  - constructor; [discriminate | constructor].
  - by_computation.
  - exists d'. split; [exact Hrun |].
    apply (Hpins HPD_PORT_B). by_computation.
Defined.

(** A marked pin with one connector on it: after the fallback and the
    re-enable work the connector is as at the start. *)
Lemma storm_fallback_recovery_witness :
  let c := mk_connector DRM_CONNECTOR_POLL_HPD 0 (Some (mk_encoder HPD_PORT_B)) false in
  let d := example_dev_priv
             (example_hotplug (mk_stats 0 60 HPD_MARK_DISABLED) 50 false)
             true [c] in
  exists d'',
    intel_hpd_irq_storm_reenable_work
      (intel_hpd_irq_storm_switch_to_polling (msecs_to_jiffies 1000) d) = Some d''
    /\ connectors d'' = [c]
    /\ pin_stats (hotplug d'') HPD_PORT_B = mk_stats 0 60 HPD_ENABLED.
Proof.
  cbv zeta.
  destruct (storm_fallback_recovery (msecs_to_jiffies 1000)
              (example_dev_priv
                 (example_hotplug (mk_stats 0 60 HPD_MARK_DISABLED) 50 false)
                 true
                 [mk_connector DRM_CONNECTOR_POLL_HPD 0
                    (Some (mk_encoder HPD_PORT_B)) false]))
    as (d'' & Hrun & Hcs & _ & Hpin).
  - by_computation.
  - constructor; [| constructor].
    split; [reflexivity | split; [reflexivity |]].
    exists (mk_encoder HPD_PORT_B). by_computation.
  - exists d''. split; [exact Hrun | split; [exact Hcs |]].
    rewrite (Hpin HPD_PORT_B []
               (mk_connector DRM_CONNECTOR_POLL_HPD 0
                  (Some (mk_encoder HPD_PORT_B)) false) []).
    + reflexivity.
    + by_computation.
    + reflexivity.
    + reflexivity.
    + constructor.
    + reflexivity.
Defined.

(** Port B is registered on pin B and its hook returns [IRQ_NONE] for a
    long pulse. *)
Lemma digport_work_fallback_witness :
  let h := mk_hotplug (replicate (Z.to_nat HPD_NUM_PINS) (mk_stats 0 0 HPD_ENABLED)) 0
             [None; Some (mk_dig_port HPD_PORT_B); None; None; None; None]
             (BIT PORT_B) 0 false 50 false in
  let d := example_dev_priv h true [] in
  let d' := fst (i915_digport_work_func (fun _ => Some (fun _ => IRQ_NONE)) d) in
  Z.testbit (event_bits (hotplug d')) HPD_PORT_B = true
  /\ calls d' = [Call_schedule_hotplug_work].
Proof.
  cbv zeta.
  destruct (digport_work_fallback (fun _ => Some (fun _ => IRQ_NONE))
              (example_dev_priv
                 (mk_hotplug
                    (replicate (Z.to_nat HPD_NUM_PINS) (mk_stats 0 0 HPD_ENABLED)) 0
                    [None; Some (mk_dig_port HPD_PORT_B); None; None; None; None]
                    (BIT PORT_B) 0 false 50 false) true []))
    as (H1 & H2 & _).
  - intros i dig. cbn [hotplug example_dev_priv irq_port].
    destruct (Z.to_nat i) as [| [| [| [| [| [| n]]]]]]; cbn; intros E;
      try discriminate E.
    injection E as <-. by_computation.
  - split; [rewrite H1; [reflexivity | by_computation] | exact H2].
Defined.

(** A storm on pin B with a connector on it: the hot-plug work does not
    probe the connector and makes it poll. *)
Lemma storm_then_hotplug_work_witness :
  let c := mk_connector DRM_CONNECTOR_POLL_HPD 0 (Some (mk_encoder HPD_PORT_B)) false in
  let d := example_dev_priv (example_hotplug (mk_stats 0 0 HPD_ENABLED) 5 false)
             true [c] in
  let r := i915_hotplug_work_func (msecs_to_jiffies 1000) (fun _ => true)
             (intel_hpd_irq_handler time_in_range (msecs_to_jiffies 1000) d 100
                (BIT HPD_PORT_B) 0) in
  count_probes 0 (snd r) = 0%nat
  /\ state (pin_stats (hotplug (fst r)) HPD_PORT_B) = HPD_DISABLED
  /\ connectors (fst r) !! 0%nat = Some (set_polled POLL_CONNECT_DISCONNECT c).
Proof.
  cbv zeta.
  destruct (storm_then_hotplug_work time_in_range (msecs_to_jiffies 1000)
              (fun _ => true)
              (example_dev_priv
                 (example_hotplug (mk_stats 0 0 HPD_ENABLED) 5 false) true
                 [mk_connector DRM_CONNECTOR_POLL_HPD 0
                    (Some (mk_encoder HPD_PORT_B)) false])
              100 (BIT HPD_PORT_B) 0 HPD_PORT_B) as (H1 & H2).
  - by_computation.
  - unfold valid_pin. by_computation.
  - reflexivity.
  - reflexivity.
  - reflexivity.
  - destruct (H2 [] (mk_connector DRM_CONNECTOR_POLL_HPD 0
                       (Some (mk_encoder HPD_PORT_B)) false) [])
      as (H3 & H4 & _).
    + reflexivity.
    + constructor.
    + reflexivity.
    + split; [| split; [exact H3 | exact H4]].
      apply (H1 0%nat (mk_connector DRM_CONNECTOR_POLL_HPD 0
                         (Some (mk_encoder HPD_PORT_B)) false)
               (mk_encoder HPD_PORT_B)); reflexivity.
Defined.

(** Pin B fires at the jiffies 100 and 200 before the hot-plug work runs. *)
Lemma two_dispatches_one_probe_witness :
  let c := mk_connector DRM_CONNECTOR_POLL_HPD 0 (Some (mk_encoder HPD_PORT_B)) false in
  let d := example_dev_priv (example_hotplug (mk_stats 0 0 HPD_ENABLED) 50 false)
             true [c] in
  let d1 := intel_hpd_irq_handler time_in_range (msecs_to_jiffies 1000) d 100
              (BIT HPD_PORT_B) 0 in
  let d2 := intel_hpd_irq_handler time_in_range (msecs_to_jiffies 1000) d1 200
              (BIT HPD_PORT_B) 0 in
  count_probes 0
    (snd (i915_hotplug_work_func (msecs_to_jiffies 1000) (fun _ => true) d2))
  = 1%nat.
Proof.
  cbv zeta.
  apply (two_dispatches_one_probe time_in_range (msecs_to_jiffies 1000)
           (fun _ => true)
           (example_dev_priv
              (example_hotplug (mk_stats 0 0 HPD_ENABLED) 50 false) true
              [mk_connector DRM_CONNECTOR_POLL_HPD 0
                 (Some (mk_encoder HPD_PORT_B)) false])
           100 (BIT HPD_PORT_B) 0 200 (BIT HPD_PORT_B) 0 HPD_PORT_B 0%nat
           (mk_connector DRM_CONNECTOR_POLL_HPD 0 (Some (mk_encoder HPD_PORT_B)) false)
           (mk_encoder HPD_PORT_B)).
  - by_computation.
  - by_computation.
  - reflexivity.
  - reflexivity.
  - reflexivity.
  - reflexivity.
  - reflexivity.
  - reflexivity.
  - reflexivity.
  - reflexivity.
  - reflexivity.
Defined.

(** Port B is registered on pin B, its hook returns [IRQ_NONE], and a
    connector sits on pin B. *)
Lemma digport_fallback_probe_witness :
  let c := mk_connector DRM_CONNECTOR_POLL_HPD 0 (Some (mk_encoder HPD_PORT_B)) false in
  let h := mk_hotplug (replicate (Z.to_nat HPD_NUM_PINS) (mk_stats 0 0 HPD_ENABLED)) 0
             [None; Some (mk_dig_port HPD_PORT_B); None; None; None; None]
             (BIT PORT_B) 0 false 50 false in
  let d := example_dev_priv h true [c] in
  let d' := fst (i915_digport_work_func (fun _ => Some (fun _ => IRQ_NONE)) d) in
  calls d' = [Call_schedule_hotplug_work]
  /\ count_probes 0
       (snd (i915_hotplug_work_func (msecs_to_jiffies 1000) (fun _ => true) d'))
     = 1%nat.
Proof.
  cbv zeta.
  apply (digport_fallback_probe (msecs_to_jiffies 1000)
           (fun _ => Some (fun _ => IRQ_NONE)) (fun _ => true)
           (example_dev_priv
              (mk_hotplug
                 (replicate (Z.to_nat HPD_NUM_PINS) (mk_stats 0 0 HPD_ENABLED)) 0
                 [None; Some (mk_dig_port HPD_PORT_B); None; None; None; None]
                 (BIT PORT_B) 0 false 50 false) true
              [mk_connector DRM_CONNECTOR_POLL_HPD 0
                 (Some (mk_encoder HPD_PORT_B)) false])
           PORT_B 0%nat
           (mk_connector DRM_CONNECTOR_POLL_HPD 0 (Some (mk_encoder HPD_PORT_B)) false)
           (mk_encoder HPD_PORT_B)).
  - intros i dig. cbn [hotplug example_dev_priv irq_port].
    destruct (Z.to_nat i) as [| [| [| [| [| [| n]]]]]]; cbn; intros E;
      try discriminate E.
    injection E as <-. by_computation.
  - vm_compute. auto.
  - reflexivity.
  - reflexivity.
  - reflexivity.
  - reflexivity.
Defined.

(** A connector without a polling preference on pin B. *)
Lemma hpd_poll_init_forced_witness :
  let c := mk_connector DRM_CONNECTOR_POLL_HPD 0 (Some (mk_encoder HPD_PORT_B)) false in
  let d := example_dev_priv (example_hotplug (mk_stats 0 0 HPD_ENABLED) 50 false)
             true [c] in
  exists d',
    i915_hpd_poll_init_work true (fst (intel_hpd_poll_init d)) = Some (d', [])
    /\ calls d' = [Call_drm_kms_helper_poll_enable]
    /\ connectors d' = [set_polled POLL_CONNECT_DISCONNECT c].
Proof.
  cbv zeta.
  destruct (hpd_poll_init_forced true
              (example_dev_priv
                 (example_hotplug (mk_stats 0 0 HPD_ENABLED) 50 false) true
                 [mk_connector DRM_CONNECTOR_POLL_HPD 0
                    (Some (mk_encoder HPD_PORT_B)) false]))
    as (_ & d' & Hrun & Hcalls & _ & Hcs).
  - constructor; [discriminate | constructor].
  - exists d'. split; [exact Hrun | split; [exact Hcalls |]].
    cbn [connectors example_dev_priv] in Hcs.
    destruct (connectors d') as [| c' [| c'' l]].
    + exfalso. apply Forall2_length in Hcs. discriminate Hcs.
    + apply Forall2_cons_1 in Hcs. destruct Hcs as [(Hc & _ & Hp) _].
      rewrite Hc. rewrite Hp; try reflexivity.
      intros enc E. injection E as <-. by_computation.
    + exfalso. apply Forall2_length in Hcs. discriminate Hcs.
Defined.

(** A polling connector without a preference on pin B gets hot-plug
    detection. *)
Lemma hpd_init_then_poll_init_witness :
  let c := mk_connector POLL_CONNECT_DISCONNECT 0 (Some (mk_encoder HPD_PORT_B)) false in
  let d := example_dev_priv (example_hotplug (mk_stats 0 0 HPD_ENABLED) 50 false)
             true [c] in
  exists d',
    i915_hpd_poll_init_work true (fst (intel_hpd_init d))
    = Some (d', [Out_hpd_irq_event])
    /\ connectors d' = [set_polled DRM_CONNECTOR_POLL_HPD c].
Proof.
  cbv zeta.
  destruct (hpd_init_then_poll_init
              (example_dev_priv
                 (example_hotplug (mk_stats 0 0 HPD_ENABLED) 50 false) true
                 [mk_connector POLL_CONNECT_DISCONNECT 0
                    (Some (mk_encoder HPD_PORT_B)) false]))
    as (d' & Hrun & _ & Hcs & _).
  - constructor; [discriminate | constructor].
  - exists d'. split; [exact Hrun |].
    cbn [connectors example_dev_priv] in Hcs.
    destruct (connectors d') as [| c' [| c'' l]].
    + exfalso. apply Forall2_length in Hcs. discriminate Hcs.
    + apply Forall2_cons_1 in Hcs. destruct Hcs as [(_ & Hc) _].
      rewrite Hc; try reflexivity.
      intros enc E. injection E as <-. by_computation.
    + exfalso. apply Forall2_length in Hcs. discriminate Hcs.
Defined.
